(** * Inventory-Manager: currency conversion, filtering and the quote ledger

    A shallow embedding of the pure core of the storefront client
    ([currencyLogic.js], [filterService.js], [product.js], [storage.js]).

    JavaScript numbers are IEEE 754 binary64 values: they are modelled by
    Rocq's primitive [float], whose operations are the processor's and
    whose specification ([FloatAxioms]) relates them to [spec_float].
    A JavaScript string is modelled by the [string] of its UTF-8 bytes;
    where the code counts or orders UTF-16 code units, the model decodes
    them ([UTF16.units]). The host's case mapping ([toLowerCase]) and the
    text it prints for a built-in function are parameters. An object used
    as a dictionary ([exchangeRates], [CURRENCY_SYMBOLS], [counts]) is the
    [gmap] of its own properties together with the properties it inherits
    from [Object.prototype] ([Object.get]). *)

From Stdlib Require Import ZArith QArith Qround Qabs Bool List String Ascii Floats Lia DecimalString.
From stdpp Require Import gmap strings sorting.

Local Open Scope string_scope.
Local Open Scope Z_scope.

(* Decimal literals such as 0.92 denote the nearest binary64 value, as they
   do in JavaScript. *)
Set Warnings "-inexact-float,-register-all".

(* ===================================================================== *)
(** * JavaScript values *)
(* ===================================================================== *)

Module JS.

(** The primitive values an argument of the currency functions can be
    bound to. [VUndefined] is also what a missing argument and a missing
    property evaluate to. *)
Inductive value : Type :=
| VUndefined
| VNull
| VBool (b : bool)
| VNum (x : float)
| VStr (s : string).

(** [typeof v] *)
Definition typeof (v : value) : string :=
  match v with
  | VUndefined => "undefined"
  | VNull => "object"
  | VBool _ => "boolean"
  | VNum _ => "number"
  | VStr _ => "string"
  end.

(** [ToBoolean] on a number: [+0], [-0] and [NaN] are falsy. *)
Definition truthy_number (x : float) : bool :=
  negb (PrimFloat.is_zero x || PrimFloat.is_nan x).

(** [ToBoolean v], the test behind [!v], [v || w] and [if (v)]. *)
Definition ToBoolean (v : value) : bool :=
  match v with
  | VUndefined | VNull => false
  | VBool b => b
  | VNum x => truthy_number x
  | VStr s => negb (String.eqb s "")
  end.

(** [typeof v === 'number'] *)
Definition is_number (v : value) : bool := String.eqb (typeof v) "number".

(** The number behind a value whose [typeof] is ["number"]. *)
Definition number_of (v : value) : float :=
  match v with
  | VNum x => x
  | _ => PrimFloat.nan
  end.

(** The global [isNaN(v)] for a [v] of type number; the code reaches the
    call only past [typeof price !== 'number']. *)
Definition isNaN (v : value) : bool := PrimFloat.is_nan (number_of v).

(** [a === b] on primitive values: numbers by IEEE equality ([NaN] differs
    from itself, [+0] equals [-0]), the rest by identity of type and value. *)
Definition strict_equals (a b : value) : bool :=
  match a, b with
  | VUndefined, VUndefined => true
  | VNull, VNull => true
  | VBool x, VBool y => Bool.eqb x y
  | VNum x, VNum y => PrimFloat.eqb x y
  | VStr x, VStr y => String.eqb x y
  | _, _ => false
  end.

End JS.
Import JS.

(* ===================================================================== *)
(** * Objects used as dictionaries *)
(* ===================================================================== *)

Module Object.

(** The names of the properties of [Object.prototype] (ECMA-262, 20.1.3
    and B.2.2.1), which every object literal and every object that
    [JSON.parse] builds inherits. *)
Definition prototype : list string :=
  ["constructor"; "hasOwnProperty"; "isPrototypeOf"; "propertyIsEnumerable";
   "toLocaleString"; "toString"; "valueOf";
   "__defineGetter__"; "__defineSetter__"; "__lookupGetter__"; "__lookupSetter__";
   "__proto__"].

(** [key] names a property of [Object.prototype]. *)
Definition inherits (key : string) : bool :=
  List.existsb (String.eqb key) prototype.

(** What an expression [o[key]] or [o[key] || fallback] evaluates to: a
    value of the table's type, or the built-in that [Object.prototype]
    holds under [name] (a function; the prototype itself through
    [__proto__]), or [undefined]. *)
Inductive property (A : Type) : Type :=
| Value (a : A)
| Native (name : string)
| Undefined.
Arguments Value {A} a.
Arguments Native {A} name.
Arguments Undefined {A}.

(** [o[key]] for an object with the own properties [o]. *)
Definition get {A : Type} (o : gmap string A) (key : string) : property A :=
  match o !! key with
  | Some a => Value a
  | None => if inherits key then Native key else Undefined
  end.

(** [o[key] || fallback]; a built-in is truthy. *)
Definition get_or {A : Type} (truthy : A -> bool) (o : gmap string A)
    (key : string) (fallback : A) : property A :=
  match get o key with
  | Value a => Value (if truthy a then a else fallback)
  | Native name => Native name
  | Undefined => Value fallback
  end.

End Object.

(* ===================================================================== *)
(** * The host *)
(* ===================================================================== *)

(** What the code takes from its host and this development leaves open:
    [toLowerCase] is [String.prototype.toLowerCase], the default case
    conversion of the host's version of Unicode; [native_text name] is the
    text the host prints for the built-in function
    [Object.prototype[name]], which ECMA-262 leaves to the
    implementation. *)
Record Host : Type := mkHost {
  toLowerCase : string -> string;
  native_text : string -> string
}.

(* ===================================================================== *)
(** * currencyLogic.js *)
(* ===================================================================== *)

(** An exchange-rate table: the own properties of the object, currency
    code to multiplier against USD. *)
Abbreviation rates := (gmap string float).

(** [!rate] for [rate = exchangeRates[targetCurrency]]: an inherited
    function or object is truthy. *)
Definition no_rate (rate : Object.property float) : bool :=
  match rate with
  | Object.Value r => negb (truthy_number r)
  | Object.Native _ => false
  | Object.Undefined => true
  end.

(** [ToNumber(rate)], which [*] applies to its operand: [NaN] for
    [undefined] and for every function and object of [Object.prototype]
    (their primitive value is a text that is not a numeral). *)
Definition ToNumber (rate : Object.property float) : float :=
  match rate with
  | Object.Value r => r
  | Object.Native _ => PrimFloat.nan
  | Object.Undefined => PrimFloat.nan
  end.

(** [convertPrice(usdPrice, targetCurrency, exchangeRates)] *)
Definition convertPrice (usdPrice : value) (targetCurrency : string)
    (exchangeRates : rates) : value :=
  if negb (ToBoolean usdPrice) || negb (is_number usdPrice) then VNum 0
  else if String.eqb targetCurrency "USD" then usdPrice
  else
    let rate := Object.get exchangeRates targetCurrency in
    if no_rate rate then usdPrice
    else VNum (number_of usdPrice * ToNumber rate)%float.

(** The spec's notion of a valid amount: a number that is finite and not
    negative. *)
Definition valid_amount (v : value) : bool :=
  match v with
  | VNum x => PrimFloat.is_finite x && (0 <=? x)%float
  | _ => false
  end.


(* ===================================================================== *)
(** * Number-to-text built-in *)
(* ===================================================================== *)

(** [Number::toString] (ECMA-262, 6.1.6.1.20): the shortest decimal that
    reads back as the same number, the closest one among the shortest,
    printed with the exponent rules of the standard. *)
Module NumberToString.

(** The exact value [m * 2^e]. *)
Definition exact (m e : Z) : Q :=
  if 0 <=? e then inject_Z (m * 2 ^ e) else Qmake m (Z.to_pos (2 ^ (- e))).

(** [s * 10^j] *)
Definition decimal (s j : Z) : Q :=
  if 0 <=? j then inject_Z (s * 10 ^ j) else Qmake s (Z.to_pos (10 ^ (- j))).

(** The real numbers that round to the finite float [m * 2^e], [m > 0]:
    those between the midpoints to its two neighbours, the midpoints
    themselves when [m] is even. *)
Definition rounds_to (m e : Z) (c : Q) : bool :=
  let lo := if (m =? 2 ^ 52) && (emin <? e) then exact (4 * m - 1) (e - 2)
            else exact (2 * m - 1) (e - 1) in
  let hi := exact (2 * m + 1) (e - 1) in
  if Z.even m then Qle_bool lo c && Qle_bool c hi
  else negb (Qle_bool c lo) && negb (Qle_bool hi c).

(** The [n] with [10^(n-1) <= v < 10^n], searched downwards from [n]. *)
Fixpoint decimal_exponent (fuel : nat) (v : Q) (n : Z) : Z :=
  match fuel with
  | O => n
  | S fuel' =>
      if Qle_bool (decimal 1 (n - 1)) v then n
      else decimal_exponent fuel' v (n - 1)
  end.

(** The candidates with [k] digits: [(s, n)] stands for [s * 10^(n-k)]. *)
Definition candidates (v : Q) (n0 k : Z) : list (Z * Z) :=
  let s_lo := Qfloor (Qdiv v (decimal 1 (n0 - k))) in
  let s_hi := s_lo + 1 in
  [(s_lo, n0); if s_hi =? 10 ^ k then (10 ^ (k - 1), n0 + 1) else (s_hi, n0)].

Definition distance (v : Q) (k : Z) (c : Z * Z) : Q :=
  Qabs (Qminus (decimal (fst c) (snd c - k)) v).

(** The closer of two candidates, the even one on a tie. *)
Definition closer (v : Q) (k : Z) (a b : Z * Z) : Z * Z :=
  match Qcompare (distance v k a) (distance v k b) with
  | Lt => a
  | Gt => b
  | Eq => if Z.even (fst a) then a else b
  end.

Definition best (v : Q) (m e n0 k : Z) : option (Z * Z) :=
  match List.filter (fun c => rounds_to m e (decimal (fst c) (snd c - k)))
          (candidates v n0 k) with
  | [] => None
  | [a] => Some a
  | a :: b :: _ => Some (closer v k a b)
  end.

(** The least [k], from [k] on, with a [k]-digit decimal that rounds to the
    number; 17 digits always do. *)
Fixpoint shortest (fuel : nat) (v : Q) (m e n0 k : Z) : Z * Z * Z :=
  match fuel with
  | O => (k, 0, n0)
  | S fuel' =>
      match best v m e n0 k with
      | Some (s, n) => (k, s, n)
      | None => shortest fuel' v m e n0 (k + 1)
      end
  end.

Definition digits (n : Z) : string := NilZero.string_of_uint (N.to_uint (Z.to_N n)).

Fixpoint zeros (n : nat) : string :=
  match n with
  | O => EmptyString
  | S k => String "0" (zeros k)
  end.

(** Steps 6 to 11: lay out the [k] digits of [s] for the exponent [n]. *)
Definition layout (k : Z) (s : string) (n : Z) : string :=
  if (k <=? n) && (n <=? 21) then s ++ zeros (Z.to_nat (n - k))
  else if (0 <? n) && (n <=? 21) then
    substring 0 (Z.to_nat n) s ++ "." ++ substring (Z.to_nat n) (Z.to_nat (k - n)) s
  else if (-6 <? n) && (n <=? 0) then "0." ++ zeros (Z.to_nat (- n)) ++ s
  else
    let exponent := (if 0 <=? n - 1 then "+" else "-") ++ digits (Z.abs (n - 1)) in
    if k =? 1 then s ++ "e" ++ exponent
    else substring 0 1 s ++ "." ++ substring 1 (Z.to_nat (k - 1)) s ++ "e" ++ exponent.

(** The shortest decimal of [m * 2^e]: [k] digits [s] and the exponent
    [n], for the value [s * 10^(n-k)]. *)
Definition shortest_decimal (m e : Z) : Z * Z * Z :=
  let v := exact m e in
  let n0 := decimal_exponent 700 v 310 in
  shortest 17 v m e n0 1.

Definition positive_to_string (m e : Z) : string :=
  let '(k, s, n) := shortest_decimal m e in
  layout k (digits s) n.

(** [Number::toString(x)] in radix 10 *)
Definition toString (x : float) : string :=
  match Prim2SF x with
  | S754_nan => "NaN"
  | S754_zero _ => "0"
  | S754_infinity s => if s then "-Infinity" else "Infinity"
  | S754_finite s m e => (if s then "-" else "") ++ positive_to_string (Zpos m) e
  end.

End NumberToString.

(* ===================================================================== *)
(** * Number formatting built-ins *)
(* ===================================================================== *)

(** [Math.round] and [Number.prototype.toLocaleString('en-US', ...)] are
    the host's. [Math.round] is [floor(x + 1/2)] on the exact value. The
    formatter works, as the formatter of the engines does, on the shortest
    decimal that reads back as the number, the one [Number::toString]
    prints: it rounds that decimal half away from zero to
    [maximumFractionDigits] digits, drops trailing fraction zeros down to
    [minimumFractionDigits] and groups the integer digits by three with a
    comma. So 1.005, whose binary value lies below its decimal, is
    rendered 1.01 with two fraction digits. *)
Module Intl.

(** Decimal digits of a natural number. *)
Definition digits (n : Z) : string := NilZero.string_of_uint (N.to_uint (Z.to_N n)).

(** Thousands grouping of a digit string: ["1234567"] to ["1,234,567"]. *)
Fixpoint group3 (s : string) : string :=
  match s with
  | EmptyString => EmptyString
  | String c rest =>
      let n := String.length rest in
      String c (if (Nat.eqb (n mod 3) 0 && negb (Nat.eqb n 0))%bool
                then String "," (group3 rest) else group3 rest)
  end.

Fixpoint zeros (n : nat) : string :=
  match n with
  | O => EmptyString
  | S k => String "0" (zeros k)
  end.

(** Left-pad a digit string with zeros to [n] characters. *)
Definition pad_left (n : nat) (s : string) : string :=
  zeros (n - String.length s) ++ s.

(** Drop trailing zeros of a fraction, keeping at least [keep] digits. *)
Fixpoint trim_fraction (keep : nat) (s : string) : string :=
  match s with
  | EmptyString => EmptyString
  | String c rest =>
      let rest' := trim_fraction (Nat.pred keep) rest in
      if (Nat.eqb keep 0 && Ascii.eqb c "0" && String.eqb rest' "")%bool
      then EmptyString else String c rest'
  end.

(** [s * 10^j * 10^k] rounded to an integer, ties away from zero. *)
Definition scaled_round (s j : Z) (k : nat) : Z :=
  let p := j + Z.of_nat k in
  if 0 <=? p then s * 10 ^ p
  else (2 * s + 10 ^ (- p)) / (2 * 10 ^ (- p)).

(** The unsigned rendering of the magnitude [s * 10^j]. *)
Definition format_magnitude (minFrac maxFrac : nat) (s j : Z) : string :=
  let n := scaled_round s j maxFrac in
  let unit := 10 ^ Z.of_nat maxFrac in
  let frac :=
    if Nat.eqb maxFrac 0 then EmptyString
    else trim_fraction minFrac (pad_left maxFrac (digits (n mod unit))) in
  group3 (digits (n / unit)) ++
  (if String.eqb frac "" then "" else "." ++ frac).

Definition sign_prefix (s : bool) : string := if s then "-" else "".

(** [x.toLocaleString('en-US', {minimumFractionDigits: minFrac,
    maximumFractionDigits: maxFrac})] *)
Definition toLocaleString (minFrac maxFrac : nat) (x : float) : string :=
  match Prim2SF x with
  | S754_nan => "NaN"
  | S754_infinity s => sign_prefix s ++ "∞"
  | S754_zero s => sign_prefix s ++ format_magnitude minFrac maxFrac 0 0
  | S754_finite s m e =>
      let '(k, digits_, n) := NumberToString.shortest_decimal (Zpos m) e in
      sign_prefix s ++ format_magnitude minFrac maxFrac digits_ (n - k)
  end.

(** [x.toLocaleString('en-US')]: no fraction digits required, at most 3. *)
Definition toLocaleString_default (x : float) : string := toLocaleString 0 3 x.

End Intl.

Module Math.

(** [Math.round(x)]: the integer nearest to [x], ties towards +infinity;
    a result of zero keeps the sign of [x]. *)
Definition round (x : float) : float :=
  match Prim2SF x with
  | S754_finite s m e =>
      if 0 <=? e then x
      else
        let n := (2 * cond_Zopp s (Zpos m) + 2 ^ (- e)) / (2 * 2 ^ (- e)) in
        if n =? 0 then (if s then neg_zero else zero)
        else SF2Prim (binary_normalize prec emax n 0 false)
  | _ => x
  end.

End Math.

(* ===================================================================== *)
(** * currencyLogic.js: formatting *)
(* ===================================================================== *)

(** [CURRENCY_SYMBOLS] *)
Definition CURRENCY_SYMBOLS : gmap string string :=
  list_to_map [("USD", "$"); ("EUR", "€"); ("GBP", "£"); ("JPY", "¥"); ("MXN", "$")].

(** [table[key] || fallback] for a table of strings: an absent entry is
    [undefined] and an empty string is falsy. *)
Definition lookup_or (table : gmap string string) (key fallback : string)
    : Object.property string :=
  Object.get_or (fun s => ToBoolean (VStr s)) table key fallback.

(** [ToString(v)], which a template literal applies to [v]: the text of a
    built-in function is the host's, that of [Object.prototype] is fixed. *)
Definition ToString (host : Host) (v : Object.property string) : string :=
  match v with
  | Object.Value s => s
  | Object.Native name =>
      if String.eqb name "__proto__" then "[object Object]"
      else native_text host name
  | Object.Undefined => "undefined"
  end.

(** [getCurrencySymbol(currency)] *)
Definition getCurrencySymbol (currency : string) : Object.property string :=
  lookup_or CURRENCY_SYMBOLS currency "$".

(** [formatPrice(price, currency)] *)
Definition formatPrice (host : Host) (price : value) (currency : string) : string :=
  if negb (is_number price) || isNaN price then
    ToString host (lookup_or CURRENCY_SYMBOLS currency "$") ++ "0.00"
  else
    let symbol := lookup_or CURRENCY_SYMBOLS currency "$" in
    if String.eqb currency "JPY" then
      ToString host symbol ++ Intl.toLocaleString_default (Math.round (number_of price))
    else
      let formattedAmount := Intl.toLocaleString 2 2 (number_of price) in
      ToString host symbol ++ formattedAmount.

(** [convertAndFormat(usdPrice, targetCurrency, exchangeRates)] *)
Definition convertAndFormat (host : Host) (usdPrice : value) (targetCurrency : string)
    (exchangeRates : rates) : string :=
  let convertedPrice := convertPrice usdPrice targetCurrency exchangeRates in
  formatPrice host convertedPrice targetCurrency.

(** The symbol table as the specification lists it. *)
Definition spec_symbols : list (string * string) :=
  [("USD", "$"); ("EUR", "€"); ("GBP", "£"); ("JPY", "¥"); ("MXN", "$")].

(* ===================================================================== *)
(** * String built-ins *)
(* ===================================================================== *)

(** [String.prototype.trim] and [includes] on UTF-8 text, and the case
    mapping of a host that knows the ASCII letters only. *)
Module Str.

(** The text with the bytes [l]. *)
Fixpoint bytes (l : list nat) : string :=
  match l with
  | [] => EmptyString
  | n :: rest => String (ascii_of_nat n) (bytes rest)
  end.

(** The characters [trim] strips (ECMA-262, 12.2 WhiteSpace and 12.3
    LineTerminator), each in UTF-8: TAB, LF, VT, FF, CR, SP, U+00A0,
    U+1680, U+2000 to U+200A, U+2028, U+2029, U+202F, U+205F, U+3000 and
    U+FEFF. *)
Definition white_space : list string :=
  List.map bytes
    [[9]; [10]; [11]; [12]; [13]; [32]; [194; 160]; [225; 154; 128];
     [226; 128; 128]; [226; 128; 129]; [226; 128; 130]; [226; 128; 131];
     [226; 128; 132]; [226; 128; 133]; [226; 128; 134]; [226; 128; 135];
     [226; 128; 136]; [226; 128; 137]; [226; 128; 138];
     [226; 128; 168]; [226; 128; 169]; [226; 128; 175]; [226; 129; 159];
     [227; 128; 128]; [239; 187; 191]]%nat.

Fixpoint drop (n : nat) (s : string) : string :=
  match n, s with
  | S n', String _ rest => drop n' rest
  | _, _ => s
  end.

Fixpoint reverse_onto (s acc : string) : string :=
  match s with
  | EmptyString => acc
  | String c rest => reverse_onto rest (String c acc)
  end.

Definition reverse (s : string) : string := reverse_onto s EmptyString.

(** What follows the first of the texts [ws] that [s] starts with. *)
Fixpoint after_first (ws : list string) (s : string) : option string :=
  match ws with
  | [] => None
  | w :: rest =>
      if String.prefix w s then Some (drop (String.length w) s)
      else after_first rest s
  end.

(** [s] without the characters [ws] it starts with; [fuel] bounds their
    number. *)
Fixpoint strip (ws : list string) (fuel : nat) (s : string) : string :=
  match fuel with
  | O => s
  | S fuel' =>
      match after_first ws s with
      | Some rest => strip ws fuel' rest
      | None => s
      end
  end.

Definition trimStart (s : string) : string :=
  strip white_space (String.length s) s.

(** The white space at the end is the white space the reversed bytes
    start with, each character reversed. *)
Definition trimEnd (s : string) : string :=
  reverse (strip (List.map reverse white_space) (String.length s) (reverse s)).

Definition trim (s : string) : string := trimEnd (trimStart s).

(** [s.includes(sub)]: [sub] occurs somewhere in [s]. *)
Fixpoint includes (s sub : string) : bool :=
  (String.prefix sub s ||
   match s with
   | EmptyString => false
   | String _ rest => includes rest sub
   end)%bool.

(** Lower-casing of the letters [A] to [Z], which is what [toLowerCase]
    does to a text of ASCII characters. *)
Definition lower_ascii (c : ascii) : ascii :=
  let n := nat_of_ascii c in
  if (Nat.leb 65 n && Nat.leb n 90)%bool then ascii_of_nat (n + 32) else c.

Fixpoint ascii_lower (s : string) : string :=
  match s with
  | EmptyString => EmptyString
  | String c rest => String (lower_ascii c) (ascii_lower rest)
  end.

End Str.

(** ** UTF-16 code units *)

(** A JavaScript string is a sequence of UTF-16 code units: [length],
    [substring] and the default order of [sort] count and compare code
    units. This module reads them off the UTF-8 bytes of a text. *)
Module UTF16.

Definition continuation (b : N) : bool := ((128 <=? b) && (b <? 192))%N.

(** The code points of the UTF-8 text with the bytes [l]; a byte that does
    not start a character is read as U+FFFD. *)
Fixpoint code_points (l : list N) : list N :=
  match l with
  | [] => []
  | b0 :: rest =>
      if (b0 <? 128)%N then b0 :: code_points rest
      else if ((192 <=? b0) && (b0 <? 224))%N then
        match rest with
        | b1 :: rest1 =>
            if continuation b1
            then ((b0 - 192) * 64 + (b1 - 128))%N :: code_points rest1
            else 65533%N :: code_points rest
        | [] => 65533%N :: code_points rest
        end
      else if ((224 <=? b0) && (b0 <? 240))%N then
        match rest with
        | b1 :: b2 :: rest2 =>
            if continuation b1 && continuation b2
            then (((b0 - 224) * 64 + (b1 - 128)) * 64 + (b2 - 128))%N
                   :: code_points rest2
            else 65533%N :: code_points rest
        | _ => 65533%N :: code_points rest
        end
      else if ((240 <=? b0) && (b0 <? 248))%N then
        match rest with
        | b1 :: b2 :: b3 :: rest3 =>
            if continuation b1 && continuation b2 && continuation b3
            then ((((b0 - 240) * 64 + (b1 - 128)) * 64 + (b2 - 128)) * 64
                  + (b3 - 128))%N :: code_points rest3
            else 65533%N :: code_points rest
        | _ => 65533%N :: code_points rest
        end
      else 65533%N :: code_points rest
  end.

(** The code units of a code point: itself, or a surrogate pair. *)
Definition units_of (cp : N) : list N :=
  if (cp <? 65536)%N then [cp]
  else [(55296 + (cp - 65536) / 1024)%N; (56320 + (cp - 65536) mod 1024)%N].

(** The code units of a text. *)
Definition units (s : string) : list N :=
  List.flat_map units_of
    (code_points (List.map N_of_ascii (list_ascii_of_string s))).

(** [s.length] *)
Definition length (s : string) : nat := List.length (units s).

(** [a < b] for sequences of code units: the first difference decides, a
    proper prefix comes first. *)
Fixpoint less (a b : list N) : bool :=
  match a, b with
  | _, [] => false
  | [], _ :: _ => true
  | x :: a', y :: b' =>
      if (x <? y)%N then true
      else if (y <? x)%N then false
      else less a' b'
  end.

End UTF16.

(* ===================================================================== *)
(** * product.js: the data model *)
(* ===================================================================== *)

Record Rating : Type := mkRating {
  rate : float;
  count : Z
}.

(** A product record as the catalog source delivers it and as the
    [Product] constructor copies it, field by field. *)
Record Product : Type := mkProduct {
  id : Z;
  title : string;
  price : float;
  description : string;
  category : string;
  image : string;
  rating : Rating
}.

(** Filter criteria [{search, category}]; [None] is a field that is absent
    ([undefined]), as in the default [filters = {}]. *)
Record Filters : Type := mkFilters {
  search : option string;
  fcategory : option string
}.

(** [ToBoolean] of a string-or-undefined. *)
Definition truthy_text (o : option string) : bool :=
  match o with
  | Some s => ToBoolean (VStr s)
  | None => ToBoolean VUndefined
  end.

(** The string a criterion denotes once it passed a truthiness test. *)
Definition text (o : option string) : string :=
  match o with
  | Some s => s
  | None => ""
  end.

(** [s || ''] *)
Definition or_empty (s : string) : string :=
  if ToBoolean (VStr s) then s else "".

(* ===================================================================== *)
(** * Array.prototype.sort *)
(* ===================================================================== *)

(** [array.sort(comparefn)] is stable, and for a consistent comparator its
    result is determined: the stable sorted arrangement. It is modelled by
    insertion from the right, which is stable. A comparator result that is
    [NaN] counts as [+0], as in [SortCompare]. *)
Module Array.
Section Sort.

Context {A : Type}.
Variable comparefn : A -> A -> float.

(** [comparefn(x, y) > 0]: [x] sorts after [y]. *)
Definition after (x y : A) : bool := (0 <? comparefn x y)%float.

(** Insert [x], which stood before all of [sorted], into [sorted]. *)
Fixpoint insert (x : A) (sorted : list A) : list A :=
  match sorted with
  | [] => [x]
  | y :: rest => if after x y then y :: insert x rest else x :: sorted
  end.

Definition sort (l : list A) : list A := List.fold_right insert [] l.

End Sort.
End Array.

(** [x || 0] for a number [x] *)
Definition or_zero (x : float) : float := if truthy_number x then x else 0%float.

(* ===================================================================== *)
(** * filterService.js *)
(* ===================================================================== *)

Module filterService.

(** [filterBySearch(products, query)] *)
Definition filterBySearch (host : Host) (products : list Product)
    (query : option string) : list Product :=
  if negb (truthy_text query) || String.eqb (Str.trim (text query)) "" then products
  else
    let searchTerm := Str.trim (toLowerCase host (text query)) in
    List.filter (fun product =>
      let title_ := toLowerCase host (or_empty (title product)) in
      let description_ := toLowerCase host (or_empty (description product)) in
      let category_ := toLowerCase host (or_empty (category product)) in
      Str.includes title_ searchTerm ||
      Str.includes description_ searchTerm ||
      Str.includes category_ searchTerm) products.

(** [filterByCategory(products, category)] *)
Definition filterByCategory (products : list Product) (category_ : option string)
    : list Product :=
  if negb (truthy_text category_) || String.eqb (text category_) "all" then products
  else
    List.filter (fun product => String.eqb (category product) (text category_))
      products.

(** [applyFilters(products, filters)] *)
Definition applyFilters (host : Host) (products : list Product)
    (filters : Filters) : list Product :=
  let filtered := products in
  let filtered :=
    if truthy_text (fcategory filters)
    then filterByCategory filtered (fcategory filters) else filtered in
  let filtered :=
    if truthy_text (search filters)
    then filterBySearch host filtered (search filters) else filtered in
  filtered.

(** [sortProducts(products, sortBy)]; [localeCompare] is the host's
    [String.prototype.localeCompare]. *)
Definition sortProducts (localeCompare : string -> string -> float)
    (products : list Product) (sortBy : string) : list Product :=
  let sorted := products in
  if String.eqb sortBy "price-asc" then
    Array.sort (fun a b => price a - price b)%float sorted
  else if String.eqb sortBy "price-desc" then
    Array.sort (fun a b => price b - price a)%float sorted
  else if String.eqb sortBy "name-asc" then
    Array.sort (fun a b => localeCompare (title a) (title b)) sorted
  else if String.eqb sortBy "name-desc" then
    Array.sort (fun a b => localeCompare (title b) (title a)) sorted
  else if String.eqb sortBy "rating" then
    Array.sort (fun a b =>
      let ratingA := or_zero (rate (rating a)) in
      let ratingB := or_zero (rate (rating b)) in
      ratingB - ratingA)%float sorted
  else sorted.

End filterService.

(* ===================================================================== *)
(** * product.js: queries *)
(* ===================================================================== *)

(** [Product.prototype.matchesSearch(query)] *)
Definition matchesSearch (host : Host) (this : Product) (query : option string)
    : bool :=
  if negb (truthy_text query) || String.eqb (Str.trim (text query)) "" then true
  else
    let searchTerm := Str.trim (toLowerCase host (text query)) in
    let titleMatch := Str.includes (toLowerCase host (title this)) searchTerm in
    let descMatch := Str.includes (toLowerCase host (description this)) searchTerm in
    let categoryMatch := Str.includes (toLowerCase host (category this)) searchTerm in
    titleMatch || descMatch || categoryMatch.

(** [Product.prototype.getRating()] *)
Definition getRating (this : Product) : float := or_zero (rate (rating this)).

(** [Product.prototype.isInCategory(category)] *)
Definition isInCategory (this : Product) (category_ : option string) : bool :=
  if negb (truthy_text category_) || String.eqb (text category_) "all" then true
  else String.eqb (category this) (text category_).

Module ProductCollection.

(** [ProductCollection.prototype.applyFilters(filters)], on the collection's
    [products]. *)
Definition applyFilters (host : Host) (products : list Product)
    (filters : Filters) : list Product :=
  let results := products in
  let results :=
    if truthy_text (fcategory filters)
    then List.filter (fun p => isInCategory p (fcategory filters)) results
    else results in
  let results :=
    if truthy_text (search filters)
    then List.filter (fun p => matchesSearch host p (search filters)) results
    else results in
  results.

(** [ProductCollection.prototype.sort(sortBy)] *)
Definition sort (localeCompare : string -> string -> float)
    (products : list Product) (sortBy : string) : list Product :=
  let sorted := products in
  if String.eqb sortBy "price-asc" then
    Array.sort (fun a b => price a - price b)%float sorted
  else if String.eqb sortBy "price-desc" then
    Array.sort (fun a b => price b - price a)%float sorted
  else if String.eqb sortBy "name-asc" then
    Array.sort (fun a b => localeCompare (title a) (title b)) sorted
  else if String.eqb sortBy "name-desc" then
    Array.sort (fun a b => localeCompare (title b) (title a)) sorted
  else if String.eqb sortBy "rating" then
    Array.sort (fun a b => getRating b - getRating a)%float sorted
  else sorted.

End ProductCollection.

(** ** The tests of the two filters *)

(** What [filterByCategory] and [isInCategory] let through. *)
Definition category_test (c : option string) (p : Product) : bool :=
  negb (truthy_text c) || String.eqb (text c) "all" ||
  String.eqb (category p) (text c).

(** What [filterBySearch] and [matchesSearch] let through. *)
Definition search_test (host : Host) (q : option string) (p : Product) : bool :=
  negb (truthy_text q) || String.eqb (Str.trim (text q)) "" ||
  (Str.includes (toLowerCase host (title p)) (Str.trim (toLowerCase host (text q))) ||
   Str.includes (toLowerCase host (description p)) (Str.trim (toLowerCase host (text q))) ||
   Str.includes (toLowerCase host (category p)) (Str.trim (toLowerCase host (text q)))).

(** ** The filter as the specification words it *)

(** [needle] is a substring of [haystack]. *)
Definition occurs_in (needle haystack : string) : Prop :=
  exists before after_, haystack = before ++ needle ++ after_.

(** Case-insensitive substring match: the two texts are compared in the
    lower case the host gives them. *)
Definition occurs_ignoring_case (host : Host) (needle haystack : string) : Prop :=
  occurs_in (toLowerCase host needle) (toLowerCase host haystack).

(** Passes every product when the category is empty or "all", otherwise
    requires exact equality with the product's category. *)
Definition spec_category_pred (wanted : string) (p : Product) : Prop :=
  wanted = "" \/ wanted = "all" \/ category p = wanted.

(** Passes every product when the search is empty or blank, otherwise
    requires the trimmed query to occur, ignoring case, in the title or the
    description or the category. *)
Definition spec_search_pred (host : Host) (query : string) (p : Product) : Prop :=
  Str.trim query = "" \/
  occurs_ignoring_case host (Str.trim query) (title p) \/
  occurs_ignoring_case host (Str.trim query) (description p) \/
  occurs_ignoring_case host (Str.trim query) (category p).

(** [result] holds exactly the elements of [l] that satisfy [P], in the
    order they have in [l]: it is [l] filtered by a test that decides
    [P]. *)
Definition exactly_those {A : Type} (P : A -> Prop) (l result : list A) : Prop :=
  exists keep : A -> bool,
    (forall x, keep x = true <-> P x) /\ result = List.filter keep l.

(** A run of the characters [ws], one after the other. *)
Definition run (ws : list string) (s : string) : Prop :=
  exists parts, Forall (fun w => In w ws) parts /\
                s = List.fold_right String.append "" parts.

Definition starts_with (w s : string) : Prop := exists rest, s = w ++ rest.

Definition ends_with (w s : string) : Prop := exists front, s = front ++ w.

(** [t] is [s] without the white space around it: [s] is [t] between two
    runs of white space, and [t] neither starts nor ends with a white
    space character. *)
Definition trimmed_of (s t : string) : Prop :=
  (exists l r, run Str.white_space l /\ run Str.white_space r /\ s = l ++ t ++ r) /\
  (forall w, In w Str.white_space -> ~ starts_with w t /\ ~ ends_with w t).

(** Trimming and lower-casing commute on the host: white space has no
    case, and no case mapping yields white space. *)
Definition trim_commutes (host : Host) : Prop :=
  forall s, Str.trim (toLowerCase host s) = toLowerCase host (Str.trim s).

(** A text without ASCII letters. *)
Definition is_letter (c : ascii) : bool :=
  let n := nat_of_ascii c in
  ((Nat.leb 65 n && Nat.leb n 90) || (Nat.leb 97 n && Nat.leb n 122))%bool.

Fixpoint no_letter (w : string) : bool :=
  match w with
  | EmptyString => true
  | String c rest => (negb (is_letter c) && no_letter rest)%bool
  end.

(** A host whose case mapping is that of the ASCII letters, and which
    prints a built-in function the way the common engines do;
    [Object.prototype.constructor] is the function [Object]. *)
Definition ascii_host : Host :=
  mkHost Str.ascii_lower
    (fun name =>
       "function " ++ (if String.eqb name "constructor" then "Object" else name)
       ++ "() { [native code] }").

(** ** Prices without ties *)

(** All prices are numbers and no two entries have equal prices. *)
Definition distinct_prices (l : list Product) : Prop :=
  Forall (fun p => PrimFloat.is_nan (price p) = false) l /\
  ForallOrdPairs (fun a b => (price a =? price b)%float = false) l.

(** ** The order of binary64 numbers *)

(** An integer that orders the numbers as IEEE comparison does: a finite
    number [m * 2^e] is a multiple of [2^-1074], the infinities lie beyond
    every finite number. *)
Module IEEE.

Definition ord (x : spec_float) : Z :=
  match x with
  | S754_zero _ => 0
  | S754_nan => 0
  | S754_infinity s => cond_Zopp s (2 ^ 2100)
  | S754_finite s m e => cond_Zopp s (Zpos m * 2 ^ (e + 1074))
  end.

Definition key (x : float) : Z := ord (Prim2SF x).

End IEEE.

(* ===================================================================== *)
(** * JSON built-ins *)
(* ===================================================================== *)


(** [JSON.stringify(value, null, gap)] on the documents the store and the
    export use. *)
Module JSON.

Inductive json : Type :=
| JNull
| JNumber (x : float)
| JString (s : string)
| JArray (items : list json)
| JObject (fields : list (string * json)).

Definition dquote : string := String (ascii_of_nat 34) EmptyString.

Definition hex_digit (n : nat) : ascii :=
  ascii_of_nat (if Nat.ltb n 10 then 48 + n else 87 + n).

(** One character of [QuoteJSONString]. *)
Definition quote_char (c : ascii) : string :=
  let n := nat_of_ascii c in
  if Nat.eqb n 34 then "\" ++ dquote
  else if Nat.eqb n 92 then "\\"
  else if Nat.eqb n 8 then "\b"
  else if Nat.eqb n 12 then "\f"
  else if Nat.eqb n 10 then "\n"
  else if Nat.eqb n 13 then "\r"
  else if Nat.eqb n 9 then "\t"
  else if Nat.ltb n 32 then
    "\u00" ++ String (hex_digit (n / 16)) (String (hex_digit (n mod 16)) "")
  else String c "".

Fixpoint quote_body (s : string) : string :=
  match s with
  | EmptyString => EmptyString
  | String c rest => quote_char c ++ quote_body rest
  end.

(** [QuoteJSONString(s)] *)
Definition quote (s : string) : string := dquote ++ quote_body s ++ dquote.

Fixpoint join (sep : string) (parts : list string) : string :=
  match parts with
  | [] => ""
  | [p] => p
  | p :: rest => p ++ sep ++ join sep rest
  end.

Definition newline : string := String (ascii_of_nat 10) "".

(** Wrap the serialized members of an array or an object. *)
Definition wrap (open close gap stepback indent : string) (parts : list string)
    : string :=
  match parts with
  | [] => open ++ close
  | _ =>
      if String.eqb gap "" then open ++ join "," parts ++ close
      else open ++ newline ++ indent ++ join ("," ++ newline ++ indent) parts
             ++ newline ++ stepback ++ close
  end.

(** [SerializeJSONProperty] with the current indentation [indent]. *)
Fixpoint serialize (gap indent : string) (j : json) : string :=
  match j with
  | JNull => "null"
  | JNumber x => if PrimFloat.is_finite x then NumberToString.toString x else "null"
  | JString s => quote s
  | JArray items =>
      wrap "[" "]" gap indent (indent ++ gap)
        (List.map (serialize gap (indent ++ gap)) items)
  | JObject fields =>
      wrap "{" "}" gap indent (indent ++ gap)
        (List.map (fun kv =>
           quote (fst kv) ++ ":" ++ (if String.eqb gap "" then "" else " ")
             ++ serialize gap (indent ++ gap) (snd kv)) fields)
  end.

Fixpoint spaces (n : nat) : string :=
  match n with
  | O => EmptyString
  | S k => String " " (spaces k)
  end.

(** [JSON.stringify(j, null, space)] for a number of spaces [space <= 10] *)
Definition stringify (j : json) (space : nat) : string :=
  serialize (spaces (Nat.min space 10)) "" j.

End JSON.

(* ===================================================================== *)
(** * storage.js *)
(* ===================================================================== *)

(** The result of a call that may end in an exception. *)
Inductive outcome (A : Type) : Type :=
| Returns (a : A)
| Throws (error : string).
Arguments Returns {A} a.
Arguments Throws {A} error.

(** What [JSON.parse] makes of the text held under a key. The application
    writes strings (currency code, time stamp) and arrays of product
    records; [DCorrupt] is a text that [JSON.parse] rejects. A product
    record reads back as it was written when it is [JSON_stable], which
    the records of the ledger are taken to be. *)
Inductive document : Type :=
| DString (s : string)
| DProducts (l : list Product)
| DCorrupt.

(** A number that [JSON.parse(JSON.stringify(x))] gives back: [NaN] and
    the infinities are written as [null], and the negative zero as 0. *)
Definition JSON_stable_number (x : float) : bool :=
  PrimFloat.is_finite x && negb (PrimFloat.is_zero x && PrimFloat.get_sign x).

(** A product record that reads back from the store as it was written. *)
Definition JSON_stable (p : Product) : bool :=
  JSON_stable_number (price p) && JSON_stable_number (rate (rating p)).

(** [localStorage]: the texts by key; whether [setItem] has room for a
    write or throws (quota exceeded); and whether the storage area can be
    reached at all: where the user agent denies access, every use of
    [localStorage] throws. *)
Record Storage : Type := Build_Storage {
  cells : gmap string document;
  has_room : bool;
  reachable : bool
}.

(** [setItem] accepts a write. *)
Definition writable (st : Storage) : bool := reachable st && has_room st.

(** A store that can be reached. *)
Definition mkStorage (cells_ : gmap string document) (has_room_ : bool) : Storage :=
  Build_Storage cells_ has_room_ true.

Module STORAGE_KEYS.
Definition CURRENCY : string := "globalInventory_currency".
Definition QUOTE_LIST : string := "globalInventory_quoteList".
Definition LAST_UPDATE : string := "globalInventory_lastUpdate".
End STORAGE_KEYS.

(** [saveToStorage(key, value)]: the success flag and the store after. *)
Definition saveToStorage (key : string) (value : document) (st : Storage)
    : bool * Storage :=
  if writable st
  then (true, Build_Storage (<[key := value]> (cells st)) (has_room st) (reachable st))
  else (false, st).

(** [loadFromStorage(key, defaultValue)]: the default for a missing key
    and from the [catch], which a text that does not parse and a store
    that cannot be reached lead to. *)
Definition loadFromStorage (key : string) (defaultValue : document)
    (st : Storage) : document :=
  if reachable st then
    match cells st !! key with
    | None => defaultValue
    | Some DCorrupt => defaultValue
    | Some serialized => serialized
    end
  else defaultValue.

(** [saveQuoteList(quoteList)]; [now] is [new Date().toISOString()]. *)
Definition saveQuoteList (now : string) (quoteList : list Product)
    (st : Storage) : bool * Storage :=
  let (success, st1) := saveToStorage STORAGE_KEYS.QUOTE_LIST (DProducts quoteList) st in
  if success then
    let (_, st2) := saveToStorage STORAGE_KEYS.LAST_UPDATE (DString now) st1 in
    (success, st2)
  else (success, st1).

(** [loadQuoteList()] *)
Definition loadQuoteList (st : Storage) : document :=
  loadFromStorage STORAGE_KEYS.QUOTE_LIST (DProducts []) st.

(** [addToQuote(product)]: the returned list and the store after. What was
    loaded is an array unless another writer left a string under the key,
    on which [some] is not a function. *)
Definition addToQuote (now : string) (product : Product) (st : Storage)
    : outcome (list Product * Storage) :=
  match loadQuoteList st with
  | DProducts quoteList =>
      let exists_ := List.existsb (fun item => id item =? id product) quoteList in
      if negb exists_ then
        let quoteList' := (quoteList ++ [product])%list in
        let (_, st') := saveQuoteList now quoteList' st in
        Returns (quoteList', st')
      else Returns (quoteList, st)
  | _ => Throws "TypeError: quoteList.some is not a function"
  end.

(** [removeFromQuote(productId)] *)
Definition removeFromQuote (now : string) (productId : Z) (st : Storage)
    : outcome (list Product * Storage) :=
  match loadQuoteList st with
  | DProducts quoteList =>
      let updatedList := List.filter (fun item => negb (id item =? productId)) quoteList in
      let (_, st') := saveQuoteList now updatedList st in
      Returns (updatedList, st')
  | _ => Throws "TypeError: quoteList.filter is not a function"
  end.

(** [clearQuote()] *)
Definition clearQuote (now : string) (st : Storage) : bool * Storage :=
  saveQuoteList now [] st.

(** [isInQuote(productId)] *)
Definition isInQuote (productId : Z) (st : Storage) : outcome bool :=
  match loadQuoteList st with
  | DProducts quoteList =>
      Returns (List.existsb (fun item => id item =? productId) quoteList)
  | _ => Throws "TypeError: quoteList.some is not a function"
  end.

(** ** Export *)

Import JSON.

(** The integer [z] as a JavaScript number. *)
Definition number_of_Z (z : Z) : float := SF2Prim (binary_normalize prec emax z 0 false).

(** A product record as a JSON object, keys in the order the catalog
    source and [Product.prototype.toJSON] give them. *)
Definition product_json (p : Product) : json :=
  JObject [("id", JNumber (number_of_Z (id p)));
           ("title", JString (title p));
           ("price", JNumber (price p));
           ("description", JString (description p));
           ("category", JString (category p));
           ("image", JString (image p));
           ("rating", JObject [("rate", JNumber (rate (rating p)));
                               ("count", JNumber (number_of_Z (count (rating p))))])].

Definition document_json (d : document) : json :=
  match d with
  | DString s => JString s
  | DProducts l => JArray (List.map product_json l)
  | DCorrupt => JNull
  end.

(** [exchangeRates[currency] || 1] *)
Definition rate_or_one (exchangeRates : rates) (currency : string)
    : Object.property float :=
  Object.get_or truthy_number exchangeRates currency 1%float.

(** The member [exchangeRate] as [JSON.stringify] writes it: a number as
    a number; a function has no JSON text and its member is left out;
    [Object.prototype], which [__proto__] yields, has no enumerable
    property and is written as the empty object. *)
Definition exchangeRate_member (v : Object.property float) : list (string * json) :=
  match v with
  | Object.Value r => [("exchangeRate", JNumber r)]
  | Object.Native name =>
      if String.eqb name "__proto__" then [("exchangeRate", JObject [])] else []
  | Object.Undefined => []
  end.

(** The object [exportData] that [exportQuoteData] builds, as
    [JSON.stringify] sees it. *)
Definition exportData (currency : string) (exchangeRates : rates)
    (now : string) (st : Storage) : json :=
  let quoteList := loadQuoteList st in
  JObject ([("currency", JString currency);
            ("timestamp", JString now);
            ("items", document_json quoteList)]
           ++ exchangeRate_member (rate_or_one exchangeRates currency))%list.

(** [exportQuoteData(currency, exchangeRates)] *)
Definition exportQuoteData (currency : string) (exchangeRates : rates)
    (now : string) (st : Storage) : string :=
  JSON.stringify (exportData currency exchangeRates now st) 2.

(** The object the specification describes: [exchangeRate] is the table's
    entry for the currency, or 1 if the table has none. *)
Definition spec_exportData (currency : string) (exchangeRates : rates)
    (now : string) (st : Storage) : json :=
  JObject [("currency", JString currency);
           ("timestamp", JString now);
           ("items", document_json (loadQuoteList st));
           ("exchangeRate", JNumber (match exchangeRates !! currency with
                                     | Some r => r
                                     | None => 1%float
                                     end))].

(** ** The ledger invariant *)

(** The entries of the ledger have pairwise distinct ids. *)
Definition unique_ids (l : list Product) : Prop := NoDup (List.map id l).

(** The number of entries whose id is [i]. *)
Definition count_id (i : Z) (l : list Product) : nat :=
  List.length (List.filter (fun item => id item =? i) l).

(* ===================================================================== *)
(** * Sample data *)
(* ===================================================================== *)

Definition demo_phone : Product :=
  mkProduct 1 "Smart Phone" 299.99 "A phone with a large screen" "electronics"
    "https://example.test/img/1.png" (mkRating 4.5 120).

Definition demo_shirt : Product :=
  mkProduct 2 "Cotton Shirt" 19.5 "Plain shirt, slim fit" "men's clothing"
    "https://example.test/img/2.png" (mkRating 3.9 70).

Definition demo_ring : Product :=
  mkProduct 3 "Gold Ring" 695 "Ring with a PHONE-shaped charm" "jewelery"
    "https://example.test/img/3.png" (mkRating 4.6 400).

(** A store that holds nothing yet. *)
Definition empty_store : Storage := mkStorage ∅ true.

(** A store whose ledger holds one product. *)
Definition demo_store : Storage :=
  mkStorage (<[STORAGE_KEYS.QUOTE_LIST := DProducts [demo_phone]]> ∅) true.

(** [getFallbackRates()] of [apiService.js] *)
Definition fallback_rates : rates :=
  list_to_map [("USD", 1%float); ("EUR", 0.92%float); ("GBP", 0.79%float);
               ("JPY", 149.50%float); ("MXN", 17.20%float)].

(** A table in which EUR is present with the rate 0. *)
Definition zero_rate_table : rates := <["EUR" := 0%float]> ∅.

(** Lines of text, and one indented member line of a JSON object. *)
Definition lines (l : list string) : string := JSON.join JSON.newline l.

Definition member (key rendered : string) : string :=
  "  " ++ JSON.quote key ++ ": " ++ rendered.

Definition demo_catalog : list Product := [demo_phone; demo_shirt; demo_ring].

(** A comparison of titles byte by byte, standing in for the host's
    collation where a run needs one. *)
Definition demo_localeCompare (a b : string) : float :=
  match String.compare a b with
  | Eq => 0%float
  | Lt => (-1)%float
  | Gt => 1%float
  end.

(** A product of a given category. *)
Definition emoji_product (category_ : string) : Product :=
  mkProduct 9 "Sticker" 1.5 "A sticker" category_
    "https://example.test/img/9.png" (mkRating 4 1).

(** ** Vocabulary of the order proofs *)

Module IEEE_sign.

Definition not_nan (x : spec_float) : Prop := x <> S754_nan.

Definition negative (x : spec_float) : Prop :=
  match x with
  | S754_finite true _ _ | S754_infinity true => True
  | _ => False
  end.

Definition positive_number (x : spec_float) : Prop :=
  match x with
  | S754_finite false _ _ | S754_infinity false => True
  | _ => False
  end.

(** The sign of a non-zero number: [s] is set for a negative one. *)
Definition signed (s : bool) (x : spec_float) : Prop :=
  if s then negative x else positive_number x.

End IEEE_sign.

(** The comparator [comparefn] orders [x] and [y] as their keys [k], which
    differ. *)
Definition by_key {A : Type} (comparefn : A -> A -> float) (k : A -> Z)
    (x y : A) : Prop :=
  k x <> k y /\ Array.after comparefn x y = (k y <? k x).

Definition price_key (p : Product) : Z := IEEE.key (price p).

(** Closes a goal [Some c = Some (a ?= b)] by arithmetic. *)
Ltac by_order :=
  f_equal; symmetry;
  first [ apply Z.compare_eq_iff; lia
        | apply Z.compare_lt_iff; lia
        | apply Z.compare_gt_iff; lia ].


(* ===================================================================== *)
(** * storage.js: preferences and bookkeeping *)
(* ===================================================================== *)

(** [removeFromStorage(key)]. [removeItem] frees space, so a full store
    does not reject it; it throws only where the store cannot be reached. *)
Definition removeFromStorage (key : string) (st : Storage) : bool * Storage :=
  if reachable st
  then (true, Build_Storage (delete key (cells st)) (has_room st) (reachable st))
  else (false, st).

(** [Object.values(STORAGE_KEYS)], in declaration order *)
Definition STORAGE_KEYS_values : list string :=
  [STORAGE_KEYS.CURRENCY; STORAGE_KEYS.QUOTE_LIST; STORAGE_KEYS.LAST_UPDATE].

(** [clearAllStorage()]: the first [removeItem] throws where the store
    cannot be reached, and the [catch] returns [false]. *)
Definition clearAllStorage (st : Storage) : bool * Storage :=
  if reachable st
  then (true,
        List.fold_left
          (fun s key => Build_Storage (delete key (cells s)) (has_room s) (reachable s))
          STORAGE_KEYS_values st)
  else (false, st).

(** [saveCurrency(currency)] *)
Definition saveCurrency (currency : string) (st : Storage) : bool * Storage :=
  saveToStorage STORAGE_KEYS.CURRENCY (DString currency) st.

(** [loadCurrency()] *)
Definition loadCurrency (st : Storage) : document :=
  loadFromStorage STORAGE_KEYS.CURRENCY (DString "USD") st.

(** [loadFromStorage(key)] with the default [defaultValue = null];
    [None] is [null]. *)
Definition loadFromStorage_null (key : string) (st : Storage) : option document :=
  if reachable st then
    match cells st !! key with
    | None => None
    | Some DCorrupt => None
    | Some serialized => Some serialized
    end
  else None.

(** [getLastUpdate()] *)
Definition getLastUpdate (st : Storage) : option document :=
  loadFromStorage_null STORAGE_KEYS.LAST_UPDATE st.

(** [getQuoteCount()]: [quoteList.length], which a string has too. *)
Definition getQuoteCount (st : Storage) : nat :=
  match loadQuoteList st with
  | DProducts quoteList => List.length quoteList
  | DString s => UTF16.length s
  | DCorrupt => 0%nat
  end.

(** [isStorageAvailable()]: writes and removes a probe entry. *)
Definition isStorageAvailable (st : Storage) : bool * Storage :=
  let test := "__storage_test__" in
  if writable st
  then (true, Build_Storage (delete test (<[test := DCorrupt]> (cells st)))
                (has_room st) (reachable st))
  else (false, st).

(** The object [getStorageInfo()] returns. *)
Record StorageInfo : Type := mkStorageInfo {
  available : bool;
  info_currency : document;
  quoteCount : nat;
  lastUpdate : option document
}.

(** [getStorageInfo()] *)
Definition getStorageInfo (st : Storage) : StorageInfo * Storage :=
  let (avail, st1) := isStorageAvailable st in
  (mkStorageInfo avail (loadCurrency st1) (getQuoteCount st1) (getLastUpdate st1), st1).

(** Nothing is stored under the key, or a text that does not parse, or
    the store cannot be reached. *)
Definition unreadable (key : string) (st : Storage) : Prop :=
  cells st !! key = None \/ cells st !! key = Some DCorrupt \/ reachable st = false.

(* ===================================================================== *)
(** * filterService.js and product.js: further queries *)
(* ===================================================================== *)

(** [[...new Set(values)]]: the values in order of first occurrence;
    [seen] holds those met so far. *)
Fixpoint Set_values (seen values : list string) : list string :=
  match values with
  | [] => []
  | v :: rest =>
      if List.existsb (String.eqb v) seen then Set_values seen rest
      else v :: Set_values (v :: seen) rest
  end.

(** The comparison [sort()] uses when it is given no comparator: strings
    by their UTF-16 code units, [-1], [1] or [0]. *)
Definition default_compare (x y : string) : float :=
  if UTF16.less (UTF16.units x) (UTF16.units y) then (-1)%float
  else if UTF16.less (UTF16.units y) (UTF16.units x) then 1%float
  else 0%float.

(** [extractCategories(products)] *)
Definition extractCategories (products : list Product) : list string :=
  if Nat.eqb (List.length products) 0 then []
  else
    let categories := List.map category products in
    let uniqueCategories := Set_values [] categories in
    Array.sort default_compare
      (List.filter (fun c => ToBoolean (VStr c)) uniqueCategories).

(** [s || fallback] for strings *)
Definition or_else (s fallback : string) : string :=
  if ToBoolean (VStr s) then s else fallback.

(** An entry of [counts]: a count, or the text that [+ 1] makes of a
    built-in function: the text of the function [Object.prototype[name]]
    followed by [ones] digits 1. *)
Inductive tally : Type :=
| Count (n : nat)
| Text (name : string) (ones : nat).

(** [counts[category] = (counts[category] || 0) + 1]. A count is
    incremented and a text gets one more digit 1. Where the object has no
    own entry and [category] names a function of [Object.prototype], the
    sum is the text of the function followed by 1, and the assignment
    gives [counts] an entry of its own; for [__proto__] the sum is a text
    too, which the setter of [__proto__] ignores. *)
Definition count_up (counts : gmap string tally) (key : string) : gmap string tally :=
  match counts !! key with
  | Some (Count n) => <[key := Count ((if Nat.eqb n 0 then 0 else n) + 1)%nat]> counts
  | Some (Text name ones) => <[key := Text name (ones + 1)%nat]> counts
  | None =>
      if Object.inherits key then
        if String.eqb key "__proto__" then counts
        else <[key := Text key 1%nat]> counts
      else <[key := Count (0 + 1)%nat]> counts
  end.

(** [getCategoryCounts(products)] *)
Definition getCategoryCounts (products : list Product) : gmap string tally :=
  List.fold_left
    (fun counts product =>
       let category_ := or_else (category product) "uncategorized" in
       count_up counts category_)
    products ∅.

(** [filterByPriceRange(products, minPrice, maxPrice)]; [a >= b] is
    [b <=? a], false as soon as one side is [NaN]. *)
Definition filterByPriceRange (products : list Product) (minPrice maxPrice : float)
    : list Product :=
  List.filter (fun product =>
    let price_ := or_zero (price product) in
    (minPrice <=? price_)%float && (price_ <=? maxPrice)%float) products.

(** The defaults [minPrice = 0] and [maxPrice = Infinity]. *)
Definition filterByPriceRange_default (products : list Product) : list Product :=
  filterByPriceRange products 0%float infinity.

(** [filterByRating(products, minRating)] *)
Definition filterByRating (products : list Product) (minRating : float)
    : list Product :=
  List.filter (fun product =>
    let rating_ := or_zero (rate (rating product)) in
    (minRating <=? rating_)%float) products.

(** [text.length <= maxLength ? text : text.substring(0, maxLength) + '...'],
    for an integer [maxLength]. The result is given by its code units,
    since a cut can fall between the two halves of a surrogate pair;
    [substring] clamps a negative end to 0. *)
Definition truncated (text_ : string) (maxLength : Z) : list N :=
  if Z.of_nat (UTF16.length text_) <=? maxLength then UTF16.units text_
  else (List.firstn (Z.to_nat maxLength) (UTF16.units text_) ++ UTF16.units "...")%list.

(** [Product.prototype.getFormattedTitle(maxLength)] *)
Definition getFormattedTitle (this : Product) (maxLength : Z) : list N :=
  truncated (title this) maxLength.

(** [Product.prototype.getFormattedDescription(maxLength)] *)
Definition getFormattedDescription (this : Product) (maxLength : Z) : list N :=
  truncated (description this) maxLength.

(** [Product.prototype.getReviewCount()] *)
Definition getReviewCount (this : Product) : Z :=
  if count (rating this) =? 0 then 0 else count (rating this).

(** Further methods of [ProductCollection], on its [products]. *)
Module Collection.

(** [getAll()] *)
Definition getAll (products : list Product) : list Product := products.

(** [getById(id)]: the first product of that id, [None] for [null]. *)
Definition getById (products : list Product) (wanted : Z) : option Product :=
  List.find (fun p => id p =? wanted) products.

(** [filterByCategory(category)] *)
Definition filterByCategory (products : list Product) (category_ : option string)
    : list Product :=
  if negb (truthy_text category_) || String.eqb (text category_) "all" then products
  else List.filter (fun p => isInCategory p category_) products.

(** [search(query)] *)
Definition search_ (host : Host) (products : list Product) (query : option string)
    : list Product :=
  if negb (truthy_text query) || String.eqb (Str.trim (text query)) "" then products
  else List.filter (fun p => matchesSearch host p query) products.

(** [getCategories()] *)
Definition getCategories (products : list Product) : list string :=
  let categories := List.map category products in
  Array.sort default_compare
    (List.filter (fun c => ToBoolean (VStr c)) (Set_values [] categories)).

(** [count()] *)
Definition count_ (products : list Product) : nat := List.length products.

End Collection.

(** ** Vocabulary of the query proofs *)

(** Where [sort] puts [x] relative to [y] agrees with the order [R]. *)
Definition placed_by {A : Type} (comparefn : A -> A -> float)
    (R : A -> A -> Prop) (x y : A) : Prop :=
  if Array.after comparefn x y then R y x else R x y.

(** [a] does not come after [b] in the order of code units. *)
Definition code_unit_le (a b : string) : Prop :=
  UTF16.less (UTF16.units b) (UTF16.units a) = false.

(** The label [getCategoryCounts] files a product under. *)
Definition count_label (p : Product) : string :=
  or_else (category p) "uncategorized".

(** How many products carry the label [c]. *)
Definition labelled (c : string) (products : list Product) : nat :=
  List.length (List.filter (fun p => String.eqb (count_label p) c) products).

(* ===================================================================== *)
(** * currencyLogic.js: totals, rates and tables *)
(* ===================================================================== *)

(** [CURRENCY_NAMES] *)
Definition CURRENCY_NAMES : gmap string string :=
  list_to_map [("USD", "US Dollar"); ("EUR", "Euro"); ("GBP", "British Pound");
               ("JPY", "Japanese Yen"); ("MXN", "Mexican Peso")].

(** [getCurrencyName(currency)] *)
Definition getCurrencyName (currency : string) : Object.property string :=
  lookup_or CURRENCY_NAMES currency currency.

(** [calculateTotal(items, currency, exchangeRates)] *)
Definition calculateTotal (items : list Product) (currency : string)
    (exchangeRates : rates) : float :=
  if Nat.eqb (List.length items) 0 then 0%float
  else
    List.fold_left
      (fun total item =>
         let itemPrice := or_zero (price item) in
         let convertedPrice := convertPrice (VNum itemPrice) currency exchangeRates in
         (total + number_of convertedPrice)%float)
      items 0%float.

(** [getExchangeRate(currency, exchangeRates)] *)
Definition getExchangeRate (currency : string) (exchangeRates : rates)
    : Object.property float :=
  if String.eqb currency "USD" then Object.Value 1%float
  else rate_or_one exchangeRates currency.

(** [roundPrice(price, currency)] *)
Definition roundPrice (price_ : float) (currency : string) : float :=
  if String.eqb currency "JPY" then Math.round price_
  else (Math.round (price_ * 100) / 100)%float.

(** [getSupportedCurrencies()]: [Object.keys(CURRENCY_SYMBOLS)], in the
    order the table is written. *)
Definition getSupportedCurrencies : list string :=
  ["USD"; "EUR"; "GBP"; "JPY"; "MXN"].

(** [isValidCurrency(currency)] *)
Definition isValidCurrency (currency : string) : bool :=
  List.existsb (String.eqb currency) getSupportedCurrencies.

(** ** Vocabulary of the sign proofs *)

(** A zero or a number above zero. *)
Definition nonneg_sf (x : spec_float) : Prop :=
  match x with
  | S754_zero _ | S754_finite false _ _ | S754_infinity false => True
  | _ => False
  end.

(** What rounding a positive mantissa with sign [s] can give. *)
Definition rounded_with_sign (s : bool) (x : spec_float) : Prop :=
  match x with
  | S754_zero s' | S754_finite s' _ _ | S754_infinity s' => s' = s
  | S754_nan => False
  end.

(* ===================================================================== *)
(** * The main module: application state and event handlers *)
(* ===================================================================== *)

(** The handlers update the [state] object and the store and then redraw
    the page. The redrawing ([renderUI], [renderProducts], [renderQuoteList],
    the badge and the toast) reads the state and writes neither the state
    nor the store; it is left out. *)
Module App.

(** The [state] object. [currentCurrency] and [quoteList] hold what
    [loadCurrency] and [loadQuoteList] returned. *)
Record State : Type := mkState {
  productCollection : option (list Product);
  allProducts : list Product;
  filteredProducts : list Product;
  exchangeRates : rates;
  currentCurrency : document;
  filters : Filters;
  quoteList : document
}.

(** The [state] the module starts with. *)
Definition state : State :=
  mkState None [] [] ∅ (DString "USD") (mkFilters (Some "") (Some "all")) (DProducts []).

(** [init()]; [productsData] is what [fetchProducts()] resolved to or the
    error it rejected with, [rates_] what [fetchExchangeRates()] resolved
    to. The flag tells whether [setupEventListeners] was reached. *)
Definition init (productsData : outcome (list Product)) (rates_ : rates)
    (s : State) (st : Storage) : State * bool :=
  let s1 := mkState (productCollection s) (allProducts s) (filteredProducts s)
              (exchangeRates s) (loadCurrency st) (filters s) (loadQuoteList st) in
  match productsData with
  | Returns data =>
      let products := data in
      (mkState (Some products) products products rates_
         (currentCurrency s1) (filters s1) (quoteList s1), true)
  | Throws _ => (s1, false)
  end.

(** [applyFiltersAndRender()] *)
Definition applyFiltersAndRender (host : Host) (s : State) : State :=
  mkState (productCollection s) (allProducts s)
    (filterService.applyFilters host (allProducts s) (filters s))
    (exchangeRates s) (currentCurrency s) (filters s) (quoteList s).

(** [handleCurrencyChange(event)]; [value] is [event.target.value]. *)
Definition handleCurrencyChange (value : string) (s : State) (st : Storage)
    : State * Storage :=
  let s' := mkState (productCollection s) (allProducts s) (filteredProducts s)
              (exchangeRates s) (DString value) (filters s) (quoteList s) in
  (s', snd (saveCurrency value st)).

(** [handleSearchInput(event)] *)
Definition handleSearchInput (host : Host) (value : string) (s : State) : State :=
  let s' := mkState (productCollection s) (allProducts s) (filteredProducts s)
              (exchangeRates s) (currentCurrency s)
              (mkFilters (Some value) (fcategory (filters s))) (quoteList s) in
  applyFiltersAndRender host s'.

(** [handleCategoryClick(category)] *)
Definition handleCategoryClick (host : Host) (category_ : string) (s : State) : State :=
  let s' := mkState (productCollection s) (allProducts s) (filteredProducts s)
              (exchangeRates s) (currentCurrency s)
              (mkFilters (search (filters s)) (Some category_)) (quoteList s) in
  applyFiltersAndRender host s'.

Definition with_quoteList (updatedList : list Product) (s : State) : State :=
  mkState (productCollection s) (allProducts s) (filteredProducts s)
    (exchangeRates s) (currentCurrency s) (filters s) (DProducts updatedList).

(** [handleAddToQuote(product)] *)
Definition handleAddToQuote (now : string) (product : Product) (s : State)
    (st : Storage) : outcome (State * Storage) :=
  match addToQuote now product st with
  | Returns (updatedList, st') => Returns (with_quoteList updatedList s, st')
  | Throws e => Throws e
  end.

(** [handleRemoveFromQuote(productId)] *)
Definition handleRemoveFromQuote (now : string) (productId : Z) (s : State)
    (st : Storage) : outcome (State * Storage) :=
  match removeFromQuote now productId st with
  | Returns (updatedList, st') => Returns (with_quoteList updatedList s, st')
  | Throws e => Throws e
  end.

(** [handleClearQuote()]; [confirmed] is the answer to the [confirm]
    dialog. *)
Definition handleClearQuote (now : string) (confirmed : bool) (s : State)
    (st : Storage) : State * Storage :=
  if confirmed then (with_quoteList [] s, snd (clearQuote now st))
  else (s, st).

(** What the user does on the page; the events that write the ledger carry
    the time at which they happen. *)
Inductive Event : Type :=
| CurrencyChange (value : string)
| SearchInput (value : string)
| CategoryClick (category_ : string)
| AddToQuoteClick (now : string) (product : Product)
| RemoveFromQuoteClick (now : string) (productId : Z)
| ClearQuoteClick (now : string) (confirmed : bool).

(** The product an event puts into the ledger reads back as written. *)
Definition stable_event (ev : Event) : bool :=
  match ev with
  | AddToQuoteClick _ product => JSON_stable product
  | _ => true
  end.

(** The handler the listeners installed by [setupEventListeners] and by the
    renderer run for an event. *)
Definition handle (host : Host) (ev : Event) (s : State) (st : Storage)
    : outcome (State * Storage) :=
  match ev with
  | CurrencyChange value => Returns (handleCurrencyChange value s st)
  | SearchInput value => Returns (handleSearchInput host value s, st)
  | CategoryClick category_ => Returns (handleCategoryClick host category_ s, st)
  | AddToQuoteClick now product => handleAddToQuote now product s st
  | RemoveFromQuoteClick now productId => handleRemoveFromQuote now productId s st
  | ClearQuoteClick now confirmed => Returns (handleClearQuote now confirmed s st)
  end.

(** The events of a session, one after the other. A handler that throws
    ends only its own event: the state and the store stay as they were
    when the exception was raised. *)
Fixpoint session (host : Host) (events : list Event) (s : State) (st : Storage)
    : State * Storage :=
  match events with
  | [] => (s, st)
  | ev :: rest =>
      match handle host ev s st with
      | Returns (s', st') => session host rest s' st'
      | Throws _ => session host rest s st
      end
  end.

(** The state shows what the store holds. *)
Definition in_sync (host : Host) (s : State) (st : Storage) : Prop :=
  currentCurrency s = loadCurrency st /\
  quoteList s = loadQuoteList st /\
  filteredProducts s = filterService.applyFilters host (allProducts s) (filters s).

End App.

(* ===================================================================== *)
(** * apiService.js: retries *)
(* ===================================================================== *)

(** What [retryAPICall] leaves behind: the value it resolves to or the
    error it rejects with ([None] is [undefined], the initial [lastError]),
    the number of times [apiFn] was called, and the waits handed to
    [setTimeout], in milliseconds and in order. *)
Record Retried (A : Type) : Type := mkRetried {
  settled : A + option string;
  attempts : nat;
  waits : list Z
}.
Arguments mkRetried {A} settled attempts waits.
Arguments settled {A} r.
Arguments attempts {A} r.
Arguments waits {A} r.

(** The loop of [retryAPICall] from index [i] on, with [remaining]
    iterations to go; [apiFn i] is what the call made in iteration [i]
    settles to. *)
Fixpoint retry_loop {A : Type} (apiFn : nat -> outcome A) (maxRetries : nat)
    (remaining i : nat) (lastError : option string) (slept : list Z) : Retried A :=
  match remaining with
  | O => mkRetried (inr lastError) i slept
  | S remaining' =>
      match apiFn i with
      | Returns a => mkRetried (inl a) (S i) slept
      | Throws error =>
          let slept' :=
            if (i <? maxRetries - 1)%nat
            then (slept ++ [2 ^ Z.of_nat i * 1000])%list else slept in
          retry_loop apiFn maxRetries remaining' (S i) (Some error) slept'
      end
  end.

(** [retryAPICall(apiFn, maxRetries)] *)
Definition retryAPICall {A : Type} (apiFn : nat -> outcome A) (maxRetries : nat)
    : Retried A :=
  retry_loop apiFn maxRetries maxRetries 0 None [].

(** [retryAPICall(apiFn)], with the default [maxRetries = 3] *)
Definition retryAPICall_default {A : Type} (apiFn : nat -> outcome A) : Retried A :=
  retryAPICall apiFn 3.

(** The waits before attempts [1 .. k]: 1 s, 2 s, 4 s, ... *)
Definition backoff (k : nat) : list Z :=
  List.map (fun i => 2 ^ Z.of_nat i * 1000) (List.seq 0 k).

Definition total_wait (l : list Z) : Z := List.fold_right Z.add 0 l.

(* ===================================================================== *)
(** * filterService.js: debounce *)
(* ===================================================================== *)

Module Debounce.
Section Debounce.

(** The arguments the debounced function is called with. *)
Context {A : Type}.

(** The host's timers that are still to fire, each with its id, the time
    at which it is due and the arguments its [later] closure captured, in
    the order they were set; the next id [setTimeout] hands out; the
    closure variable [timeout]; and the calls of [func] made so far, each
    with the time it was made at. *)
Record World : Type := mkWorld {
  timers : list (nat * (Z * A));
  next_id : nat;
  timeout : option nat;
  calls : list (Z * A)
}.

(** Before [debounce(func, wait)] has been called: no timer, [timeout]
    undefined. *)
Definition idle : World := mkWorld [] 1 None [].

(** [clearTimeout(id)]; clearing [undefined] or an id that has fired does
    nothing. *)
Definition clearTimeout (id : option nat) (w : World) : World :=
  match id with
  | None => w
  | Some i =>
      mkWorld (List.filter (fun t => negb (Nat.eqb (fst t) i)) (timers w))
        (next_id w) (timeout w) (calls w)
  end.

(** [setTimeout(later, wait)] at time [now]: the id and the world after. *)
Definition setTimeout (args : A) (wait now : Z) (w : World) : nat * World :=
  (next_id w,
   mkWorld (timers w ++ [(next_id w, (now + wait, args))])%list
     (S (next_id w)) (timeout w) (calls w)).

(** The closure [later], run at time [now]. *)
Definition later (args : A) (now : Z) (w : World) : World :=
  let w1 := clearTimeout (timeout w) w in
  mkWorld (timers w1) (next_id w1) (timeout w1) (calls w1 ++ [(now, args)])%list.

(** [executedFunction(...args)], called at time [now]. *)
Definition executedFunction (wait : Z) (args : A) (now : Z) (w : World) : World :=
  let w1 := clearTimeout (timeout w) w in
  let (id, w2) := setTimeout args wait now w1 in
  mkWorld (timers w2) (next_id w2) (Some id) (calls w2).

(** The timer the host fires next: the one due first, the older one of
    two that are due together. *)
Fixpoint earliest (l : list (nat * (Z * A))) : option (nat * (Z * A)) :=
  match l with
  | [] => None
  | x :: rest =>
      match earliest rest with
      | Some y => if fst (snd y) <? fst (snd x) then Some y else Some x
      | None => Some x
      end
  end.

(** The host fires the timers due by time [t], one after the other; a
    timer that fires is gone. [fuel] bounds the number of timers fired. *)
Fixpoint run_until (fuel : nat) (t : Z) (w : World) : World :=
  match fuel with
  | O => w
  | S fuel' =>
      match earliest (timers w) with
      | Some (i, (due, args)) =>
          if due <=? t then
            let w1 := mkWorld (List.filter (fun x => negb (Nat.eqb (fst x) i)) (timers w))
                        (next_id w) (timeout w) (calls w) in
            run_until fuel' t (later args due w1)
          else w
      | None => w
      end
  end.

(** Time passes until [t]: [later] sets no timer, so there are at most as
    many firings as timers. *)
Definition advance (t : Z) (w : World) : World :=
  run_until (List.length (timers w)) t w.

(** The debounced function is called with [args] at time [t], for each
    [(t, args)] of [inputs] in turn; timers due by then fire first. *)
Fixpoint play (wait : Z) (inputs : list (Z * A)) (w : World) : World :=
  match inputs with
  | [] => w
  | (t, args) :: rest => play wait rest (executedFunction wait args t (advance t w))
  end.

(** The calls of [func] made by time [finish], when the function returned
    by [debounce(func, wait)] is called as [inputs] says. *)
Definition debounce (wait : Z) (inputs : list (Z * A)) (finish : Z) : list (Z * A) :=
  calls (advance finish (play wait inputs idle)).

(** The calls that are followed by a pause of at least [wait]. *)
Fixpoint pauses (wait : Z) (inputs : list (Z * A)) (finish : Z) : list (Z * A) :=
  match inputs with
  | [] => []
  | (t, args) :: rest =>
      let next := match rest with [] => finish | (t', _) :: _ => t' end in
      ((if t + wait <=? next then [(t + wait, args)] else []) ++
       pauses wait rest finish)%list
  end.

(** Every call comes less than [wait] after the one before. *)
Fixpoint burst (wait : Z) (t : Z) (rest : list (Z * A)) : Prop :=
  match rest with
  | [] => True
  | (t', _) :: rest' => t' < t + wait /\ burst wait t' rest'
  end.

(** ** Vocabulary of the debounce proofs *)

(** At most one timer is pending, and [timeout] names it. *)
Definition tidy (w : World) : Prop :=
  timers w = [] \/
  exists i due args, timers w = [(i, (due, args))] /\ timeout w = Some i.

(** The call a pending timer makes if it is due by [next]. *)
Definition due_by (next : Z) (l : list (nat * (Z * A))) : list (Z * A) :=
  match l with
  | [(_, (due, args))] => if due <=? next then [(due, args)] else []
  | _ => []
  end.

(** The time of the next call of the debounced function. *)
Definition next_input (inputs : list (Z * A)) (finish : Z) : Z :=
  match inputs with
  | [] => finish
  | (t, _) :: _ => t
  end.

End Debounce.
End Debounce.

(* ===================================================================== *)
(** * inventoryRenderer.js: the star bar *)
(* ===================================================================== *)

(** [Math.floor(x)]: the greatest integer not above [x]; a zero, an
    infinity and [NaN] are returned as they are. *)
Definition Math_floor (x : float) : float :=
  match Prim2SF x with
  | S754_finite s m e =>
      if 0 <=? e then x
      else
        let n := cond_Zopp s (Zpos m) / 2 ^ (- e) in
        if n =? 0 then zero
        else SF2Prim (binary_normalize prec emax n 0 false)
  | _ => x
  end.

(** [x % 1]: what is left of [x] once its integer part is taken away, with
    the sign of [x]; [NaN] for an infinity and for [NaN]. *)
Definition remainder_1 (x : float) : float :=
  match Prim2SF x with
  | S754_nan | S754_infinity _ => nan
  | S754_zero _ => x
  | S754_finite s m e =>
      let r := if 0 <=? e then 0 else Zpos m mod 2 ^ (- e) in
      if r =? 0 then (if s then neg_zero else zero)
      else SF2Prim (binary_normalize prec emax (cond_Zopp s r) e false)
  end.

(** The result of [ToIntegerOrInfinity]. *)
Inductive integer_or_infinity : Type :=
| Integer (n : Z)
| PlusInfinity
| MinusInfinity.

(** [ToIntegerOrInfinity(x)]: [x] without its fraction digits, 0 for
    [NaN]. *)
Definition ToIntegerOrInfinity (x : float) : integer_or_infinity :=
  match Prim2SF x with
  | S754_nan | S754_zero _ => Integer 0
  | S754_infinity s => if s then MinusInfinity else PlusInfinity
  | S754_finite s m e =>
      Integer (cond_Zopp s (if 0 <=? e then Zpos m * 2 ^ e else Zpos m / 2 ^ (- e)))
  end.

(** [n] copies of [s] in a row. *)
Fixpoint copies (s : string) (n : nat) : string :=
  match n with
  | O => ""
  | S n' => s ++ copies s n'
  end.

(** [s.repeat(count)]: a [RangeError] for a negative or infinite count. *)
Definition String_repeat (s : string) (count : float) : outcome string :=
  match ToIntegerOrInfinity count with
  | Integer n =>
      if n <? 0 then Throws "RangeError: Invalid count value"
      else Returns (copies s (Z.to_nat n))
  | _ => Throws "RangeError: Invalid count value"
  end.

(** [generateStars(rating)] *)
Definition generateStars (rating : float) : outcome string :=
  let fullStars := Math_floor rating in
  let hasHalfStar := (0.5 <=? remainder_1 rating)%float in
  let emptyStars := (5 - fullStars - (if hasHalfStar then 1 else 0))%float in
  match String_repeat "★" fullStars with
  | Throws e => Throws e
  | Returns stars =>
      let stars := if hasHalfStar then stars ++ "⯨" else stars in
      match String_repeat "☆" emptyStars with
      | Throws e => Throws e
      | Returns empty => Returns (stars ++ empty)
      end
  end.

(** A bar of [full] full stars, a half star if [half], and [empty] empty
    stars. *)
Definition star_bar (full : nat) (half : bool) (empty : nat) : string :=
  (if half then copies "★" full ++ "⯨" else copies "★" full) ++ copies "☆" empty.

(** The number of glyphs of a bar. *)
Definition glyphs (full : nat) (half : bool) (empty : nat) : nat :=
  (full + (if half then 1 else 0) + empty)%nat.
(* ===================================================================== *)
(** * Properties *)
(* ===================================================================== *)

(** ** IEEE comparison facts used below *)

Lemma SFcompare_swap (a b : spec_float) :
  SFcompare b a = option_map CompOpp (SFcompare a b).
Proof.
  destruct a as [sa|sa| |sa ma ea], b as [sb|sb| |sb mb eb]; simpl;
    try reflexivity;
    try (destruct sa; reflexivity);
    try (destruct sb; reflexivity);
    try (destruct sa, sb; reflexivity).
  assert (Hm : Pos.compare_cont Eq mb ma = CompOpp (Pos.compare_cont Eq ma mb))
    by (symmetry; apply (Pos.compare_cont_antisym ma mb Eq)).
  rewrite (Z.compare_antisym ea eb), Hm.
  destruct sa, sb, (Z.compare ea eb), (Pos.compare_cont Eq ma mb); reflexivity.
Qed.

Lemma float_eqb_sym (x y : float) : (x =? y)%float = (y =? x)%float.
Proof.
  rewrite !FloatAxioms.eqb_spec. unfold SFeqb.
  rewrite (SFcompare_swap (Prim2SF x) (Prim2SF y)).
  destruct (SFcompare (Prim2SF x) (Prim2SF y)) as [[]|]; reflexivity.
Qed.

Lemma float_eqb_refl (x : float) : PrimFloat.is_nan x = false -> (x =? x)%float = true.
Proof. unfold PrimFloat.is_nan. now destruct (x =? x)%float. Qed.

(** A number compares equal to what [convertPrice] hands back for it when it
    is falsy: [+0] for [+0] and for [-0]. *)
Lemma zero_strict_equals (x : float) :
  PrimFloat.is_zero x = true -> strict_equals (VNum 0) (VNum x) = true.
Proof. unfold PrimFloat.is_zero. simpl. now rewrite float_eqb_sym. Qed.

Lemma truthy_number_cases (x : float) :
  PrimFloat.is_nan x = false ->
  truthy_number x = true \/ PrimFloat.is_zero x = true.
Proof.
  unfold truthy_number. intros ->. destruct (PrimFloat.is_zero x); simpl; auto.
Qed.

(** ** convertPrice *)

Lemma get_own {A : Type} (o : gmap string A) (k : string) (a : A) :
  o !! k = Some a -> Object.get o k = Object.Value a.
Proof. unfold Object.get. now intros ->. Qed.

Lemma get_absent {A : Type} (o : gmap string A) (k : string) :
  o !! k = None -> Object.inherits k = false -> Object.get o k = Object.Undefined.
Proof. unfold Object.get. now intros -> ->. Qed.

Lemma get_inherited {A : Type} (o : gmap string A) (k : string) :
  o !! k = None -> Object.inherits k = true -> Object.get o k = Object.Native k.
Proof. unfold Object.get. now intros -> ->. Qed.

(** A product with [NaN] is [NaN], which equals nothing. *)
Lemma mul_nan_differs (x y : float) : ((x * nan) =? y)%float = false.
Proof.
  rewrite FloatAxioms.eqb_spec, FloatAxioms.mul_spec.
  change (Prim2SF nan) with S754_nan.
  assert (E : SF64mul (Prim2SF x) S754_nan = S754_nan).
  { unfold SF64mul. now destruct (Prim2SF x) as [[]|[]| |[] ? ?]. }
  rewrite E. reflexivity.
Qed.

Lemma convertPrice_number (x : float) (c : string) (R : rates) :
  convertPrice (VNum x) c R =
    if truthy_number x then
      if String.eqb c "USD" then VNum x
      else match Object.get R c with
           | Object.Value r => if truthy_number r then VNum (x * r)%float else VNum x
           | Object.Native _ => VNum (x * nan)%float
           | Object.Undefined => VNum x
           end
    else VNum 0.
Proof.
  unfold convertPrice, is_number. simpl.
  destruct (truthy_number x); simpl; [|reflexivity].
  destruct (String.eqb c "USD"); [reflexivity|].
  destruct (Object.get R c) as [r|name|]; simpl; [|reflexivity|reflexivity].
  now destruct (truthy_number r).
Qed.

(** The fallback branches hand the amount back: whenever the target is USD
    or the lookup of its rate gives nothing usable, the result is [===] to
    the amount, for every amount that is a number. *)
Lemma convertPrice_unconverted (x : float) (c : string) (R : rates) :
  PrimFloat.is_nan x = false ->
  String.eqb c "USD" = true \/ no_rate (Object.get R c) = true ->
  strict_equals (convertPrice (VNum x) c R) (VNum x) = true.
Proof.
  intros Hx Hc. rewrite convertPrice_number.
  destruct (truthy_number_cases x Hx) as [Ht|Hz].
  - rewrite Ht.
    assert (Hr : strict_equals (VNum x) (VNum x) = true) by (simpl; now apply float_eqb_refl).
    destruct (String.eqb c "USD"); [exact Hr|].
    destruct Hc as [Hc|Hc]; [discriminate|].
    destruct (Object.get R c) as [r|name|]; [|discriminate Hc|exact Hr].
    simpl in Hc. destruct (truthy_number r); [discriminate|exact Hr].
  - unfold truthy_number. rewrite Hz. simpl. now apply zero_strict_equals.
Qed.

(** The valid amounts of the specification are numbers other than [NaN]. *)
Lemma valid_amount_number (v : value) :
  valid_amount v = true -> exists x, v = VNum x /\ PrimFloat.is_nan x = false.
Proof.
  destruct v as [| | |x|]; simpl; try discriminate.
  intros H. exists x. split; [reflexivity|].
  apply andb_true_iff in H as [H _]. unfold PrimFloat.is_finite in H.
  now destruct (PrimFloat.is_nan x).
Qed.

(** C2: for every rate table [R] and every amount [x] (a number, so not
    [NaN]), [convertPrice(x, "USD", R)] equals [x]: converting to the base
    currency is the identity. Equality is JavaScript's [===]. *)
Theorem convertPrice_USD_identity (R : rates) (x : float) :
  PrimFloat.is_nan x = false ->
  strict_equals (convertPrice (VNum x) "USD" R) (VNum x) = true.
Proof. intros Hx. apply convertPrice_unconverted; auto. Qed.

Lemma convertPrice_USD_identity_witness :
  PrimFloat.is_nan 19.99 = false /\
  strict_equals (convertPrice (VNum 19.99) "USD" (<["EUR" := 0.92%float]> ∅)) (VNum 19.99) = true.
Proof.
  split; [reflexivity|].
  apply (convertPrice_USD_identity (<["EUR" := 0.92%float]> ∅) 19.99). reflexivity.
Defined.

(** Where the claim of the missing rate holds: for a currency [c] that
    the table has no entry for and that is not the name of a property of
    [Object.prototype], [convertPrice(x, c, R)] equals [x]. *)
Lemma convertPrice_absent_rate (R : rates) (c : string) (x : float) :
  R !! c = None ->
  Object.inherits c = false ->
  PrimFloat.is_nan x = false ->
  strict_equals (convertPrice (VNum x) c R) (VNum x) = true.
Proof.
  intros Hc Hi Hx. apply convertPrice_unconverted; [exact Hx|].
  right. now rewrite (get_absent R c Hc Hi).
Qed.

(** C3, on the code: the currency "toString" is not present in the empty
    rate table, and [convertPrice(10, "toString", {})] is not 10 but [NaN].
    The lookup [exchangeRates[targetCurrency]] finds the function that
    every object inherits under that name; it is truthy, so the fallback
    for a missing rate is not taken, and the product of the amount and the
    function is [NaN]. The same holds for every truthy amount and every
    name of [Object.prototype] the table has no entry of its own for. For
    every other currency the table has no entry for, the claim holds:
    [convertPrice(x, c, R)] equals [x]. *)
Theorem convertPrice_inherited_rate :
  (∅ : rates) !! "toString" = None /\
  convertPrice (VNum 10) "toString" ∅ = VNum nan /\
  strict_equals (convertPrice (VNum 10) "toString" ∅) (VNum 10) = false /\
  (forall (R : rates) (c : string) (x : float),
     R !! c = None -> Object.inherits c = true -> truthy_number x = true ->
     convertPrice (VNum x) c R = VNum (x * nan)%float /\
     strict_equals (convertPrice (VNum x) c R) (VNum x) = false) /\
  (forall (R : rates) (c : string) (x : float),
     R !! c = None -> Object.inherits c = false -> PrimFloat.is_nan x = false ->
     strict_equals (convertPrice (VNum x) c R) (VNum x) = true).
Proof.
  split; [reflexivity|]. split; [reflexivity|]. split; [reflexivity|]. split.
  - intros R c x Hc Hi Hx.
    assert (E : convertPrice (VNum x) c R = VNum (x * nan)%float).
    { rewrite convertPrice_number, Hx, (get_inherited R c Hc Hi).
      destruct (String.eqb_spec c "USD") as [->|_]; [discriminate Hi|reflexivity]. }
    split; [exact E|]. rewrite E. cbn [strict_equals].
    apply mul_nan_differs.
  - intros R c x. apply convertPrice_absent_rate.
Qed.

Lemma convertPrice_inherited_rate_witness :
  fallback_rates !! "valueOf" = None /\
  Object.inherits "valueOf" = true /\
  truthy_number 19.99 = true /\
  strict_equals (convertPrice (VNum 19.99) "valueOf" fallback_rates) (VNum 19.99) = false /\
  fallback_rates !! "CHF" = None /\
  Object.inherits "CHF" = false /\
  strict_equals (convertPrice (VNum 19.99) "CHF" fallback_rates) (VNum 19.99) = true.
Proof.
  split; [reflexivity|]. split; [reflexivity|]. split; [reflexivity|].
  split; [exact (proj2 (proj1 (proj2 (proj2 (proj2 convertPrice_inherited_rate)))
                          fallback_rates "valueOf" 19.99%float eq_refl eq_refl eq_refl))|].
  split; [reflexivity|]. split; [reflexivity|].
  exact (proj2 (proj2 (proj2 (proj2 convertPrice_inherited_rate)))
           fallback_rates "CHF" 19.99%float eq_refl eq_refl eq_refl).
Defined.

(** C9: for every amount [x] and every rate table [R] in which currency [c]
    is present with the rate 0, [convertPrice(x, c, R)] returns the
    unconverted amount [x]: a zero rate takes the same fallback as an
    absent one, it is not multiplied in. *)
Theorem convertPrice_zero_rate (R : rates) (c : string) (r x : float) :
  R !! c = Some r ->
  PrimFloat.is_zero r = true ->
  PrimFloat.is_nan x = false ->
  strict_equals (convertPrice (VNum x) c R) (VNum x) = true.
Proof.
  intros Hc Hr Hx. apply convertPrice_unconverted; [exact Hx|].
  right. rewrite (get_own R c r Hc). simpl. unfold truthy_number. now rewrite Hr.
Qed.

Lemma convertPrice_zero_rate_witness :
  (<["EUR" := 0%float]> (∅ : rates)) !! "EUR" = Some 0%float /\
  PrimFloat.is_zero 0 = true /\
  PrimFloat.is_nan 10 = false /\
  strict_equals (convertPrice (VNum 10) "EUR" (<["EUR" := 0%float]> ∅)) (VNum 10) = true.
Proof.
  split; [reflexivity|]. split; [reflexivity|]. split; [reflexivity|].
  apply (convertPrice_zero_rate (<["EUR" := 0%float]> ∅) "EUR" 0 10); reflexivity.
Defined.

(** C4, as stated, fails: a negative and an infinite amount are not valid
    amounts, and neither is turned into 0. *)
Lemma convertPrice_negative_infinite_kept :
  valid_amount (VNum (-5)) = false /\
  strict_equals (convertPrice (VNum (-5)) "USD" ∅) (VNum 0) = false /\
  convertPrice (VNum (-5)) "EUR" (<["EUR" := 0.5%float]> ∅) = VNum (-2.5) /\
  valid_amount (VNum infinity) = false /\
  strict_equals (convertPrice (VNum infinity) "USD" ∅) (VNum 0) = false.
Proof. repeat split; reflexivity. Qed.

(** C4 (amended): for every target currency and rate table, [convertPrice]
    returns 0 for every amount that is falsy or not of type number (missing,
    [null], [NaN], a zero, a string, a boolean); a number that is truthy,
    negative and infinite ones included, is converted like any other: kept
    for USD and where the lookup of the rate gives nothing or a zero or
    [NaN], multiplied by the rate otherwise, and by [NaN] where the lookup
    finds a built-in of [Object.prototype]. *)
Theorem convertPrice_invalid_amount (v : value) (c : string) (R : rates) :
  (ToBoolean v = false \/ is_number v = false -> convertPrice v c R = VNum 0) /\
  (forall x, v = VNum x -> truthy_number x = true ->
     convertPrice v c R =
       if String.eqb c "USD" then VNum x
       else match Object.get R c with
            | Object.Value r => if truthy_number r then VNum (x * r)%float else VNum x
            | Object.Native _ => VNum (x * nan)%float
            | Object.Undefined => VNum x
            end).
Proof.
  split.
  - intros [H|H]; unfold convertPrice; rewrite H; simpl; [reflexivity|].
    now rewrite orb_true_r.
  - intros x -> Hx. rewrite convertPrice_number. now rewrite Hx.
Qed.

Lemma convertPrice_invalid_amount_witness :
  convertPrice VUndefined "EUR" (<["EUR" := 0.92%float]> ∅) = VNum 0 /\
  convertPrice (VNum nan) "EUR" (<["EUR" := 0.92%float]> ∅) = VNum 0 /\
  convertPrice (VNum (-8)) "EUR" (<["EUR" := 0.5%float]> ∅) = VNum (-4).
Proof.
  split; [|split].
  - apply (convertPrice_invalid_amount VUndefined). left. reflexivity.
  - apply (convertPrice_invalid_amount (VNum nan)). left. reflexivity.
  - exact (proj2 (convertPrice_invalid_amount (VNum (-8)) "EUR" (<["EUR" := 0.5%float]> ∅))
             (-8)%float eq_refl eq_refl).
Defined.

(** ** formatPrice *)

Lemma prefix_app (s t : string) : String.prefix s (s ++ t) = true.
Proof.
  induction s as [|c s IH]; simpl.
  - now destruct t.
  - destruct (ascii_dec c c) as [_|n]; [exact IH | now destruct n].
Qed.

(** Every result of [formatPrice] starts with the symbol of the currency. *)
Lemma formatPrice_prefix (host : Host) (price : value) (c : string) :
  String.prefix (ToString host (getCurrencySymbol c)) (formatPrice host price c) = true.
Proof.
  unfold formatPrice, getCurrencySymbol.
  destruct (negb (is_number price) || isNaN price); [apply prefix_app|].
  destruct (String.eqb c "JPY"); apply prefix_app.
Qed.

(** The code's table is the one the specification lists. *)
Lemma getCurrencySymbol_spec (c sym : string) :
  In (c, sym) spec_symbols -> getCurrencySymbol c = Object.Value sym.
Proof.
  intros H. simpl in H.
  repeat (destruct H as [H|H]; [injection H as <- <-; reflexivity|]).
  destruct H.
Qed.

(** C5: for every numeric amount (so for every finite one) and every known
    currency, [formatPrice] returns a string that begins with the symbol of
    that currency (USD "$", EUR "€", GBP "£", JPY "¥", MXN "$"); 1234.5 in
    JPY is rendered rounded to an integer with no decimal separator, in USD
    with exactly two decimal digits, both with en-US thousands separators. *)
Theorem formatPrice_symbol_and_decimals (host : Host) (x : float) (c sym : string) :
  In (c, sym) spec_symbols ->
  String.prefix sym (formatPrice host (VNum x) c) = true /\
  formatPrice host (VNum 1234.5) "JPY" = "¥1,235" /\
  formatPrice host (VNum 1234.5) "USD" = "$1,234.50".
Proof.
  intros H. split; [|split].
  - change sym with (ToString host (Object.Value sym)).
    rewrite <- (getCurrencySymbol_spec c sym H). apply formatPrice_prefix.
  - vm_compute. reflexivity.
  - vm_compute. reflexivity.
Qed.

Lemma formatPrice_symbol_and_decimals_witness :
  In ("GBP", "£") spec_symbols /\
  String.prefix "£" (formatPrice ascii_host (VNum 1234567.891) "GBP") = true /\
  formatPrice ascii_host (VNum 1234.5) "JPY" = "¥1,235" /\
  formatPrice ascii_host (VNum 1234.5) "USD" = "$1,234.50".
Proof.
  assert (H : In ("GBP", "£") spec_symbols) by (simpl; auto).
  split; [exact H|].
  exact (formatPrice_symbol_and_decimals ascii_host 1234567.891 "GBP" "£" H).
Defined.

(** C10: for every currency [c], JPY included, [formatPrice] applied to an
    amount that is not a number or is [NaN] returns the symbol for [c]
    followed by "0.00"; so [formatPrice(NaN, "JPY")] is "¥0.00": this branch
    never uses the zero-decimal rendering of JPY. The symbol is written
    as the template literal writes what [getCurrencySymbol] returns. *)
Theorem formatPrice_not_a_number (host : Host) (price : value) (c : string) :
  is_number price = false \/ isNaN price = true ->
  formatPrice host price c = ToString host (getCurrencySymbol c) ++ "0.00" /\
  formatPrice host (VNum nan) "JPY" = "¥0.00".
Proof.
  intros H. split; [|reflexivity].
  unfold formatPrice, getCurrencySymbol.
  destruct H as [-> | ->]; [reflexivity|].
  now rewrite orb_true_r.
Qed.

Lemma formatPrice_not_a_number_witness :
  isNaN (VNum nan) = true /\
  formatPrice ascii_host (VNum nan) "JPY"
    = ToString ascii_host (getCurrencySymbol "JPY") ++ "0.00" /\
  formatPrice ascii_host (VNum nan) "JPY" = "¥0.00".
Proof.
  split; [reflexivity|].
  apply (formatPrice_not_a_number ascii_host (VNum nan) "JPY"). right. reflexivity.
Defined.
(** ** Substrings *)

Lemma prefix_split (a s : string) :
  String.prefix a s = true -> exists rest, s = a ++ rest.
Proof.
  revert s. induction a as [|c a IH]; intros s H.
  - now exists s.
  - destruct s as [|d s]; [discriminate H|]. simpl in H.
    destruct (ascii_dec c d) as [->|_]; [|discriminate H].
    destruct (IH s H) as [rest ->]. now exists rest.
Qed.

Lemma includes_prefix (s sub : string) :
  String.prefix sub s = true -> Str.includes s sub = true.
Proof. intros H. destruct s; cbn [Str.includes]; now rewrite H. Qed.

(** [includes] decides the substring relation. *)
Lemma includes_spec (s sub : string) :
  Str.includes s sub = true <-> occurs_in sub s.
Proof.
  split.
  - induction s as [|c s IH]; cbn [Str.includes]; intros H.
    + rewrite orb_false_r in H. apply prefix_split in H as [rest E].
      exists "", rest. exact E.
    + apply orb_true_iff in H as [H|H].
      * apply prefix_split in H as [rest E]. exists "", rest. exact E.
      * destruct (IH H) as (before & after_ & E).
        exists (String c before), after_. simpl. now rewrite E.
  - intros (before & after_ & E). subst s.
    induction before as [|c before IH].
    + apply includes_prefix. change ("" ++ sub ++ after_) with (sub ++ after_).
      apply prefix_app.
    + change (String c before ++ sub ++ after_) with (String c (before ++ sub ++ after_)).
      cbn [Str.includes]. rewrite IH. apply orb_true_r.
Qed.

(** ** trim *)

Lemma append_assoc (a b c : string) : (a ++ b) ++ c = a ++ (b ++ c).
Proof.
  induction a as [|x a IH]; [reflexivity|].
  change (String x ((a ++ b) ++ c) = String x (a ++ b ++ c)). now rewrite IH.
Qed.

Lemma append_empty_r (a : string) : a ++ "" = a.
Proof.
  induction a as [|x a IH]; [reflexivity|].
  change (String x (a ++ "") = String x a). now rewrite IH.
Qed.

Lemma prefix_starts (w s : string) : String.prefix w s = true <-> starts_with w s.
Proof.
  split; [apply prefix_split|]. intros [rest ->]. apply prefix_app.
Qed.

Lemma drop_app (w rest : string) : Str.drop (String.length w) (w ++ rest) = rest.
Proof. induction w as [|c w IH]; [now destruct rest|exact IH]. Qed.

Lemma after_first_Some (ws : list string) (s rest : string) :
  Str.after_first ws s = Some rest -> exists w, In w ws /\ s = w ++ rest.
Proof.
  induction ws as [|w ws IH]; cbn [Str.after_first]; [discriminate|].
  destruct (String.prefix w s) eqn:E.
  - intros [= <-]. apply prefix_split in E as [r ->].
    exists w. split; [now left|]. now rewrite drop_app.
  - intros H. destruct (IH H) as (w' & Hw & Es). exists w'. split; [now right|exact Es].
Qed.

Lemma after_first_None (ws : list string) (s : string) :
  Str.after_first ws s = None <-> forall w, In w ws -> ~ starts_with w s.
Proof.
  induction ws as [|w ws IH]; cbn [Str.after_first].
  - split; [intros _ w []|reflexivity].
  - destruct (String.prefix w s) eqn:E.
    + split; [discriminate|]. intros H. exfalso. apply (H w); [now left|].
      now apply prefix_starts.
    + rewrite IH. split.
      * intros H w' [<-|Hw]; [|now apply H].
        intros Hs. apply prefix_starts in Hs. congruence.
      * intros H w' Hw. apply H. now right.
Qed.

Lemma run_nil (ws : list string) : run ws "".
Proof. exists []. split; [constructor|reflexivity]. Qed.

Lemma run_cons (ws : list string) (w s : string) :
  In w ws -> run ws s -> run ws (w ++ s).
Proof.
  intros Hw (parts & Hp & ->). exists (w :: parts). split; [now constructor|reflexivity].
Qed.

Lemma run_app (ws : list string) (a b : string) :
  run ws a -> run ws b -> run ws (a ++ b).
Proof.
  intros (parts & Hp & ->) Hb. induction Hp as [|w parts Hw Hp IH]; [exact Hb|].
  cbn [List.fold_right]. rewrite append_assoc. now apply run_cons.
Qed.

(** [strip] takes a run off the front. *)
Lemma strip_split (ws : list string) (fuel : nat) (s : string) :
  exists l, run ws l /\ s = l ++ Str.strip ws fuel s.
Proof.
  revert s. induction fuel as [|fuel IH]; intros s; cbn [Str.strip].
  - exists "". split; [apply run_nil|reflexivity].
  - destruct (Str.after_first ws s) as [rest|] eqn:E.
    + destruct (after_first_Some ws s rest E) as (w & Hw & ->).
      destruct (IH rest) as (l & Hl & El).
      exists (w ++ l). split; [now apply run_cons|].
      rewrite append_assoc. now rewrite <- El.
    + exists "". split; [apply run_nil|reflexivity].
Qed.

Lemma length_append (s t : string) :
  String.length (s ++ t) = (String.length s + String.length t)%nat.
Proof.
  induction s as [|a s IH]; [reflexivity|].
  change (S (String.length (s ++ t)) = S (String.length s + String.length t)).
  now rewrite IH.
Qed.

(** With as much fuel as the text is long, [strip] leaves none of the
    characters at the front. *)
Lemma strip_done (ws : list string) (fuel : nat) (s : string) :
  Forall (fun w => w <> "") ws ->
  (String.length s <= fuel)%nat ->
  forall w, In w ws -> ~ starts_with w (Str.strip ws fuel s).
Proof.
  intros Hne. revert s. induction fuel as [|fuel IH]; intros s Hlen; cbn [Str.strip].
  - destruct s; [|simpl in Hlen; lia].
    intros w Hw [rest E]. rewrite Forall_forall in Hne.
    destruct w; [now apply (Hne ""); [apply list_elem_of_In|]|discriminate E].
  - destruct (Str.after_first ws s) as [rest|] eqn:E.
    + destruct (after_first_Some ws s rest E) as (w & Hw & ->).
      apply IH. rewrite length_append in Hlen.
      rewrite Forall_forall in Hne.
      assert (w <> "") by (apply Hne; now apply list_elem_of_In).
      destruct w; [contradiction|]. simpl in Hlen. lia.
    + now apply after_first_None.
Qed.

Lemma reverse_onto_app (s acc : string) :
  Str.reverse_onto s acc = Str.reverse s ++ acc.
Proof.
  unfold Str.reverse. revert acc. induction s as [|c s IH]; intros acc; [reflexivity|].
  cbn [Str.reverse_onto]. rewrite (IH (String c acc)), (IH (String c "")).
  now rewrite append_assoc.
Qed.

Lemma reverse_cons (c : ascii) (s : string) :
  Str.reverse (String c s) = Str.reverse s ++ String c "".
Proof. unfold Str.reverse at 1. cbn [Str.reverse_onto]. apply reverse_onto_app. Qed.

Lemma reverse_app (a b : string) :
  Str.reverse (a ++ b) = Str.reverse b ++ Str.reverse a.
Proof.
  induction a as [|c a IH].
  - change ("" ++ b) with b. now rewrite append_empty_r.
  - change (String c a ++ b) with (String c (a ++ b)).
    rewrite !reverse_cons, IH. apply append_assoc.
Qed.

Lemma reverse_involutive (s : string) : Str.reverse (Str.reverse s) = s.
Proof.
  induction s as [|c s IH]; [reflexivity|].
  rewrite reverse_cons, reverse_app, IH. reflexivity.
Qed.

Lemma length_reverse (s : string) : String.length (Str.reverse s) = String.length s.
Proof.
  induction s as [|c s IH]; [reflexivity|].
  rewrite reverse_cons, length_append, IH. simpl. lia.
Qed.

(** A run of reversed characters, reversed, is a run of the characters. *)
Lemma run_reverse (ws : list string) (s : string) :
  run (List.map Str.reverse ws) s -> run ws (Str.reverse s).
Proof.
  intros (parts & Hp & ->). induction Hp as [|w parts Hw Hp IH]; [apply run_nil|].
  cbn [List.fold_right]. rewrite reverse_app. apply run_app; [exact IH|].
  apply List.in_map_iff in Hw as (w0 & <- & Hw0). rewrite reverse_involutive.
  rewrite <- (append_empty_r w0). apply run_cons; [exact Hw0|apply run_nil].
Qed.

(** [trim] returns the text without the white space around it. *)
Lemma trim_spec (s : string) : trimmed_of s (Str.trim s).
Proof.
  unfold Str.trim, Str.trimEnd, Str.trimStart.
  set (t0 := Str.strip Str.white_space (String.length s) s).
  set (u := Str.strip (List.map Str.reverse Str.white_space) (String.length t0)
              (Str.reverse t0)).
  destruct (strip_split Str.white_space (String.length s) s) as (l & Hl & El).
  fold t0 in El.
  destruct (strip_split (List.map Str.reverse Str.white_space) (String.length t0)
              (Str.reverse t0)) as (r' & Hr & Er).
  fold u in Er.
  assert (Et : t0 = Str.reverse u ++ Str.reverse r').
  { rewrite <- (reverse_involutive t0), Er. apply reverse_app. }
  assert (N0 : forall w, In w Str.white_space -> ~ starts_with w t0).
  { apply strip_done; [|reflexivity].
    unfold Str.white_space. repeat constructor; discriminate. }
  assert (N1 : forall w, In w (List.map Str.reverse Str.white_space) -> ~ starts_with w u).
  { apply strip_done; [|now rewrite length_reverse].
    unfold Str.white_space. repeat constructor; discriminate. }
  split.
  - exists l, (Str.reverse r'). split; [exact Hl|]. split; [now apply run_reverse|].
    now rewrite <- Et.
  - intros w Hw. split.
    + intros [rest E]. apply (N0 w Hw). exists (rest ++ Str.reverse r').
      rewrite Et, E. apply append_assoc.
    + intros [front E]. apply (N1 (Str.reverse w)); [now apply List.in_map|].
      exists (Str.reverse front).
      rewrite <- (reverse_involutive u), E. apply reverse_app.
Qed.

(** ** applyFilters *)

Lemma or_empty_id (s : string) : or_empty s = s.
Proof. unfold or_empty. simpl. now destruct s. Qed.

Lemma filter_twice {A : Type} (f g : A -> bool) (l : list A) :
  List.filter g (List.filter f l) = List.filter (fun x => f x && g x) l.
Proof.
  induction l as [|x l IH]; simpl; [reflexivity|].
  destruct (f x); simpl; [|exact IH].
  destruct (g x); now rewrite IH.
Qed.

Lemma filter_all {A : Type} (f : A -> bool) (l : list A) :
  (forall x, f x = true) -> List.filter f l = l.
Proof.
  intros H. induction l as [|x l IH]; simpl; [reflexivity|].
  now rewrite H, IH.
Qed.

Lemma truthy_text_false (o : option string) : truthy_text o = false -> text o = "".
Proof. destruct o as [[|a s]|]; simpl; intros H; now try discriminate H. Qed.

Lemma truthy_text_true (o : option string) : truthy_text o = true -> text o <> "".
Proof. destruct o as [[|a s]|]; simpl; intros H; now try discriminate H. Qed.

(** Each stage of the pipeline filters by its test, also when the stage
    is skipped or passes the list through. *)
Lemma filterByCategory_filter (products : list Product) (c : option string) :
  filterService.filterByCategory products c
  = List.filter (category_test c) products.
Proof.
  unfold filterService.filterByCategory, category_test.
  destruct (negb (truthy_text c) || String.eqb (text c) "all")%bool; [|reflexivity].
  symmetry. now apply filter_all.
Qed.

Lemma category_stage (products : list Product) (c : option string) :
  (if truthy_text c then filterService.filterByCategory products c else products)
  = List.filter (category_test c) products.
Proof.
  destruct (truthy_text c) eqn:E; [apply filterByCategory_filter|].
  symmetry. apply filter_all. intros p. unfold category_test. now rewrite E.
Qed.

Lemma filterBySearch_filter (host : Host) (products : list Product) (q : option string) :
  filterService.filterBySearch host products q
  = List.filter (search_test host q) products.
Proof.
  unfold filterService.filterBySearch, search_test.
  destruct (negb (truthy_text q) || String.eqb (Str.trim (text q)) "")%bool.
  - symmetry. now apply filter_all.
  - cbv zeta. apply List.filter_ext. intros p. now rewrite !or_empty_id.
Qed.

Lemma search_stage (host : Host) (products : list Product) (q : option string) :
  (if truthy_text q then filterService.filterBySearch host products q else products)
  = List.filter (search_test host q) products.
Proof.
  destruct (truthy_text q) eqn:E; [apply filterBySearch_filter|].
  symmetry. apply filter_all. intros p. unfold search_test. now rewrite E.
Qed.

Lemma isInCategory_test (p : Product) (c : option string) :
  isInCategory p c = category_test c p.
Proof.
  unfold isInCategory, category_test.
  now destruct (negb (truthy_text c) || String.eqb (text c) "all")%bool.
Qed.

Lemma matchesSearch_test (host : Host) (p : Product) (q : option string) :
  matchesSearch host p q = search_test host q p.
Proof.
  unfold matchesSearch, search_test.
  now destruct (negb (truthy_text q) || String.eqb (Str.trim (text q)) "")%bool.
Qed.

(** Both implementations filter by the conjunction of the two tests. *)
Lemma applyFilters_filter (host : Host) (products : list Product) (filters : Filters) :
  filterService.applyFilters host products filters
  = List.filter (fun p => category_test (fcategory filters) p &&
                          search_test host (search filters) p) products /\
  ProductCollection.applyFilters host products filters
  = List.filter (fun p => category_test (fcategory filters) p &&
                          search_test host (search filters) p) products.
Proof.
  rewrite <- filter_twice. split.
  - unfold filterService.applyFilters. cbv zeta.
    now rewrite category_stage, search_stage.
  - unfold ProductCollection.applyFilters. cbv zeta.
    assert (Hc : forall l,
      (if truthy_text (fcategory filters)
       then List.filter (fun p => isInCategory p (fcategory filters)) l else l)
      = List.filter (category_test (fcategory filters)) l).
    { intros l. destruct (truthy_text (fcategory filters)) eqn:E.
      - apply List.filter_ext. intros p. apply isInCategory_test.
      - symmetry. apply filter_all. intros p. unfold category_test. now rewrite E. }
    assert (Hs : forall l,
      (if truthy_text (search filters)
       then List.filter (fun p => matchesSearch host p (search filters)) l else l)
      = List.filter (search_test host (search filters)) l).
    { intros l. destruct (truthy_text (search filters)) eqn:E.
      - apply List.filter_ext. intros p. apply matchesSearch_test.
      - symmetry. apply filter_all. intros p. unfold search_test. now rewrite E. }
    now rewrite Hc, Hs.
Qed.

(** The category test decides the category predicate of the
    specification. *)
Lemma category_test_spec (c : option string) (p : Product) :
  category_test c p = true <-> spec_category_pred (text c) p.
Proof.
  unfold category_test, spec_category_pred. rewrite !orb_true_iff.
  rewrite !String.eqb_eq. split.
  - intros [[H|H]|H]; [left|right; left; exact H|right; right; exact H].
    apply truthy_text_false. now destruct (truthy_text c).
  - intros [H|[H|H]]; [left; left|left; right; exact H|right; exact H].
    destruct (truthy_text c) eqn:E; [|reflexivity].
    now apply truthy_text_true in E.
Qed.

Lemma trim_empty : Str.trim "" = "".
Proof. reflexivity. Qed.

(** The search test decides the search predicate of the specification,
    for a query on which trimming and lower-casing commute. *)
Lemma search_test_spec (host : Host) (q : option string) (p : Product) :
  Str.trim (toLowerCase host (text q)) = toLowerCase host (Str.trim (text q)) ->
  search_test host q p = true <-> spec_search_pred host (text q) p.
Proof.
  intros Hcomm. unfold search_test, spec_search_pred, occurs_ignoring_case.
  rewrite !orb_true_iff, String.eqb_eq, !includes_spec, Hcomm. split.
  - intros [[H|H]|H]; [left|left; exact H|right; tauto].
    rewrite (truthy_text_false q); [apply trim_empty|now destruct (truthy_text q)].
  - intros [H|H]; [left; right; exact H|right; tauto].
Qed.

(** C1: for every product sequence and every criteria [{category, search}],
    [applyFilters] returns exactly the products that satisfy both
    predicates, in their original relative order: the category predicate
    passes everything for an empty category or "all" and otherwise requires
    equality with the product's category; the search predicate passes
    everything for an empty or blank search and otherwise requires the
    trimmed query to occur, ignoring case, as a substring of the title or
    the description or the category. Case is ignored by comparing the
    texts in the lower case the host gives them; the code lower-cases the
    query before it trims it, and the hypothesis says that on this query
    the two commute, as they do for every query on a host with the case
    mapping of Unicode. The trimmed query is the query without the white
    space around it. The collection's method of the same name returns the
    same products. *)
Theorem applyFilters_spec (host : Host) (products : list Product) (filters : Filters) :
  Str.trim (toLowerCase host (text (search filters)))
    = toLowerCase host (Str.trim (text (search filters))) ->
  exactly_those
    (fun p => spec_category_pred (text (fcategory filters)) p /\
              spec_search_pred host (text (search filters)) p)
    products (filterService.applyFilters host products filters) /\
  exactly_those
    (fun p => spec_category_pred (text (fcategory filters)) p /\
              spec_search_pred host (text (search filters)) p)
    products (ProductCollection.applyFilters host products filters) /\
  trimmed_of (text (search filters)) (Str.trim (text (search filters))).
Proof.
  intros Hcomm.
  destruct (applyFilters_filter host products filters) as [E1 E2].
  assert (Hkeep : forall p,
    (category_test (fcategory filters) p && search_test host (search filters) p)%bool = true
    <-> spec_category_pred (text (fcategory filters)) p /\
        spec_search_pred host (text (search filters)) p).
  { intros p. rewrite andb_true_iff, category_test_spec.
    now rewrite (search_test_spec host _ p Hcomm). }
  split; [|split; [|apply trim_spec]]; eexists; (split; [exact Hkeep|assumption]).
Qed.

(** ** A host with the ASCII case mapping *)

Lemma lower_fixed (c d : ascii) :
  is_letter c = false -> (Str.lower_ascii d = c <-> d = c).
Proof.
  unfold is_letter, Str.lower_ascii. intros Hc.
  destruct (Nat.leb 65 (nat_of_ascii d) && Nat.leb (nat_of_ascii d) 90)%bool eqn:Hd;
    [|tauto].
  apply andb_true_iff in Hd as [H1 H2]. apply Nat.leb_le in H1, H2.
  split; intros E; exfalso.
  - assert (En : nat_of_ascii c = (nat_of_ascii d + 32)%nat).
    { rewrite <- E. apply nat_ascii_embedding. lia. }
    rewrite En in Hc.
    replace (Nat.leb 97 (nat_of_ascii d + 32)) with true in Hc
      by (symmetry; apply Nat.leb_le; lia).
    replace (Nat.leb (nat_of_ascii d + 32) 122) with true in Hc
      by (symmetry; apply Nat.leb_le; lia).
    now rewrite orb_true_r in Hc.
  - subst d.
    replace (Nat.leb 65 (nat_of_ascii c)) with true in Hc
      by (symmetry; apply Nat.leb_le; lia).
    replace (Nat.leb (nat_of_ascii c) 90) with true in Hc
      by (symmetry; apply Nat.leb_le; lia).
    discriminate Hc.
Qed.

Lemma prefix_lower (w s : string) :
  no_letter w = true ->
  String.prefix w (Str.ascii_lower s) = String.prefix w s.
Proof.
  revert s. induction w as [|a w IH]; intros s Hw; [now destruct s|].
  cbn [no_letter] in Hw. apply andb_true_iff in Hw as [Ha Hw].
  apply negb_true_iff in Ha.
  destruct s as [|d s]; [reflexivity|]. cbn [Str.ascii_lower String.prefix].
  pose proof (lower_fixed a d Ha) as Hf.
  destruct (ascii_dec a (Str.lower_ascii d)) as [E|E], (ascii_dec a d) as [E'|E'];
    try (now apply IH); try reflexivity; exfalso.
  - apply E'. symmetry. apply Hf. now symmetry.
  - apply E. symmetry. apply Hf. now symmetry.
Qed.

Lemma drop_lower (n : nat) (s : string) :
  Str.drop n (Str.ascii_lower s) = Str.ascii_lower (Str.drop n s).
Proof.
  revert s. induction n as [|n IH]; intros [|c s]; try reflexivity.
  cbn [Str.ascii_lower Str.drop]. apply IH.
Qed.

Lemma length_lower (s : string) : String.length (Str.ascii_lower s) = String.length s.
Proof. induction s as [|c s IH]; simpl; [reflexivity|now rewrite IH]. Qed.

Lemma after_first_lower (ws : list string) (s : string) :
  forallb no_letter ws = true ->
  Str.after_first ws (Str.ascii_lower s)
  = option_map Str.ascii_lower (Str.after_first ws s).
Proof.
  induction ws as [|w ws IH]; intros H; [reflexivity|].
  cbn [forallb] in H. apply andb_true_iff in H as [Hw H].
  cbn [Str.after_first]. rewrite (prefix_lower w s Hw).
  destruct (String.prefix w s); [|now apply IH].
  cbn [option_map]. now rewrite drop_lower.
Qed.

Lemma strip_lower (ws : list string) (fuel : nat) (s : string) :
  forallb no_letter ws = true ->
  Str.strip ws fuel (Str.ascii_lower s) = Str.ascii_lower (Str.strip ws fuel s).
Proof.
  intros H. revert s. induction fuel as [|fuel IH]; intros s; [reflexivity|].
  cbn [Str.strip]. rewrite (after_first_lower ws s H).
  destruct (Str.after_first ws s) as [rest|]; [|reflexivity].
  cbn [option_map]. apply IH.
Qed.

Lemma reverse_onto_lower (s acc : string) :
  Str.reverse_onto (Str.ascii_lower s) (Str.ascii_lower acc)
  = Str.ascii_lower (Str.reverse_onto s acc).
Proof.
  revert acc. induction s as [|c s IH]; intros acc; [reflexivity|].
  cbn [Str.ascii_lower Str.reverse_onto].
  change (String (Str.lower_ascii c) (Str.ascii_lower acc))
    with (Str.ascii_lower (String c acc)).
  apply IH.
Qed.

Lemma reverse_lower (s : string) :
  Str.reverse (Str.ascii_lower s) = Str.ascii_lower (Str.reverse s).
Proof. apply (reverse_onto_lower s ""). Qed.

(** The ASCII case mapping commutes with [trim]: no white space character
    holds the byte of a letter. *)
Lemma ascii_trim_commutes : trim_commutes ascii_host.
Proof.
  intros s. cbn [toLowerCase ascii_host].
  unfold Str.trim, Str.trimStart, Str.trimEnd.
  rewrite !length_lower, strip_lower by reflexivity.
  rewrite length_lower, reverse_lower, strip_lower by reflexivity.
  now rewrite reverse_lower.
Qed.

Lemma applyFilters_spec_witness :
  Str.trim (toLowerCase ascii_host "  Phone ") = toLowerCase ascii_host (Str.trim "  Phone ") /\
  exactly_those
    (fun p => spec_category_pred "all" p /\ spec_search_pred ascii_host "  Phone " p)
    demo_catalog
    (filterService.applyFilters ascii_host demo_catalog
       (mkFilters (Some "  Phone ") (Some "all"))) /\
  List.map id (filterService.applyFilters ascii_host demo_catalog
                 (mkFilters (Some "  Phone ") (Some "all"))) = [1; 3].
Proof.
  split; [reflexivity|]. split; [|vm_compute; reflexivity].
  exact (proj1 (applyFilters_spec ascii_host demo_catalog
                  (mkFilters (Some "  Phone ") (Some "all")) eq_refl)).
Defined.

(** ** The quote ledger *)

Lemma keys_differ : STORAGE_KEYS.QUOTE_LIST <> STORAGE_KEYS.LAST_UPDATE.
Proof. discriminate. Qed.

(** What the ledger reads as after [saveQuoteList]: the list just written
    if the store took the write, the ledger as it was if it did not. *)
Lemma load_after_save (now : string) (l : list Product) (st : Storage) :
  loadQuoteList (snd (saveQuoteList now l st)) =
    if writable st then DProducts l else loadQuoteList st.
Proof.
  unfold saveQuoteList, saveToStorage, writable. destruct st as [m h r]. simpl.
  destruct r, h; simpl; try reflexivity.
  unfold loadQuoteList, loadFromStorage. simpl.
  rewrite lookup_insert_ne by (symmetry; apply keys_differ).
  now rewrite lookup_insert_eq.
Qed.

Lemma save_not_writable (now : string) (l : list Product) (st : Storage) :
  writable st = false -> saveQuoteList now l st = (false, st).
Proof. intros H. unfold saveQuoteList, saveToStorage. now rewrite H. Qed.

Lemma existsb_id_In (i : Z) (l : list Product) :
  List.existsb (fun item => id item =? i) l = true <-> In i (List.map id l).
Proof.
  rewrite List.existsb_exists, List.in_map_iff. split.
  - intros (x & Hx & E). exists x. split; [now apply Z.eqb_eq|exact Hx].
  - intros (x & E & Hx). exists x. split; [exact Hx|now apply Z.eqb_eq].
Qed.

Lemma unique_ids_push (l : list Product) (p : Product) :
  unique_ids l ->
  List.existsb (fun item => id item =? id p) l = false ->
  unique_ids (l ++ [p]).
Proof.
  unfold unique_ids. intros Hl Hp. rewrite List.map_app. simpl.
  apply NoDup_app. split; [exact Hl|]. split.
  - intros x Hx Hx'. apply list_elem_of_In in Hx, Hx'.
    destruct Hx' as [<-|[]].
    apply existsb_id_In in Hx. congruence.
  - apply NoDup_singleton.
Qed.

Lemma unique_ids_filter (f : Product -> bool) (l : list Product) :
  unique_ids l -> unique_ids (List.filter f l).
Proof.
  unfold unique_ids. induction l as [|x l IH]; simpl; intros H; [exact H|].
  apply NoDup_cons in H as [Hx Hl].
  destruct (f x); simpl; [|now apply IH].
  apply NoDup_cons. split; [|now apply IH].
  intros Hin. apply Hx. apply list_elem_of_In in Hin. apply list_elem_of_In.
  apply List.in_map_iff in Hin as (y & E & Hy).
  apply List.filter_In in Hy as [Hy _].
  apply List.in_map_iff. now exists y.
Qed.

Lemma count_id_absent (i : Z) (l : list Product) :
  List.existsb (fun item => id item =? i) l = false -> count_id i l = 0%nat.
Proof.
  unfold count_id. induction l as [|x l IH]; simpl; [reflexivity|].
  destruct (id x =? i); simpl; [discriminate|exact IH].
Qed.

Lemma count_id_app (i : Z) (l l' : list Product) :
  count_id i (l ++ l') = (count_id i l + count_id i l')%nat.
Proof. unfold count_id. now rewrite List.filter_app, List.length_app. Qed.

(** In a ledger with distinct ids, an id that occurs occurs once. *)
Lemma count_id_unique (i : Z) (l : list Product) :
  unique_ids l ->
  List.existsb (fun item => id item =? i) l = true -> count_id i l = 1%nat.
Proof.
  unfold unique_ids. induction l as [|x l IH]; simpl; intros Hl H; [discriminate|].
  apply NoDup_cons in Hl as [Hx Hl].
  change (count_id i (x :: l)) with (count_id i ([x] ++ l)).
  rewrite count_id_app. unfold count_id at 1. simpl.
  destruct (id x =? i) eqn:E; simpl.
  - apply Z.eqb_eq in E. subst i. f_equal. apply count_id_absent.
    destruct (List.existsb (fun item => id item =? id x) l) eqn:E'; [|reflexivity].
    exfalso. apply Hx. apply list_elem_of_In. now apply existsb_id_In.
  - now apply IH.
Qed.

(** C7: starting from a persisted quote list whose entries have pairwise
    distinct ids, each of [addToQuote], [removeFromQuote] and [clearQuote]
    returns and leaves a persisted list with pairwise distinct ids; calling
    [addToQuote(p)] twice yields a list with exactly one entry of id [p.id],
    the second call changing neither the list nor the store, and that list
    is the persisted one when the store accepts writes; [removeFromQuote]
    on an empty ledger returns the empty sequence and leaves the ledger
    empty. *)
Theorem quote_ledger_unique_ids (now now' : string) (st : Storage) (L : list Product) :
  loadQuoteList st = DProducts L ->
  unique_ids L ->
  (forall p, exists l st',
      addToQuote now p st = Returns (l, st') /\ unique_ids l /\
      exists L', loadQuoteList st' = DProducts L' /\ unique_ids L') /\
  (forall i, exists l st',
      removeFromQuote now i st = Returns (l, st') /\ unique_ids l /\
      exists L', loadQuoteList st' = DProducts L' /\ unique_ids L') /\
  (exists L', loadQuoteList (snd (clearQuote now st)) = DProducts L' /\ unique_ids L') /\
  (forall p, exists l st',
      addToQuote now p st = Returns (l, st') /\
      addToQuote now' p st' = Returns (l, st') /\
      count_id (id p) l = 1%nat /\
      (writable st = true -> loadQuoteList st' = DProducts l)) /\
  (L = [] -> forall i, exists st',
      removeFromQuote now i st = Returns ([], st') /\
      loadQuoteList st' = DProducts []).
Proof.
  intros HL HU.
  assert (Hadd : forall p, exists l st',
    addToQuote now p st = Returns (l, st') /\ unique_ids l /\
    (exists L', loadQuoteList st' = DProducts L' /\ unique_ids L') /\
    addToQuote now' p st' = Returns (l, st') /\
    count_id (id p) l = 1%nat /\
    (writable st = true -> loadQuoteList st' = DProducts l)).
  { intros p. unfold addToQuote at 1. rewrite HL. cbv zeta.
    destruct (List.existsb (fun item => id item =? id p) L) eqn:E; simpl negb; cbv iota.
    - exists L, st. repeat split; auto.
      + now exists L.
      + unfold addToQuote. rewrite HL. cbv zeta. now rewrite E.
      + now apply count_id_unique.
    - pose proof (load_after_save now (L ++ [p])%list st) as Hload.
      destruct (saveQuoteList now (L ++ [p])%list st) as [ok st'] eqn:Es.
      simpl in Hload.
      assert (HU' : unique_ids (L ++ [p])%list) by now apply unique_ids_push.
      assert (Hc : count_id (id p) (L ++ [p])%list = 1%nat).
      { rewrite count_id_app, (count_id_absent _ _ E). unfold count_id. simpl.
        now rewrite Z.eqb_refl. }
      exists (L ++ [p])%list, st'. split; [reflexivity|]. split; [exact HU'|].
      destruct (writable st) eqn:W.
      + split; [now exists (L ++ [p])%list|]. split; [|split; auto].
        unfold addToQuote. rewrite Hload. cbv zeta.
        assert (E' : List.existsb (fun item => id item =? id p) (L ++ [p])%list = true).
        { rewrite List.existsb_app. simpl. now rewrite Z.eqb_refl, orb_true_r. }
        now rewrite E'.
      + rewrite (save_not_writable _ _ _ W) in Es. injection Es as <- <-.
        split; [now exists L|]. split; [|split; [exact Hc|discriminate]].
        unfold addToQuote. rewrite HL. cbv zeta. rewrite E. simpl negb. cbv iota.
        now rewrite (save_not_writable _ _ _ W). }
  assert (Hrem : forall i, exists l st',
    removeFromQuote now i st = Returns (l, st') /\ unique_ids l /\
    (exists L', loadQuoteList st' = DProducts L' /\ unique_ids L') /\
    l = List.filter (fun item => negb (id item =? i)) L /\
    (L = [] -> loadQuoteList st' = DProducts [])).
  { intros i. unfold removeFromQuote. rewrite HL. cbv zeta.
    set (l := List.filter (fun item => negb (id item =? i)) L).
    pose proof (load_after_save now l st) as Hload.
    destruct (saveQuoteList now l st) as [ok st'].
    simpl in Hload.
    assert (HU' : unique_ids l) by now apply unique_ids_filter.
    exists l, st'. split; [reflexivity|]. split; [exact HU'|].
    destruct (writable st).
    - split; [now exists l|]. split; [reflexivity|]. intros ->. exact Hload.
    - rewrite HL in Hload. split; [now exists L|]. split; [reflexivity|].
      intros ->. exact Hload. }
  split; [|split; [|split; [|split]]].
  - intros p. destruct (Hadd p) as (l & st' & H1 & H2 & H3 & _). now exists l, st'.
  - intros i. destruct (Hrem i) as (l & st' & H1 & H2 & H3 & _). now exists l, st'.
  - unfold clearQuote. rewrite load_after_save.
    destruct (writable st).
    + exists []. split; [reflexivity|]. apply NoDup_nil. exact I.
    + now exists L.
  - intros p. destruct (Hadd p) as (l & st' & H1 & _ & _ & H4 & H5 & H6). now exists l, st'.
  - intros -> i. destruct (Hrem i) as (l & st' & H1 & _ & _ & H4 & H5).
    simpl in H4. subst l. exists st'. split; [exact H1|]. now apply H5.
Qed.

Lemma quote_ledger_unique_ids_witness :
  loadQuoteList demo_store = DProducts [demo_phone] /\
  unique_ids [demo_phone] /\
  exists l st',
    addToQuote "2024-05-01T10:00:00.000Z" demo_shirt demo_store = Returns (l, st') /\
    addToQuote "2024-05-01T10:00:05.000Z" demo_shirt st' = Returns (l, st') /\
    count_id (id demo_shirt) l = 1%nat.
Proof.
  assert (H1 : loadQuoteList demo_store = DProducts [demo_phone]) by reflexivity.
  assert (H2 : unique_ids [demo_phone]).
  { unfold unique_ids. simpl. apply NoDup_singleton. }
  split; [exact H1|]. split; [exact H2|].
  destruct (quote_ledger_unique_ids "2024-05-01T10:00:00.000Z" "2024-05-01T10:00:05.000Z"
              demo_store [demo_phone] H1 H2) as (_ & _ & _ & Hadd & _).
  destruct (Hadd demo_shirt) as (l & st' & A & B & C & _).
  exists l, st'. auto.
Defined.

(** ** exportQuoteData *)

(** The text of an object of four members, indented by two spaces. *)
Lemma four_members (k1 k2 k3 k4 : string) (v1 v2 v3 v4 : JSON.json) :
  JSON.stringify (JSON.JObject [(k1, v1); (k2, v2); (k3, v3); (k4, v4)]) 2
  = lines ["{";
           member k1 (JSON.serialize "  " "  " v1) ++ ",";
           member k2 (JSON.serialize "  " "  " v2) ++ ",";
           member k3 (JSON.serialize "  " "  " v3) ++ ",";
           member k4 (JSON.serialize "  " "  " v4);
           "}"].
Proof.
  unfold JSON.stringify. cbn [Nat.min JSON.spaces JSON.serialize List.map fst snd].
  unfold JSON.wrap, lines, member.
  cbn [JSON.join String.eqb Ascii.eqb Bool.eqb].
  rewrite !append_assoc. reflexivity.
Qed.

(** C6, as stated, fails on a table that maps the currency to the rate 0:
    the entry is present, yet the exported [exchangeRate] is 1, and the text
    differs from the serialization of the object with [exchangeRate: 0]. *)
Lemma exportQuoteData_zero_rate_is_one :
  zero_rate_table !! "EUR" = Some 0%float /\
  exportData "EUR" zero_rate_table "2024-05-01T10:00:00.000Z" empty_store =
    JSON.JObject [("currency", JSON.JString "EUR");
                  ("timestamp", JSON.JString "2024-05-01T10:00:00.000Z");
                  ("items", JSON.JArray []);
                  ("exchangeRate", JSON.JNumber 1)] /\
  String.eqb
    (exportQuoteData "EUR" zero_rate_table "2024-05-01T10:00:00.000Z" empty_store)
    (JSON.stringify
       (spec_exportData "EUR" zero_rate_table "2024-05-01T10:00:00.000Z" empty_store) 2)
  = false.
Proof. split; [reflexivity|]. split; [reflexivity|]. vm_compute. reflexivity. Qed.

(** C6 (amended): for every rate table [R] and every currency [c] that [R]
    has an entry of its own for or that is not the name of a property of
    [Object.prototype], [exportQuoteData(c, R)] is the JSON text, indented
    by two spaces, of exactly the object with the four fields
    [currency: c], [timestamp: now], [items]: the persisted quote list, and
    [exchangeRate]: [R[c]] when [R] has a rate for [c] that is neither zero
    nor [NaN], and 1 otherwise. The text has six lines: the two braces and
    one line for each field, in this order. On an empty ledger with
    currency "EUR" and rate 0.92, at a sample instant, it is the document
    of the specification. *)
Theorem exportQuoteData_shape (c : string) (R : rates) (now : string) (st : Storage) :
  (R !! c = None -> Object.inherits c = false) ->
  let rate := match R !! c with
              | Some r => if PrimFloat.is_zero r || PrimFloat.is_nan r
                          then 1%float else r
              | None => 1%float
              end in
  exportQuoteData c R now st =
    JSON.stringify
      (JSON.JObject
         [("currency", JSON.JString c);
          ("timestamp", JSON.JString now);
          ("items", document_json (loadQuoteList st));
          ("exchangeRate", JSON.JNumber rate)]) 2 /\
  exportQuoteData c R now st =
    lines ["{";
           member "currency" (JSON.quote c) ++ ",";
           member "timestamp" (JSON.quote now) ++ ",";
           member "items"
             (JSON.serialize "  " "  " (document_json (loadQuoteList st))) ++ ",";
           member "exchangeRate"
             (if PrimFloat.is_finite rate then NumberToString.toString rate else "null");
           "}"] /\
  exportQuoteData "EUR" fallback_rates "2024-05-01T10:00:00.000Z" empty_store =
    lines ["{";
           member "currency" (JSON.quote "EUR") ++ ",";
           member "timestamp" (JSON.quote "2024-05-01T10:00:00.000Z") ++ ",";
           member "items" "[]" ++ ",";
           member "exchangeRate" "0.92";
           "}"].
Proof.
  intros Hc rate.
  assert (E : exportData c R now st =
    JSON.JObject
      [("currency", JSON.JString c);
       ("timestamp", JSON.JString now);
       ("items", document_json (loadQuoteList st));
       ("exchangeRate", JSON.JNumber rate)]).
  { unfold exportData, rate_or_one, Object.get_or, Object.get, rate, truthy_number.
    destruct (R !! c) as [r|].
    - now destruct (PrimFloat.is_zero r || PrimFloat.is_nan r).
    - now rewrite (Hc eq_refl). }
  unfold exportQuoteData. rewrite E. split; [reflexivity|]. split.
  - apply four_members.
  - vm_compute. reflexivity.
Qed.

Lemma exportQuoteData_shape_witness :
  (zero_rate_table !! "EUR" = None -> Object.inherits "EUR" = false) /\
  exportQuoteData "EUR" zero_rate_table "2024-05-01T10:00:00.000Z" demo_store =
    JSON.stringify
      (JSON.JObject
         [("currency", JSON.JString "EUR");
          ("timestamp", JSON.JString "2024-05-01T10:00:00.000Z");
          ("items", document_json (loadQuoteList demo_store));
          ("exchangeRate", JSON.JNumber 1)]) 2.
Proof.
  assert (H : zero_rate_table !! "EUR" = None -> Object.inherits "EUR" = false)
    by reflexivity.
  split; [exact H|].
  exact (proj1 (exportQuoteData_shape "EUR" zero_rate_table
                  "2024-05-01T10:00:00.000Z" demo_store H)).
Defined.

(** ** The order of binary64 numbers *)

Module IEEE_facts.
Import IEEE IEEE_sign.

Lemma digits2_size (p : positive) : digits2_pos p = Pos.size p.
Proof. induction p as [p IH|p IH|]; simpl; now rewrite ?IH. Qed.

(** [2^(d-1) <= m < 2^d] for the number [d] of binary digits of [m]. *)
Lemma digits_bounds (m : positive) :
  2 ^ (Zpos (digits2_pos m) - 1) <= Zpos m < 2 ^ Zpos (digits2_pos m).
Proof.
  rewrite digits2_size. split.
  - pose proof (Pos.size_le m) as H.
    apply Pos2Z.pos_le_pos in H. rewrite Pos2Z.inj_pow in H.
    change (Zpos m~0) with (2 * Zpos m) in H.
    replace (Zpos (Pos.size m)) with (Z.succ (Zpos (Pos.size m) - 1)) in H by lia.
    rewrite Z.pow_succ_r in H by lia. lia.
  - pose proof (Pos.size_gt m) as H.
    apply Pos2Z.pos_lt_pos in H. now rewrite Pos2Z.inj_pow in H.
Qed.

Lemma pow2_pos (k : Z) : 0 <= k -> 0 < 2 ^ k.
Proof. intros. now apply Z.pow_pos_nonneg. Qed.

Lemma pow2_le (a b : Z) : 0 <= a <= b -> 2 ^ a <= 2 ^ b.
Proof. intros. apply Z.pow_le_mono_r; lia. Qed.

(** What validity says of a finite binary64 number. *)
Lemma bounded_inv (m : positive) (e : Z) :
  bounded prec emax m e = true ->
  -1074 <= e <= 971 /\ Zpos m < 2 ^ 53 /\ (-1074 < e -> 2 ^ 52 <= Zpos m).
Proof.
  unfold bounded, canonical_mantissa, fexp, SpecFloat.emin, prec, emax.
  intros H. apply andb_true_iff in H as [H1 H2].
  apply Z.eqb_eq in H1. apply Z.leb_le in H2.
  pose proof (digits_bounds m) as [Hlo Hhi].
  set (d := Zpos (digits2_pos m)) in *.
  assert (Hd : 0 < d) by (unfold d; lia).
  split; [lia|]. split.
  - assert (d <= 53) by lia.
    pose proof (pow2_le d 53 ltac:(lia)). lia.
  - intros He. assert (d = 53) by lia. replace (d - 1) with 52 in Hlo by lia. exact Hlo.
Qed.

Lemma ord_finite_pos (m : positive) (e : Z) :
  bounded prec emax m e = true ->
  0 < Zpos m * 2 ^ (e + 1074) < 2 ^ 2100.
Proof.
  intros H. apply bounded_inv in H as (He & Hm & _).
  pose proof (pow2_pos (e + 1074) ltac:(lia)) as Hp.
  split; [lia|].
  pose proof (pow2_le (e + 1074) 2045 ltac:(lia)) as Hq.
  assert (Zpos m * 2 ^ (e + 1074) < 2 ^ 53 * 2 ^ 2045) by nia.
  replace (2 ^ 2100) with (2 ^ 53 * 2 ^ 2045 * 2 ^ 2).
  - pose proof (pow2_pos 53 ltac:(lia)). pose proof (pow2_pos 2045 ltac:(lia)).
    change (2 ^ 2) with 4. nia.
  - rewrite <- !Z.pow_add_r by lia. reflexivity.
Qed.

(** Among valid numbers a smaller exponent means a smaller magnitude. *)
Lemma ord_exponent_lt (m1 m2 : positive) (e1 e2 : Z) :
  bounded prec emax m1 e1 = true -> bounded prec emax m2 e2 = true ->
  e1 < e2 ->
  Zpos m1 * 2 ^ (e1 + 1074) < Zpos m2 * 2 ^ (e2 + 1074).
Proof.
  intros H1 H2 He.
  apply bounded_inv in H1 as (He1 & Hm1 & _).
  apply bounded_inv in H2 as (He2 & _ & Hm2).
  specialize (Hm2 ltac:(lia)).
  replace (e2 + 1074) with ((e2 - e1) + (e1 + 1074)) by lia.
  rewrite (Z.pow_add_r 2 (e2 - e1) (e1 + 1074)) by lia.
  pose proof (pow2_pos (e1 + 1074) ltac:(lia)) as Hp.
  pose proof (pow2_le 1 (e2 - e1) ltac:(lia)) as Hq. change (2 ^ 1) with 2 in Hq.
  change (2 ^ 53) with (2 * 2 ^ 52) in Hm1.
  assert (Zpos m1 < Zpos m2 * 2 ^ (e2 - e1)) by nia.
  nia.
Qed.

(** IEEE comparison of valid numbers is the comparison of their [ord]. *)
Lemma SFcompare_ord (x y : spec_float) :
  valid_binary x = true -> valid_binary y = true ->
  not_nan x -> not_nan y ->
  SFcompare x y = Some (ord x ?= ord y).
Proof.
  intros Vx Vy Nx Ny.
  assert (Hinf : 0 < 2 ^ 2100) by now apply pow2_pos.
  destruct x as [sx|sx| |sx mx ex], y as [sy|sy| |sy my ey];
    try (exfalso; apply Nx; reflexivity); try (exfalso; apply Ny; reflexivity);
    cbn [valid_binary] in Vx, Vy;
    try pose proof (ord_finite_pos mx ex Vx) as Hx;
    try pose proof (ord_finite_pos my ey Vy) as Hy;
    cbn [SFcompare ord].
  - reflexivity.
  - destruct sy; cbn [cond_Zopp]; by_order.
  - destruct sy; cbn [cond_Zopp]; by_order.
  - destruct sx; cbn [cond_Zopp]; by_order.
  - destruct sx, sy; cbn [cond_Zopp]; by_order.
  - destruct sx, sy; cbn [cond_Zopp]; by_order.
  - destruct sx; cbn [cond_Zopp]; by_order.
  - destruct sx, sy; cbn [cond_Zopp]; by_order.
  - assert (Hk : 0 < 2 ^ (ex + 1074))
      by (apply pow2_pos; apply bounded_inv in Vx; lia).
    destruct sx, sy; cbn [cond_Zopp]; try by_order.
    + destruct (Z.compare_spec ex ey) as [E|E|E].
      * subst ey. change (Pos.compare_cont Eq mx my) with (Pos.compare mx my).
        destruct (Pos.compare_spec mx my) as [E|E|E]; cbn [CompOpp]; f_equal; symmetry.
        -- subst my. apply Z.compare_refl.
        -- apply Z.compare_gt_iff. apply Pos2Z.pos_lt_pos in E. nia.
        -- apply Z.compare_lt_iff. apply Pos2Z.pos_lt_pos in E. nia.
      * pose proof (ord_exponent_lt _ _ _ _ Vx Vy E). by_order.
      * pose proof (ord_exponent_lt _ _ _ _ Vy Vx E). by_order.
    + destruct (Z.compare_spec ex ey) as [E|E|E].
      * subst ey. change (Pos.compare_cont Eq mx my) with (Pos.compare mx my).
        destruct (Pos.compare_spec mx my) as [E|E|E]; f_equal; symmetry.
        -- subst my. apply Z.compare_refl.
        -- apply Z.compare_lt_iff. apply Pos2Z.pos_lt_pos in E. nia.
        -- apply Z.compare_gt_iff. apply Pos2Z.pos_lt_pos in E. nia.
      * pose proof (ord_exponent_lt _ _ _ _ Vx Vy E). by_order.
      * pose proof (ord_exponent_lt _ _ _ _ Vy Vx E). by_order.
Qed.

(** *** The sign of a difference *)

Lemma shr_1_m (r : shr_record) : 0 <= shr_m r -> shr_m (shr_1 r) = shr_m r / 2.
Proof.
  destruct r as [m rr ss]. cbn [shr_m shr_1]. intros Hm.
  rewrite <- Z.div2_div.
  destruct m as [|p|p]; [reflexivity| |lia].
  now destruct p.
Qed.

Lemma shr_iter_m (p : positive) (r : shr_record) :
  0 <= shr_m r -> shr_m (SpecFloat.iter_pos shr_1 p r) = shr_m r / 2 ^ Zpos p.
Proof.
  revert r. induction p as [p IH|p IH|]; intros r Hr; cbn [SpecFloat.iter_pos].
  - assert (H1 : 0 <= shr_m (shr_1 r))
      by (rewrite shr_1_m by exact Hr; apply Z.div_pos; lia).
    assert (H2 : 0 <= shr_m (SpecFloat.iter_pos shr_1 p (shr_1 r)))
      by (rewrite IH by exact H1; apply Z.div_pos; [lia|now apply pow2_pos]).
    rewrite IH, IH, shr_1_m by assumption.
    pose proof (pow2_pos (Zpos p) ltac:(lia)).
    rewrite !Z.div_div by lia. f_equal.
    rewrite (Pos2Z.inj_xI p), Z.pow_add_r, Z.pow_mul_r by lia.
    change (2 ^ 2) with 4. change (2 ^ 1) with 2.
    replace (4 ^ Zpos p) with (2 ^ Zpos p * 2 ^ Zpos p); [lia|].
    rewrite <- Z.pow_mul_l. reflexivity.
  - assert (H1 : 0 <= shr_m (SpecFloat.iter_pos shr_1 p r))
      by (rewrite IH by exact Hr; apply Z.div_pos; [lia|now apply pow2_pos]).
    rewrite IH, IH by assumption.
    pose proof (pow2_pos (Zpos p) ltac:(lia)).
    rewrite Z.div_div by lia. f_equal.
    rewrite (Pos2Z.inj_xO p), Z.pow_mul_r by lia.
    change (2 ^ 2) with 4.
    rewrite <- Z.pow_mul_l. reflexivity.
  - rewrite shr_1_m by exact Hr. reflexivity.
Qed.

Lemma shr_record_of_loc_m (m : Z) (l : location) : shr_m (shr_record_of_loc m l) = m.
Proof. destruct l as [|[]]; reflexivity. Qed.

(** Shifting a positive mantissa down to its canonical exponent leaves a
    positive mantissa, and the exponent stays in range. *)
Lemma shr_fexp_pos (m e : Z) (l : location) :
  0 < m -> -1074 <= e ->
  0 < shr_m (fst (shr_fexp prec emax m e l)) /\ -1074 <= snd (shr_fexp prec emax m e l).
Proof.
  intros Hm He. unfold shr_fexp, shr.
  destruct m as [|p|p]; try lia. cbn [Zdigits2].
  pose proof (digits_bounds p) as [Hlo _].
  set (d := Zpos (digits2_pos p)) in *.
  assert (Hd : 0 < d) by (unfold d; lia).
  assert (Hn : fexp prec emax (d + e) - e <= d - 1)
    by (unfold fexp, SpecFloat.emin, prec, emax; lia).
  destruct (fexp prec emax (d + e) - e) as [|n|n] eqn:En; cbn [fst snd];
    rewrite ?shr_record_of_loc_m; try (split; lia).
  rewrite shr_iter_m by (rewrite shr_record_of_loc_m; lia).
  rewrite shr_record_of_loc_m. split; [|lia].
  apply Z.div_str_pos. split; [now apply pow2_pos|].
  pose proof (pow2_le (Zpos n) (d - 1) ltac:(lia)). lia.
Qed.

Lemma round_nearest_even_ge (m : Z) (l : location) : m <= round_nearest_even m l.
Proof.
  destruct l as [|[]]; cbn [round_nearest_even]; try lia.
  destruct (Z.even m); lia.
Qed.

Lemma binary_round_aux_signed (s : bool) (m e : Z) (l : location) :
  0 < m -> -1074 <= e -> signed s (binary_round_aux prec emax s m e l).
Proof.
  intros Hm He. unfold binary_round_aux.
  pose proof (shr_fexp_pos m e l Hm He) as [H1 H2].
  destruct (shr_fexp prec emax m e l) as [r1 e1]. cbn [fst snd] in H1, H2.
  pose proof (round_nearest_even_ge (shr_m r1) (loc_of_shr_record r1)) as Hr.
  pose proof (shr_fexp_pos (round_nearest_even (shr_m r1) (loc_of_shr_record r1)) e1
                loc_Exact ltac:(lia) H2) as [H3 _].
  destruct (shr_fexp prec emax (round_nearest_even (shr_m r1) (loc_of_shr_record r1)) e1
              loc_Exact) as [r2 e2].
  cbn [fst] in H3.
  destruct (shr_m r2) as [|q|q]; try lia.
  destruct (e2 <=? emax - prec); now destruct s.
Qed.

Lemma iter_xO_value (m d : positive) : Zpos (Pos.iter xO m d) = Zpos m * 2 ^ Zpos d.
Proof.
  induction d as [|d IH] using Pos.peano_ind.
  - cbn [Pos.iter]. change (2 ^ 1) with 2. lia.
  - rewrite Pos.iter_succ, (Pos2Z.inj_xO (Pos.iter xO m d)), IH, Pos2Z.inj_succ,
      Z.pow_succ_r by lia. lia.
Qed.

Lemma shl_align_spec (m : positive) (e e' : Z) :
  e' <= e ->
  Zpos (fst (shl_align m e e')) = Zpos m * 2 ^ (e - e') /\
  snd (shl_align m e e') = e'.
Proof.
  intros H. unfold shl_align.
  destruct (e' - e) as [|d|d] eqn:E; cbn [fst snd]; try lia.
  - replace (e - e') with 0 by lia. split; lia.
  - rewrite iter_xO_value. replace (e - e') with (Zpos d) by lia. split; lia.
Qed.

Lemma binary_round_signed (s : bool) (m : positive) (e : Z) :
  -1074 <= e -> signed s (binary_round prec emax s m e).
Proof.
  intros He. unfold binary_round.
  set (e' := fexp prec emax (Zpos (digits2_pos m) + e)).
  assert (He' : -1074 <= e') by (unfold e', fexp, SpecFloat.emin, prec, emax; lia).
  destruct (shl_align m e e') as [mz ez] eqn:E.
  apply binary_round_aux_signed; [lia|].
  unfold shl_align in E. destruct (e' - e); injection E as <- <-; lia.
Qed.

Lemma binary_normalize_signed (d e : Z) :
  -1074 <= e -> d <> 0 -> signed (d <? 0) (binary_normalize prec emax d e false).
Proof.
  intros He Hd. destruct d as [|p|p]; [lia| |]; cbn [binary_normalize].
  - now apply binary_round_signed.
  - now apply binary_round_signed.
Qed.

(** The difference of two valid numbers has the sign of the difference of
    their [ord]: rounding never takes a non-zero difference to zero. *)
Lemma SFsub_sign (x y : spec_float) :
  valid_binary x = true -> valid_binary y = true ->
  not_nan x -> not_nan y ->
  ord x <> ord y ->
  signed (ord x <? ord y) (SF64sub x y).
Proof.
  intros Vx Vy Nx Ny Hne.
  assert (Hinf : 0 < 2 ^ 2100) by now apply pow2_pos.
  destruct x as [sx|sx| |sx mx ex], y as [sy|sy| |sy my ey];
    try (exfalso; apply Nx; reflexivity); try (exfalso; apply Ny; reflexivity);
    cbn [valid_binary] in Vx, Vy;
    try pose proof (ord_finite_pos mx ex Vx) as Hx;
    try pose proof (ord_finite_pos my ey Vy) as Hy;
    cbn [ord] in Hne |- *; unfold SF64sub; cbn [SFsub].
  - now destruct Hne.
  - destruct sy; cbn [cond_Zopp] in *.
    + replace (0 <? - 2 ^ 2100) with false by (symmetry; apply Z.ltb_ge; lia). exact I.
    + replace (0 <? 2 ^ 2100) with true by (symmetry; apply Z.ltb_lt; lia). exact I.
  - destruct sy; cbn [cond_Zopp] in *.
    + replace (0 <? _) with false by (symmetry; apply Z.ltb_ge; lia). exact I.
    + replace (0 <? _) with true by (symmetry; apply Z.ltb_lt; lia). exact I.
  - destruct sx; cbn [cond_Zopp] in *.
    + replace (_ <? 0) with true by (symmetry; apply Z.ltb_lt; lia). exact I.
    + replace (_ <? 0) with false by (symmetry; apply Z.ltb_ge; lia). exact I.
  - destruct sx, sy; cbn [cond_Zopp] in *; try (now destruct Hne).
    + replace (_ <? _) with true by (symmetry; apply Z.ltb_lt; lia). exact I.
    + replace (_ <? _) with false by (symmetry; apply Z.ltb_ge; lia). exact I.
  - destruct sx, sy; cbn [cond_Zopp] in *.
    + replace (_ <? _) with true by (symmetry; apply Z.ltb_lt; lia). exact I.
    + replace (_ <? _) with true by (symmetry; apply Z.ltb_lt; lia). exact I.
    + replace (_ <? _) with false by (symmetry; apply Z.ltb_ge; lia). exact I.
    + replace (_ <? _) with false by (symmetry; apply Z.ltb_ge; lia). exact I.
  - destruct sx; cbn [cond_Zopp] in *.
    + replace (_ <? 0) with true by (symmetry; apply Z.ltb_lt; lia). exact I.
    + replace (_ <? 0) with false by (symmetry; apply Z.ltb_ge; lia). exact I.
  - destruct sx, sy; cbn [cond_Zopp negb] in *.
    + replace (_ <? _) with false by (symmetry; apply Z.ltb_ge; lia). exact I.
    + replace (_ <? _) with true by (symmetry; apply Z.ltb_lt; lia). exact I.
    + replace (_ <? _) with false by (symmetry; apply Z.ltb_ge; lia). exact I.
    + replace (_ <? _) with true by (symmetry; apply Z.ltb_lt; lia). exact I.
  - pose proof (bounded_inv mx ex Vx) as (Hex & _).
    pose proof (bounded_inv my ey Vy) as (Hey & _).
    set (ez := Z.min ex ey).
    destruct (shl_align_spec mx ex ez ltac:(lia)) as [Ax _].
    destruct (shl_align_spec my ey ez ltac:(lia)) as [Ay _].
    set (d := cond_Zopp sx (Zpos (fst (shl_align mx ex ez))) -
              cond_Zopp sy (Zpos (fst (shl_align my ey ez)))).
    assert (Hk : 0 < 2 ^ (ez + 1074)) by (apply pow2_pos; lia).
    assert (Hd : cond_Zopp sx (Zpos mx * 2 ^ (ex + 1074)) -
                 cond_Zopp sy (Zpos my * 2 ^ (ey + 1074)) = d * 2 ^ (ez + 1074)).
    { unfold d. rewrite Ax, Ay.
      replace (ex + 1074) with ((ex - ez) + (ez + 1074)) by lia.
      replace (ey + 1074) with ((ey - ez) + (ez + 1074)) by lia.
      rewrite (Z.pow_add_r 2 (ex - ez)), (Z.pow_add_r 2 (ey - ez)) by lia.
      destruct sx, sy; cbn [cond_Zopp]; ring. }
    assert (Hd0 : d <> 0) by (intros E; rewrite E in Hd; lia).
    replace (cond_Zopp sx (Zpos mx * 2 ^ (ex + 1074)) <?
             cond_Zopp sy (Zpos my * 2 ^ (ey + 1074))) with (d <? 0).
    + apply binary_normalize_signed; [lia|exact Hd0].
    + destruct (Z.ltb_spec d 0); symmetry; [apply Z.ltb_lt|apply Z.ltb_ge]; nia.
Qed.

End IEEE_facts.

(** *** Primitive floats *)

Module Float_order.
Import IEEE IEEE_sign IEEE_facts.

Lemma is_nan_not_nan (a : float) : PrimFloat.is_nan a = false -> not_nan (Prim2SF a).
Proof.
  unfold PrimFloat.is_nan. rewrite FloatAxioms.eqb_spec. intros H E.
  rewrite E in H. discriminate H.
Qed.

(** Numbers that are not [==] have different keys. *)
Lemma eqb_false_key (a b : float) :
  PrimFloat.is_nan a = false -> PrimFloat.is_nan b = false ->
  (a =? b)%float = false -> key a <> key b.
Proof.
  intros Ha Hb. rewrite FloatAxioms.eqb_spec. unfold SFeqb, key.
  rewrite (SFcompare_ord _ _ (Prim2SF_valid a) (Prim2SF_valid b)
             (is_nan_not_nan a Ha) (is_nan_not_nan b Hb)).
  intros H E. rewrite E, Z.compare_refl in H. discriminate H.
Qed.

(** [a - b > 0] exactly when [a] is the greater, for numbers that differ. *)
Lemma sub_positive_key (a b : float) :
  PrimFloat.is_nan a = false -> PrimFloat.is_nan b = false ->
  key a <> key b ->
  (0 <? a - b)%float = (key b <? key a).
Proof.
  intros Ha Hb Hne.
  rewrite FloatAxioms.ltb_spec, FloatAxioms.sub_spec.
  change (Prim2SF 0) with (S754_zero false).
  pose proof (SFsub_sign _ _ (Prim2SF_valid a) (Prim2SF_valid b)
                (is_nan_not_nan a Ha) (is_nan_not_nan b Hb) Hne) as Hs.
  fold (key a) in Hs. fold (key b) in Hs. unfold signed in Hs.
  destruct (Z.ltb_spec (key a) (key b)) as [Hlt|Hge].
  - replace (key b <? key a) with false by (symmetry; apply Z.ltb_ge; lia).
    destruct (SF64sub (Prim2SF a) (Prim2SF b)) as [s|s| |s m e]; try destruct Hs;
      destruct s; try destruct Hs; reflexivity.
  - replace (key b <? key a) with true by (symmetry; apply Z.ltb_lt; unfold key in *; lia).
    destruct (SF64sub (Prim2SF a) (Prim2SF b)) as [s|s| |s m e]; try destruct Hs;
      destruct s; try destruct Hs; reflexivity.
Qed.

End Float_order.

(** ** Array.prototype.sort *)

Section Sort_facts.

Context {A : Type}.
Variable comparefn : A -> A -> float.
Variable k : A -> Z.

Lemma insert_Permutation (x : A) (s : list A) :
  Permutation (Array.insert comparefn x s) (x :: s).
Proof.
  induction s as [|y s IH]; cbn [Array.insert]; [reflexivity|].
  destruct (Array.after comparefn x y); [|reflexivity].
  rewrite IH. apply perm_swap.
Qed.

Lemma sort_Permutation (l : list A) : Permutation (Array.sort comparefn l) l.
Proof.
  induction l as [|x l IH]; [reflexivity|].
  change (Array.sort comparefn (x :: l))
    with (Array.insert comparefn x (Array.sort comparefn l)).
  now rewrite insert_Permutation, IH.
Qed.

Lemma insert_sorted (x : A) (s : list A) :
  StronglySorted (fun a b => k a < k b) s ->
  Forall (by_key comparefn k x) s ->
  StronglySorted (fun a b => k a < k b) (Array.insert comparefn x s).
Proof.
  induction s as [|y s IH]; cbn [Array.insert]; intros Hs Hx.
  - repeat constructor.
  - apply StronglySorted_cons in Hs as [Hy Hs].
    apply Forall_cons in Hx as [[Hne Hc] Hx].
    rewrite Hc. destruct (Z.ltb_spec (k y) (k x)) as [Hlt|Hge].
    + apply StronglySorted_cons. split; [|now apply IH].
      rewrite insert_Permutation. now constructor.
    + apply StronglySorted_cons. split; [|now apply StronglySorted_cons].
      constructor; [lia|].
      eapply Forall_impl; [exact Hy|]. intros z Hz. simpl in Hz. lia.
Qed.

(** On a list the comparator orders by distinct keys, [sort] returns the
    arrangement with increasing keys. *)
Lemma sort_sorted (l : list A) :
  ForallOrdPairs (by_key comparefn k) l ->
  StronglySorted (fun a b => k a < k b) (Array.sort comparefn l).
Proof.
  induction l as [|x l IH]; intros H.
  - constructor.
  - change (Array.sort comparefn (x :: l))
      with (Array.insert comparefn x (Array.sort comparefn l)).
    inversion H as [|? ? Hx Hl]; subst.
    apply insert_sorted; [now apply IH|].
    now rewrite sort_Permutation.
Qed.

End Sort_facts.

Lemma StronglySorted_rev {A : Type} (R : A -> A -> Prop) (l : list A) :
  StronglySorted R l -> StronglySorted (fun a b => R b a) (List.rev l).
Proof.
  induction l as [|x l IH]; intros H; cbn [List.rev]; [constructor|].
  apply StronglySorted_cons in H as [Hx Hl].
  apply StronglySorted_app. split; [|split].
  - intros a b Ha Hb. apply list_elem_of_singleton in Hb. subst b.
    rewrite Forall_forall in Hx. apply Hx.
    apply list_elem_of_In in Ha. apply List.in_rev in Ha. now apply list_elem_of_In.
  - now apply IH.
  - repeat constructor.
Qed.

Lemma StronglySorted_weaken {A : Type} (R S : A -> A -> Prop) (l : list A) :
  (forall a b, R a b -> S a b) -> StronglySorted R l -> StronglySorted S l.
Proof.
  intros HRS H. induction H as [|x l Hl IH Hx]; constructor; [exact IH|].
  eapply Forall_impl; [exact Hx|]. intros y. apply HRS.
Qed.

(** ** sortProducts *)

Import IEEE Float_order.

Lemma distinct_prices_asc (l : list Product) :
  distinct_prices l ->
  ForallOrdPairs (by_key (fun a b => price a - price b)%float price_key) l.
Proof.
  intros [Hn Hd]. induction Hd as [|x l Hx Hl IH]; [constructor|].
  apply Forall_cons in Hn as [Hnx Hn].
  constructor; [|now apply IH].
  rewrite Forall_forall in Hx, Hn. apply Forall_forall. intros y Hy.
  assert (Hk : key (price x) <> key (price y))
    by (apply eqb_false_key; auto).
  split; [exact Hk|].
  unfold Array.after, price_key. apply sub_positive_key; auto.
Qed.

Lemma distinct_prices_desc (l : list Product) :
  distinct_prices l ->
  ForallOrdPairs
    (by_key (fun a b => price b - price a)%float (fun p => - price_key p)) l.
Proof.
  intros [Hn Hd]. induction Hd as [|x l Hx Hl IH]; [constructor|].
  apply Forall_cons in Hn as [Hnx Hn].
  constructor; [|now apply IH].
  rewrite Forall_forall in Hx, Hn. apply Forall_forall. intros y Hy.
  assert (Hk : key (price x) <> key (price y))
    by (apply eqb_false_key; auto).
  split; [unfold price_key; lia|].
  unfold Array.after, price_key.
  rewrite sub_positive_key by auto.
  destruct (Z.ltb_spec (key (price x)) (key (price y)));
    symmetry; [apply Z.ltb_lt|apply Z.ltb_ge]; lia.
Qed.

(** Without ties, sorting by [a.price - b.price] and by [b.price - a.price]
    give reverse arrangements. *)
Lemma sort_price_reverse (l : list Product) :
  distinct_prices l ->
  Array.sort (fun a b => price a - price b)%float l =
  List.rev (Array.sort (fun a b => price b - price a)%float l).
Proof.
  intros H.
  pose proof (sort_sorted _ _ _ (distinct_prices_asc l H)) as Hasc.
  pose proof (sort_sorted _ _ _ (distinct_prices_desc l H)) as Hdesc.
  apply StronglySorted_rev in Hdesc.
  eapply (StronglySorted_unique_strong (fun a b => price_key a < price_key b)).
  - intros x y _ _ Hxy Hyx. lia.
  - exact Hasc.
  - eapply StronglySorted_weaken; [|exact Hdesc].
    intros a b Hab. simpl in Hab. lia.
  - rewrite sort_Permutation. rewrite <- Permutation_rev.
    now rewrite sort_Permutation.
Qed.

(** C8: for every product sequence whose prices are numbers and pairwise
    distinct (no ties), [sortProducts(products, "price-asc")] is the exact
    reverse of [sortProducts(products, "price-desc")]; the same holds of
    [ProductCollection.sort]. *)
Theorem sortProducts_price_reverse (localeCompare : string -> string -> float)
    (products : list Product) :
  distinct_prices products ->
  filterService.sortProducts localeCompare products "price-asc" =
    List.rev (filterService.sortProducts localeCompare products "price-desc") /\
  ProductCollection.sort localeCompare products "price-asc" =
    List.rev (ProductCollection.sort localeCompare products "price-desc").
Proof.
  intros H. split; apply (sort_price_reverse products H).
Qed.

Lemma sortProducts_price_reverse_witness :
  distinct_prices [demo_phone; demo_shirt; demo_ring] /\
  filterService.sortProducts (fun _ _ => 0%float) [demo_phone; demo_shirt; demo_ring] "price-asc"
  = List.rev (filterService.sortProducts (fun _ _ => 0%float)
                [demo_phone; demo_shirt; demo_ring] "price-desc").
Proof.
  assert (H : distinct_prices [demo_phone; demo_shirt; demo_ring]).
  { split.
    - repeat constructor.
    - repeat constructor. }
  split; [exact H|].
  exact (proj1 (sortProducts_price_reverse (fun _ _ => 0%float)
                  [demo_phone; demo_shirt; demo_ring] H)).
Defined.

(** ** Sample runs *)

Example filter_no_criteria :
  filterService.applyFilters ascii_host demo_catalog (mkFilters None None) = demo_catalog.
Proof. reflexivity. Qed.

Example filter_by_category :
  List.map id (filterService.applyFilters ascii_host demo_catalog
                 (mkFilters (Some "") (Some "electronics"))) = [1].
Proof. reflexivity. Qed.

(** The query is trimmed and matched without regard to case, against the
    title of the first product and the description of the third. *)
Example filter_by_search :
  List.map id (filterService.applyFilters ascii_host demo_catalog
                 (mkFilters (Some "  Phone ") (Some "all"))) = [1; 3].
Proof. vm_compute. reflexivity. Qed.

Example sort_by_price :
  List.map id (filterService.sortProducts demo_localeCompare demo_catalog "price-asc")
    = [2; 1; 3] /\
  List.map id (filterService.sortProducts demo_localeCompare demo_catalog "price-desc")
    = [3; 1; 2] /\
  filterService.sortProducts demo_localeCompare demo_catalog "newest" = demo_catalog.
Proof. repeat split; reflexivity. Qed.

(** Two products of equal price keep their order under both keys: with a
    tie the two sorts are not reverses of each other. *)
Example sort_with_a_tie :
  let twin := mkProduct 4 "Twin" 19.5 "Same price as the shirt" "misc" "x" (mkRating 0 0) in
  List.map id (filterService.sortProducts demo_localeCompare [demo_shirt; twin] "price-asc")
    = [2; 4] /\
  List.map id (filterService.sortProducts demo_localeCompare [demo_shirt; twin] "price-desc")
    = [2; 4].
Proof. split; reflexivity. Qed.

Example convert_and_format :
  convertAndFormat ascii_host (VNum 10) "EUR" (<["EUR" := 0.5%float]> ∅) = "€5.00" /\
  convertAndFormat ascii_host (VNum 299.99) "JPY" fallback_rates = "¥44,849" /\
  convertAndFormat ascii_host (VNum 299.99) "CHF" fallback_rates = "$299.99".
Proof. repeat split; vm_compute; reflexivity. Qed.

(** A query with a no-break space around it and in another case: the
    white space of [trim] is that of Unicode. A code that names a property
    of [Object.prototype] is looked up like any other. *)
Example unicode_white_space_and_inherited_names :
  List.map id (filterService.applyFilters ascii_host demo_catalog
                 (mkFilters (Some (Str.bytes [194; 160]%nat ++ "RING" ++ Str.bytes [226; 128; 137]%nat))
                    None)) = [3] /\
  filterService.applyFilters ascii_host demo_catalog
    (mkFilters (Some (Str.bytes [194; 160; 32; 227; 128; 128]%nat)) None) = demo_catalog /\
  convertPrice (VNum 10) "constructor" fallback_rates = VNum nan /\
  getCurrencySymbol "valueOf" = Object.Native "valueOf" /\
  UTF16.length "Café au lait" = 12%nat /\
  UTF16.units "😀" = [55357%N; 56832%N].
Proof. repeat split; vm_compute; reflexivity. Qed.

(** A currency that the rate table only inherits from [Object.prototype]:
    the value of [exchangeRate] is a function, which [JSON.stringify]
    leaves out, and the export has three fields. *)
Example export_inherited_name :
  exportData "toString" fallback_rates "2024-05-01T10:00:00.000Z" empty_store =
    JSON.JObject [("currency", JSON.JString "toString");
                  ("timestamp", JSON.JString "2024-05-01T10:00:00.000Z");
                  ("items", JSON.JArray [])] /\
  exportQuoteData "toString" fallback_rates "2024-05-01T10:00:00.000Z" empty_store =
    lines ["{";
           member "currency" (JSON.quote "toString") ++ ",";
           member "timestamp" (JSON.quote "2024-05-01T10:00:00.000Z") ++ ",";
           member "items" "[]";
           "}"].
Proof. split; vm_compute; reflexivity. Qed.

(** The formatter rounds the decimal the number prints as: 1.005 is
    rendered 1.01, although its binary value lies below 1.005. *)
Example format_rounds_the_decimal :
  formatPrice ascii_host (VNum 1.005) "USD" = "$1.01" /\
  formatPrice ascii_host (VNum 2.675) "EUR" = "€2.68" /\
  formatPrice ascii_host (VNum 1234567.891) "GBP" = "£1,234,567.89" /\
  formatPrice ascii_host (VNum 0.5) "JPY" = "¥1" /\
  formatPrice ascii_host (VNum 10) "toString" = "function toString() { [native code] }10.00".
Proof. repeat split; vm_compute; reflexivity. Qed.

Example number_to_string :
  NumberToString.toString 0.92 = "0.92" /\
  NumberToString.toString (0.1 + 0.2) = "0.30000000000000004" /\
  NumberToString.toString 1e21 = "1e+21" /\
  NumberToString.toString 149.50 = "149.5".
Proof. repeat split; vm_compute; reflexivity. Qed.

(** A second product joins the ledger once; a store that rejects writes
    keeps the ledger it had. *)
Example add_then_add_again :
  match addToQuote "2024-05-01T10:00:00.000Z" demo_shirt demo_store with
  | Returns (l, st) =>
      List.map id l = [1; 2] /\
      loadQuoteList st = DProducts [demo_phone; demo_shirt] /\
      addToQuote "2024-05-01T10:00:05.000Z" demo_shirt st = Returns (l, st)
  | Throws _ => False
  end /\
  match addToQuote "2024-05-01T10:00:00.000Z" demo_shirt
          (mkStorage (cells demo_store) false) with
  | Returns (l, st) =>
      List.map id l = [1; 2] /\ loadQuoteList st = DProducts [demo_phone]
  | Throws _ => False
  end.
Proof. repeat split; reflexivity. Qed.

Example remove_from_empty_ledger :
  match removeFromQuote "2024-05-01T10:00:00.000Z" 7 empty_store with
  | Returns (l, st) =>
      l = [] /\ loadQuoteList st = DProducts [] /\
      cells st !! STORAGE_KEYS.LAST_UPDATE = Some (DString "2024-05-01T10:00:00.000Z")
  | Throws _ => False
  end.
Proof. repeat split; reflexivity. Qed.

(** ** storage.js: preferences, membership and bookkeeping *)

(** A store that accepts writes can be reached and has room. *)
Lemma writable_inv (st : Storage) :
  writable st = true -> reachable st = true /\ has_room st = true.
Proof. unfold writable. intros H. now apply andb_true_iff in H. Qed.

(** A store that accepts writes, taken apart. *)
Ltac open_store st W :=
  let m := fresh "m" in
  destruct (writable_inv st W) as [? ?];
  destruct st as [m ? ?]; cbn [reachable has_room cells] in *; subst;
  clear W; assert (W : writable (Build_Storage m true true) = true) by reflexivity.

Lemma currency_key_differs :
  STORAGE_KEYS.CURRENCY <> STORAGE_KEYS.QUOTE_LIST /\
  STORAGE_KEYS.CURRENCY <> STORAGE_KEYS.LAST_UPDATE.
Proof. split; discriminate. Qed.

(** A write under one key is invisible to a read under another. *)
Lemma load_other_key (key key' : string) (v d : document) (st : Storage) :
  key <> key' ->
  loadFromStorage key' d (snd (saveToStorage key v st)) = loadFromStorage key' d st.
Proof.
  intros Hne. unfold saveToStorage, loadFromStorage.
  destruct (writable st); [|reflexivity]. simpl.
  destruct (reachable st); [|reflexivity]. now rewrite lookup_insert_ne.
Qed.

Lemma load_null_other_key (key key' : string) (v : document) (st : Storage) :
  key <> key' ->
  loadFromStorage_null key' (snd (saveToStorage key v st)) = loadFromStorage_null key' st.
Proof.
  intros Hne. unfold saveToStorage, loadFromStorage_null.
  destruct (writable st); [|reflexivity]. simpl.
  destruct (reachable st); [|reflexivity]. now rewrite lookup_insert_ne.
Qed.

(** X1: saving the currency succeeds exactly when the store accepts writes;
    then [loadCurrency] reads the saved code back, otherwise it reads what
    it read before; the quote list and the time stamp are untouched either
    way. *)
Theorem saveCurrency_loadCurrency (c : string) (st : Storage) :
  fst (saveCurrency c st) = writable st /\
  loadCurrency (snd (saveCurrency c st)) =
    (if writable st then DString c else loadCurrency st) /\
  loadQuoteList (snd (saveCurrency c st)) = loadQuoteList st /\
  getLastUpdate (snd (saveCurrency c st)) = getLastUpdate st.
Proof.
  destruct currency_key_differs as [H1 H2].
  split; [|split; [|split]].
  - unfold saveCurrency, saveToStorage. now destruct (writable st).
  - unfold saveCurrency, saveToStorage, loadCurrency, loadFromStorage.
    destruct (writable st) eqn:W; [|reflexivity].
    destruct (writable_inv st W) as [-> _]. simpl. now rewrite lookup_insert_eq.
  - unfold saveCurrency, loadQuoteList. now apply load_other_key.
  - unfold saveCurrency, getLastUpdate. now apply load_null_other_key.
Qed.

Lemma unreadable_load (key : string) (d : document) (st : Storage) :
  unreadable key st -> loadFromStorage key d st = d.
Proof.
  unfold loadFromStorage. intros [-> | [-> | ->]]; [|now destruct (reachable st)..|reflexivity].
  now destruct (reachable st).
Qed.

(** X2: on a first run, or when the stored texts do not parse, every reader
    returns its default without throwing: currency "USD", an empty quote
    list of count 0 that contains no id, no time stamp; and the first
    [addToQuote] returns the one-element list. *)
Theorem storage_defaults (now : string) (p : Product) (st : Storage) :
  unreadable STORAGE_KEYS.CURRENCY st ->
  unreadable STORAGE_KEYS.QUOTE_LIST st ->
  unreadable STORAGE_KEYS.LAST_UPDATE st ->
  loadCurrency st = DString "USD" /\
  loadQuoteList st = DProducts [] /\
  getLastUpdate st = None /\
  getQuoteCount st = 0%nat /\
  (forall i, isInQuote i st = Returns false) /\
  exists st', addToQuote now p st = Returns ([p], st').
Proof.
  intros Hc Hq Hl.
  assert (HQ : loadQuoteList st = DProducts []) by now apply unreadable_load.
  split; [now apply unreadable_load|]. split; [exact HQ|]. split.
  { unfold getLastUpdate, loadFromStorage_null.
    destruct Hl as [-> | [-> | ->]]; [now destruct (reachable st)..|reflexivity]. }
  split; [unfold getQuoteCount; now rewrite HQ|].
  split; [intros i; unfold isInQuote; now rewrite HQ|].
  unfold addToQuote. rewrite HQ. cbn [List.existsb negb app].
  destruct (saveQuoteList now [p] st) as [ok st']. now exists st'.
Qed.

Lemma storage_defaults_witness :
  unreadable STORAGE_KEYS.CURRENCY empty_store /\
  loadCurrency empty_store = DString "USD" /\
  getQuoteCount empty_store = 0%nat.
Proof.
  assert (H : forall k, unreadable k empty_store) by (intros k; left; reflexivity).
  split; [apply H|].
  destruct (storage_defaults "2024-05-01T10:00:00.000Z" demo_phone empty_store
              (H _) (H _) (H _)) as (A & _ & _ & B & _).
  split; [exact A|exact B].
Defined.

Lemma isInQuote_list (i : Z) (st : Storage) (L : list Product) :
  loadQuoteList st = DProducts L ->
  isInQuote i st = Returns (List.existsb (fun item => id item =? i) L).
Proof. intros H. unfold isInQuote. now rewrite H. Qed.

Lemma getQuoteCount_list (st : Storage) (L : list Product) :
  loadQuoteList st = DProducts L -> getQuoteCount st = List.length L.
Proof. intros H. unfold getQuoteCount. now rewrite H. Qed.

Lemma existsb_id_push (i : Z) (L : list Product) (p : Product) :
  List.existsb (fun item => id item =? i) (L ++ [p])%list
  = (List.existsb (fun item => id item =? i) L || (id p =? i))%bool.
Proof. rewrite List.existsb_app. simpl. now rewrite orb_false_r. Qed.

(** The ledger after [addToQuote] on a store that accepts writes. *)
Lemma addToQuote_writable (now : string) (p : Product) (st : Storage) (L : list Product) :
  loadQuoteList st = DProducts L ->
  writable st = true ->
  exists st',
    addToQuote now p st =
      Returns (if List.existsb (fun item => id item =? id p) L then L else (L ++ [p])%list, st') /\
    loadQuoteList st' =
      DProducts (if List.existsb (fun item => id item =? id p) L then L else (L ++ [p])%list) /\
    writable st' = true /\
    getLastUpdate st' =
      (if List.existsb (fun item => id item =? id p) L then getLastUpdate st
       else Some (DString now)) /\
    loadCurrency st' = loadCurrency st.
Proof.
  intros HL W. open_store st W. unfold addToQuote. rewrite HL. cbv zeta.
  destruct (List.existsb (fun item => id item =? id p) L); cbn [negb].
  - eexists. auto.
  - pose proof (load_after_save now (L ++ [p])%list (Build_Storage m true true)) as Hload.
    rewrite W in Hload.
    unfold saveQuoteList, saveToStorage in *. cbn in Hload |- *.
    eexists. split; [reflexivity|]. split; [exact Hload|]. split; [reflexivity|].
    split.
    + unfold getLastUpdate, loadFromStorage_null. cbn. now rewrite lookup_insert_eq.
    + unfold loadCurrency, loadFromStorage. cbn.
      now rewrite !lookup_insert_ne by discriminate.
Qed.

(** X3: on a store that accepts writes, after [addToQuote(p)] the product
    is in the quote, the membership of every other id is as before, and the
    count has grown by one exactly when [p.id] was not in the quote. *)
Theorem addToQuote_isInQuote (now : string) (p : Product) (st : Storage) (L : list Product) :
  loadQuoteList st = DProducts L ->
  writable st = true ->
  exists l st',
    addToQuote now p st = Returns (l, st') /\
    isInQuote (id p) st' = Returns true /\
    (forall j, j <> id p -> isInQuote j st' = isInQuote j st) /\
    getQuoteCount st' =
      (if List.existsb (fun item => id item =? id p) L
       then List.length L else S (List.length L)).
Proof.
  intros HL W.
  destruct (addToQuote_writable now p st L HL W) as (st' & Ha & Hl & _).
  eexists. exists st'. split; [exact Ha|].
  rewrite (getQuoteCount_list _ _ Hl), (isInQuote_list _ _ _ Hl).
  destruct (List.existsb (fun item => id item =? id p) L) eqn:E.
  - split; [now rewrite E|]. split; [|reflexivity].
    intros j _. now rewrite (isInQuote_list _ _ _ Hl), (isInQuote_list _ _ _ HL).
  - split; [rewrite existsb_id_push, Z.eqb_refl; now rewrite orb_true_r|].
    split.
    + intros j Hj. rewrite (isInQuote_list _ _ _ Hl), (isInQuote_list _ _ _ HL).
      rewrite existsb_id_push.
      replace (id p =? j) with false by (symmetry; apply Z.eqb_neq; congruence).
      now rewrite orb_false_r.
    + rewrite List.length_app. simpl. lia.
Qed.

Lemma addToQuote_isInQuote_witness :
  loadQuoteList demo_store = DProducts [demo_phone] /\
  writable demo_store = true /\
  exists l st',
    addToQuote "2024-05-01T10:00:00.000Z" demo_shirt demo_store = Returns (l, st') /\
    isInQuote 2 st' = Returns true /\ getQuoteCount st' = 2%nat.
Proof.
  split; [reflexivity|]. split; [reflexivity|].
  destruct (addToQuote_isInQuote "2024-05-01T10:00:00.000Z" demo_shirt demo_store
              [demo_phone] eq_refl eq_refl) as (l & st' & A & B & _ & C).
  exists l, st'. auto.
Defined.

(** The ledger after [removeFromQuote] on a store that accepts writes. *)
Lemma removeFromQuote_writable (now : string) (i : Z) (st : Storage) (L : list Product) :
  loadQuoteList st = DProducts L ->
  writable st = true ->
  exists st',
    removeFromQuote now i st =
      Returns (List.filter (fun item => negb (id item =? i)) L, st') /\
    loadQuoteList st' = DProducts (List.filter (fun item => negb (id item =? i)) L) /\
    writable st' = true /\
    getLastUpdate st' = Some (DString now) /\
    loadCurrency st' = loadCurrency st.
Proof.
  intros HL W. open_store st W. unfold removeFromQuote. rewrite HL. cbv zeta.
  pose proof (load_after_save now (List.filter (fun item => negb (id item =? i)) L)
                (Build_Storage m true true)) as Hload.
  rewrite W in Hload.
  unfold saveQuoteList, saveToStorage in *. cbn in Hload |- *.
  eexists. split; [reflexivity|]. split; [exact Hload|]. split; [reflexivity|].
  split.
  - unfold getLastUpdate, loadFromStorage_null. cbn. now rewrite lookup_insert_eq.
  - unfold loadCurrency, loadFromStorage. cbn.
    now rewrite !lookup_insert_ne by discriminate.
Qed.

Lemma existsb_id_filter (i j : Z) (L : list Product) :
  List.existsb (fun item => id item =? j)
    (List.filter (fun item => negb (id item =? i)) L)
  = (negb (i =? j) && List.existsb (fun item => id item =? j) L)%bool.
Proof.
  induction L as [|x L IH]; simpl; [now rewrite andb_false_r|].
  destruct (id x =? i) eqn:E; simpl.
  - rewrite IH. apply Z.eqb_eq in E. rewrite E.
    destruct (i =? j); simpl; [reflexivity|]. reflexivity.
  - rewrite IH. destruct (id x =? j) eqn:E'; simpl; [|reflexivity].
    apply Z.eqb_eq in E'. apply Z.eqb_neq in E.
    replace (i =? j) with false by (symmetry; apply Z.eqb_neq; congruence).
    reflexivity.
Qed.

(** X4: on a store that accepts writes, after [removeFromQuote(id)] the id
    is no longer in the quote, the membership of every other id is as
    before, and the count has dropped by the number of entries of that id. *)
Theorem removeFromQuote_isInQuote (now : string) (i : Z) (st : Storage) (L : list Product) :
  loadQuoteList st = DProducts L ->
  writable st = true ->
  exists l st',
    removeFromQuote now i st = Returns (l, st') /\
    isInQuote i st' = Returns false /\
    (forall j, j <> i -> isInQuote j st' = isInQuote j st) /\
    (getQuoteCount st' + count_id i L = List.length L)%nat.
Proof.
  intros HL W.
  destruct (removeFromQuote_writable now i st L HL W) as (st' & Hr & Hl & _).
  eexists. exists st'. split; [exact Hr|].
  rewrite (getQuoteCount_list _ _ Hl), (isInQuote_list _ _ _ Hl).
  split; [|split].
  - rewrite existsb_id_filter, Z.eqb_refl. reflexivity.
  - intros j Hj. rewrite (isInQuote_list _ _ _ Hl), (isInQuote_list _ _ _ HL).
    rewrite existsb_id_filter.
    replace (i =? j) with false by (symmetry; apply Z.eqb_neq; congruence).
    reflexivity.
  - unfold count_id. clear. induction L as [|x L IH]; simpl; [reflexivity|].
    destruct (id x =? i); simpl; lia.
Qed.

Lemma removeFromQuote_isInQuote_witness :
  loadQuoteList demo_store = DProducts [demo_phone] /\
  writable demo_store = true /\
  exists l st',
    removeFromQuote "2024-05-01T10:00:00.000Z" 1 demo_store = Returns (l, st') /\
    isInQuote 1 st' = Returns false.
Proof.
  split; [reflexivity|]. split; [reflexivity|].
  destruct (removeFromQuote_isInQuote "2024-05-01T10:00:00.000Z" 1 demo_store
              [demo_phone] eq_refl eq_refl) as (l & st' & A & B & _).
  exists l, st'. auto.
Defined.

Lemma filter_absent_id (i : Z) (L : list Product) :
  List.existsb (fun item => id item =? i) L = false ->
  List.filter (fun item => negb (id item =? i)) L = L.
Proof.
  induction L as [|x L IH]; simpl; [reflexivity|].
  destruct (id x =? i); simpl; [discriminate|]. intros H. now rewrite IH.
Qed.

(** X5: adding a product that was not in the quote and then removing its
    id gives back the quote list as it was (on a store that accepts
    writes). *)
Theorem addToQuote_removeFromQuote (now now' : string) (p : Product) (st : Storage)
    (L : list Product) :
  loadQuoteList st = DProducts L ->
  writable st = true ->
  List.existsb (fun item => id item =? id p) L = false ->
  exists l st' st'',
    addToQuote now p st = Returns (l, st') /\
    removeFromQuote now' (id p) st' = Returns (L, st'') /\
    loadQuoteList st'' = DProducts L.
Proof.
  intros HL W E.
  destruct (addToQuote_writable now p st L HL W) as (st' & Ha & Hl & W' & _).
  rewrite E in Ha, Hl.
  destruct (removeFromQuote_writable now' (id p) st' _ Hl W') as (st'' & Hr & Hl' & _).
  assert (HF : List.filter (fun item => negb (id item =? id p)) (L ++ [p])%list = L).
  { rewrite List.filter_app. simpl. rewrite Z.eqb_refl. simpl.
    rewrite List.app_nil_r. now apply filter_absent_id. }
  rewrite HF in Hr, Hl'.
  exists (L ++ [p])%list, st', st''. auto.
Qed.

Lemma addToQuote_removeFromQuote_witness :
  loadQuoteList demo_store = DProducts [demo_phone] /\
  writable demo_store = true /\
  exists l st' st'',
    addToQuote "2024-05-01T10:00:00.000Z" demo_shirt demo_store = Returns (l, st') /\
    removeFromQuote "2024-05-01T10:00:09.000Z" 2 st' = Returns ([demo_phone], st'').
Proof.
  split; [reflexivity|]. split; [reflexivity|].
  destruct (addToQuote_removeFromQuote "2024-05-01T10:00:00.000Z" "2024-05-01T10:00:09.000Z"
              demo_shirt demo_store [demo_phone] eq_refl eq_refl eq_refl)
    as (l & st' & st'' & A & B & _).
  exists l, st', st''. auto.
Defined.

(** X6: when the store rejects writes, no operation throws and none
    changes the store: [saveCurrency] and [clearQuote] report [false],
    [addToQuote] and [removeFromQuote] still return the list they computed,
    which the next read will not see. *)
Theorem rejected_writes_change_nothing (now : string) (st : Storage) (L : list Product) :
  writable st = false ->
  loadQuoteList st = DProducts L ->
  (forall c, saveCurrency c st = (false, st)) /\
  clearQuote now st = (false, st) /\
  isStorageAvailable st = (false, st) /\
  (forall p, exists l, addToQuote now p st = Returns (l, st)) /\
  (forall i, exists l, removeFromQuote now i st = Returns (l, st)).
Proof.
  intros W HL. split; [|split; [|split; [|split]]].
  - intros c. unfold saveCurrency, saveToStorage. now rewrite W.
  - unfold clearQuote. now apply save_not_writable.
  - unfold isStorageAvailable. now rewrite W.
  - intros p. unfold addToQuote. rewrite HL. cbv zeta.
    destruct (List.existsb (fun item => id item =? id p) L); cbn [negb].
    + now exists L.
    + rewrite (save_not_writable _ _ _ W). now eexists.
  - intros i. unfold removeFromQuote. rewrite HL. cbv zeta.
    rewrite (save_not_writable _ _ _ W). now eexists.
Qed.

Lemma rejected_writes_change_nothing_witness :
  writable (mkStorage (cells demo_store) false) = false /\
  clearQuote "2024-05-01T10:00:00.000Z" (mkStorage (cells demo_store) false)
    = (false, mkStorage (cells demo_store) false).
Proof.
  split; [reflexivity|].
  exact (proj1 (proj2 (rejected_writes_change_nothing "2024-05-01T10:00:00.000Z"
                         (mkStorage (cells demo_store) false) [demo_phone]
                         eq_refl eq_refl))).
Defined.

(** X7: the time stamp follows the writes of the quote list: on a store
    that accepts writes it is the instant of the call after
    [removeFromQuote], after [clearQuote] and after an [addToQuote] that
    added something; an [addToQuote] of a product already in the quote
    leaves it as it was. None of them changes the saved currency. *)
Theorem lastUpdate_follows_writes (now : string) (st : Storage) (L : list Product) :
  loadQuoteList st = DProducts L ->
  writable st = true ->
  (forall p, exists l st',
      addToQuote now p st = Returns (l, st') /\
      getLastUpdate st' =
        (if List.existsb (fun item => id item =? id p) L
         then getLastUpdate st else Some (DString now)) /\
      loadCurrency st' = loadCurrency st) /\
  (forall i, exists l st',
      removeFromQuote now i st = Returns (l, st') /\
      getLastUpdate st' = Some (DString now) /\
      loadCurrency st' = loadCurrency st) /\
  getLastUpdate (snd (clearQuote now st)) = Some (DString now) /\
  loadCurrency (snd (clearQuote now st)) = loadCurrency st.
Proof.
  intros HL W. split; [|split; [|split]].
  - intros p. destruct (addToQuote_writable now p st L HL W) as (st' & A & _ & _ & B & C).
    eexists. exists st'. split; [exact A|]. now split.
  - intros i. destruct (removeFromQuote_writable now i st L HL W) as (st' & A & _ & _ & B & C).
    eexists. exists st'. split; [exact A|]. now split.
  - clear HL. open_store st W.
    unfold clearQuote, saveQuoteList, saveToStorage. rewrite W. cbn.
    unfold getLastUpdate, loadFromStorage_null. cbn.
    now rewrite lookup_insert_eq.
  - clear HL. open_store st W.
    unfold clearQuote, saveQuoteList, saveToStorage. rewrite W. cbn.
    unfold loadCurrency, loadFromStorage. cbn.
    now rewrite !lookup_insert_ne by discriminate.
Qed.

Lemma lastUpdate_follows_writes_witness :
  loadQuoteList demo_store = DProducts [demo_phone] /\
  writable demo_store = true /\
  getLastUpdate (snd (clearQuote "2024-05-01T10:00:00.000Z" demo_store))
    = Some (DString "2024-05-01T10:00:00.000Z").
Proof.
  split; [reflexivity|]. split; [reflexivity|].
  exact (proj1 (proj2 (proj2 (lastUpdate_follows_writes "2024-05-01T10:00:00.000Z"
                                demo_store [demo_phone] eq_refl eq_refl)))).
Defined.

(** X8: [clearAllStorage] succeeds exactly where the store can be
    reached, also when it is full and rejects writes; where it cannot be
    reached the call reports [false] and changes nothing. After a
    successful call the currency reads "USD", the quote list is empty,
    there is no time stamp, and every entry under another key is as it
    was. The call does what three calls of [removeFromStorage] do, one for
    each key of the application; [removeFromStorage] too succeeds exactly
    where the store can be reached, and the key it removed reads as the
    default. *)
Theorem clearAllStorage_resets (st : Storage) :
  fst (clearAllStorage st) = reachable st /\
  (reachable st = false -> clearAllStorage st = (false, st)) /\
  (reachable st = true ->
     loadCurrency (snd (clearAllStorage st)) = DString "USD" /\
     loadQuoteList (snd (clearAllStorage st)) = DProducts [] /\
     getLastUpdate (snd (clearAllStorage st)) = None /\
     getQuoteCount (snd (clearAllStorage st)) = 0%nat) /\
  writable (snd (clearAllStorage st)) = writable st /\
  (forall key, ~ In key STORAGE_KEYS_values ->
     cells (snd (clearAllStorage st)) !! key = cells st !! key) /\
  snd (clearAllStorage st)
    = snd (removeFromStorage STORAGE_KEYS.LAST_UPDATE
        (snd (removeFromStorage STORAGE_KEYS.QUOTE_LIST
           (snd (removeFromStorage STORAGE_KEYS.CURRENCY st))))) /\
  (forall key defaultValue,
     fst (removeFromStorage key st) = reachable st /\
     loadFromStorage key defaultValue (snd (removeFromStorage key st)) = defaultValue).
Proof.
  assert (Hrem : forall key defaultValue,
            fst (removeFromStorage key st) = reachable st /\
            loadFromStorage key defaultValue (snd (removeFromStorage key st))
              = defaultValue).
  { intros key d. destruct st as [m h r]. unfold removeFromStorage, loadFromStorage.
    cbn [reachable]. destruct r; cbn [fst snd reachable cells]; [|now split].
    split; [reflexivity|]. now rewrite lookup_delete_eq. }
  revert Hrem. destruct st as [m h r]. intros Hrem.
  unfold clearAllStorage, STORAGE_KEYS_values.
  cbn [reachable]. destruct r.
  2:{ cbn [fst snd]. split; [reflexivity|]. split; [reflexivity|].
      split; [discriminate|]. split; [reflexivity|]. split; [reflexivity|].
      split; [reflexivity|exact Hrem]. }
  cbn [fst snd List.fold_left cells has_room reachable].
  assert (HQ : loadQuoteList
                 (Build_Storage (delete STORAGE_KEYS.LAST_UPDATE
                   (delete STORAGE_KEYS.QUOTE_LIST
                      (delete STORAGE_KEYS.CURRENCY m))) h true)
               = DProducts []).
  { unfold loadQuoteList, loadFromStorage. cbn.
    rewrite lookup_delete_ne by discriminate. now rewrite lookup_delete_eq. }
  split; [reflexivity|]. split; [discriminate|]. split.
  - intros _. split; [|split; [exact HQ|split]].
    + unfold loadCurrency, loadFromStorage. cbn.
      rewrite !lookup_delete_ne by discriminate. now rewrite lookup_delete_eq.
    + unfold getLastUpdate, loadFromStorage_null. cbn. now rewrite lookup_delete_eq.
    + unfold getQuoteCount. now rewrite HQ.
  - split; [reflexivity|]. split; [|split; [reflexivity|exact Hrem]].
    intros key Hk. cbn [cells].
    rewrite !lookup_delete_ne; [reflexivity| | |]; intros <-; apply Hk; simpl; auto.
Qed.

Lemma clearAllStorage_resets_witness :
  reachable demo_store = true /\
  loadQuoteList (snd (clearAllStorage demo_store)) = DProducts [] /\
  clearAllStorage (Build_Storage (cells demo_store) true false)
    = (false, Build_Storage (cells demo_store) true false).
Proof.
  split; [reflexivity|]. split.
  - exact (proj1 (proj2 (proj1 (proj2 (proj2 (clearAllStorage_resets demo_store))) eq_refl))).
  - exact (proj1 (proj2 (clearAllStorage_resets
                           (Build_Storage (cells demo_store) true false))) eq_refl).
Defined.

(** ** Sorting by an order *)

Section Sort_by_relation.

Context {A : Type}.
Variable comparefn : A -> A -> float.
Variable R : A -> A -> Prop.
Hypothesis R_trans : forall x y z, R x y -> R y z -> R x z.

Lemma insert_sorted_by (x : A) (s : list A) :
  StronglySorted R s ->
  Forall (placed_by comparefn R x) s ->
  StronglySorted R (Array.insert comparefn x s).
Proof.
  induction s as [|y s IH]; cbn [Array.insert]; intros Hs Hx.
  - repeat constructor.
  - apply StronglySorted_cons in Hs as [Hy Hs].
    apply Forall_cons in Hx as [Hxy Hx]. unfold placed_by in Hxy.
    destruct (Array.after comparefn x y).
    + apply StronglySorted_cons. split; [|now apply IH].
      rewrite insert_Permutation. now constructor.
    + apply StronglySorted_cons. split; [|now apply StronglySorted_cons].
      constructor; [exact Hxy|].
      eapply Forall_impl; [exact Hy|]. intros z Hz. simpl in Hz. eauto.
Qed.

(** When the comparator places every element relative to each later one as
    the transitive order [R] does, [sort] returns a list ordered by [R]. *)
Lemma sort_sorted_by (l : list A) :
  ForallOrdPairs (placed_by comparefn R) l ->
  StronglySorted R (Array.sort comparefn l).
Proof.
  induction l as [|x l IH]; intros H.
  - constructor.
  - change (Array.sort comparefn (x :: l))
      with (Array.insert comparefn x (Array.sort comparefn l)).
    inversion H as [|? ? Hx Hl]; subst.
    apply insert_sorted_by; [now apply IH|].
    now rewrite sort_Permutation.
Qed.

End Sort_by_relation.

(** ** The order of code units *)

Lemma less_asym (a b : list N) : UTF16.less a b = true -> UTF16.less b a = false.
Proof.
  revert b. induction a as [|x a IH]; intros [|y b]; simpl; try discriminate;
    try reflexivity.
  destruct (N.ltb_spec x y), (N.ltb_spec y x); try discriminate; try reflexivity;
    try lia. apply IH.
Qed.

Lemma not_less_trans (a b c : list N) :
  UTF16.less b a = false -> UTF16.less c b = false -> UTF16.less c a = false.
Proof.
  revert b c. induction a as [|x a IH]; intros [|y b] [|z c]; simpl;
    try discriminate; try reflexivity.
  destruct (N.ltb_spec y x), (N.ltb_spec x y), (N.ltb_spec z y), (N.ltb_spec y z),
    (N.ltb_spec z x), (N.ltb_spec x z);
    try discriminate; try reflexivity; try lia. apply IH.
Qed.

Lemma code_unit_le_trans (s t u : string) :
  code_unit_le s t -> code_unit_le t u -> code_unit_le s u.
Proof.
  unfold code_unit_le. intros H1 H2.
  exact (not_less_trans (UTF16.units s) (UTF16.units t) (UTF16.units u) H1 H2).
Qed.

(** [sort()] places any two strings in code-unit order. *)
Lemma default_compare_placed (x y : string) :
  placed_by default_compare code_unit_le x y.
Proof.
  unfold placed_by, Array.after, default_compare, code_unit_le.
  destruct (UTF16.less (UTF16.units x) (UTF16.units y)) eqn:Exy.
  - change (0 <? -1)%float with false. cbv iota. now apply less_asym.
  - destruct (UTF16.less (UTF16.units y) (UTF16.units x)) eqn:Eyx.
    + change (0 <? 1)%float with true. cbv iota. reflexivity.
    + change (0 <? 0)%float with false. cbv iota. reflexivity.
Qed.

(** ** extractCategories *)

Lemma existsb_eqb_In (v : string) (l : list string) :
  List.existsb (String.eqb v) l = true <-> In v l.
Proof.
  rewrite List.existsb_exists. split.
  - intros (x & Hx & E). apply String.eqb_eq in E. now subst.
  - intros H. exists v. split; [exact H|apply String.eqb_refl].
Qed.

Lemma Set_values_In (seen values : list string) (c : string) :
  In c (Set_values seen values) <-> In c values /\ ~ In c seen.
Proof.
  revert seen. induction values as [|v rest IH]; intros seen; simpl; [tauto|].
  destruct (List.existsb (String.eqb v) seen) eqn:E.
  - apply existsb_eqb_In in E. rewrite IH. split.
    + intros [H1 H2]. auto.
    + intros [[->|H1] H2]; [contradiction|auto].
  - assert (Hv : ~ In v seen).
    { intros H. apply existsb_eqb_In in H. congruence. }
    simpl. rewrite IH. simpl. split.
    + intros [<-|[H1 H2]]; [auto|]. split; [auto|]. intros H. apply H2. auto.
    + intros [[<-|H1] H2]; [auto|].
      destruct (String.eqb_spec v c) as [->|Hne]; [auto|]. right. split; [exact H1|].
      intros [H|H]; [congruence|contradiction].
Qed.

Lemma Set_values_NoDup (seen values : list string) : NoDup (Set_values seen values).
Proof.
  revert seen. induction values as [|v rest IH]; intros seen; simpl; [constructor|].
  destruct (List.existsb (String.eqb v) seen); [apply IH|].
  apply NoDup_cons. split; [|apply IH].
  intros H. apply list_elem_of_In, Set_values_In in H as [_ H]. apply H. simpl. auto.
Qed.

Lemma NoDup_filter_bool {A : Type} (f : A -> bool) (l : list A) :
  NoDup l -> NoDup (List.filter f l).
Proof.
  induction l as [|x l IH]; simpl; intros H; [exact H|].
  apply NoDup_cons in H as [Hx Hl].
  destruct (f x); [|now apply IH].
  apply NoDup_cons. split; [|now apply IH].
  intros Hin. apply Hx. apply list_elem_of_In in Hin. apply list_elem_of_In.
  now apply List.filter_In in Hin as [Hin _].
Qed.

Lemma Forall_ForallOrdPairs {A : Type} (P : A -> Prop) (Q : A -> A -> Prop) (l : list A) :
  (forall x y, P x -> P y -> Q x y) -> Forall P l -> ForallOrdPairs Q l.
Proof.
  intros HQ H. induction H as [|x l Hx Hl IH]; constructor; [|exact IH].
  eapply Forall_impl; [exact Hl|]. intros y Hy. now apply HQ.
Qed.

(** The categories as [extractCategories] and [getCategories] compute
    them, whatever the length of the list. *)
Lemma getCategories_spec (products : list Product) :
  let cs := Collection.getCategories products in
  StronglySorted code_unit_le cs /\
  NoDup cs /\
  (forall c, In c cs <-> c <> "" /\ exists p, In p products /\ category p = c).
Proof.
  cbv zeta. unfold Collection.getCategories.
  set (u := List.filter (fun c => ToBoolean (VStr c))
              (Set_values [] (List.map category products))).
  assert (Hu : NoDup u) by (apply NoDup_filter_bool, Set_values_NoDup).
  split; [|split].
  - apply sort_sorted_by; [exact code_unit_le_trans|].
    apply (Forall_ForallOrdPairs (fun _ => True)); [|now apply Forall_forall].
    intros x y _ _. apply default_compare_placed.
  - now rewrite sort_Permutation.
  - intros c. rewrite <- list_elem_of_In, sort_Permutation, list_elem_of_In.
    unfold u. rewrite List.filter_In, Set_values_In, List.in_map_iff. simpl.
    split.
    + intros [[(p & E & Hp) _] Hc]. split; [|now exists p].
      intros ->. discriminate Hc.
    + intros [Hc (p & Hp & E)]. split; [split; [now exists p|tauto]|].
      destruct c; [contradiction|reflexivity].
Qed.

(** X9: [extractCategories(products)] lists the categories in the order
    of their UTF-16 code units, each once, the empty category left out:
    no category comes after one that follows it, and a string is in the
    result exactly when it is not empty and is the category of some
    product. [ProductCollection.getCategories] returns the same list. The
    order is that of code units, not of code points or of bytes: an emoji,
    a surrogate pair, sorts before a full-width letter. *)
Theorem extractCategories_spec (products : list Product) :
  StronglySorted code_unit_le (extractCategories products) /\
  NoDup (extractCategories products) /\
  (forall c, In c (extractCategories products) <->
             c <> "" /\ exists p, In p products /\ category p = c) /\
  Collection.getCategories products = extractCategories products /\
  extractCategories [emoji_product "Ａ"; emoji_product "😀"; emoji_product "Ａ"]
    = ["😀"; "Ａ"].
Proof.
  assert (E : Collection.getCategories products = extractCategories products).
  { unfold extractCategories. now destruct products. }
  rewrite <- E. pose proof (getCategories_spec products) as (H1 & H2 & H3).
  split; [exact H1|]. split; [exact H2|]. split; [exact H3|].
  split; [reflexivity|]. now vm_compute.
Qed.

(** ** getCategoryCounts *)

(** What [getCategoryCounts] holds for the label [c] after [n] more
    products carried it, when it held [start] before. *)
Lemma counts_fold (products : list Product) (m : gmap string tally) (c : string) :
  (forall k, m !! k <> Some (Count 0)) ->
  List.fold_left
    (fun counts product =>
       let category_ := or_else (category product) "uncategorized" in
       count_up counts category_)
    products m !! c
  = match m !! c with
    | Some (Count n) => Some (Count (n + labelled c products))
    | Some (Text name ones) => Some (Text name (ones + labelled c products))
    | None =>
        if Nat.eqb (labelled c products) 0 then None
        else if Object.inherits c then
          if String.eqb c "__proto__" then None
          else Some (Text c (labelled c products))
        else Some (Count (labelled c products))
    end.
Proof.
  set (f := fun (counts : gmap string tally) (product : Product) =>
              let category_ := or_else (category product) "uncategorized" in
              count_up counts category_).
  revert m. induction products as [|p l IH]; intros m Hm; cbn [List.fold_left].
  - unfold labelled. simpl. destruct (m !! c) as [[n|name ones]|];
      [f_equal; f_equal; lia|f_equal; f_equal; lia|reflexivity].
  - change (f m p) with (count_up m (count_label p)).
    assert (Hm' : forall k, count_up m (count_label p) !! k <> Some (Count 0)).
    { intros k. unfold count_up.
      destruct (m !! count_label p) as [[n|name ones]|] eqn:E.
      - destruct (String.eqb_spec (count_label p) k) as [->|Hne].
        + rewrite lookup_insert_eq. intros [= H]. lia.
        + rewrite lookup_insert_ne by exact Hne. apply Hm.
      - destruct (String.eqb_spec (count_label p) k) as [->|Hne].
        + now rewrite lookup_insert_eq.
        + rewrite lookup_insert_ne by exact Hne. apply Hm.
      - destruct (Object.inherits (count_label p));
          [destruct (String.eqb (count_label p) "__proto__"); [apply Hm|]|];
          (destruct (String.eqb_spec (count_label p) k) as [->|Hne];
           [now rewrite lookup_insert_eq|rewrite lookup_insert_ne by exact Hne; apply Hm]). }
    rewrite (IH _ Hm'). unfold labelled. cbn [List.filter].
    destruct (String.eqb_spec (count_label p) c) as [Ec|Hne].
    + rewrite Ec. cbn [List.length]. unfold count_up.
      set (k := List.length (List.filter (fun q => String.eqb (count_label q) c) l)).
      destruct (m !! c) as [[n|name ones]|] eqn:E.
      * rewrite lookup_insert_eq.
        destruct (Nat.eqb_spec n 0) as [->|_]; [now destruct (Hm c)|].
        f_equal. f_equal. lia.
      * rewrite lookup_insert_eq. f_equal. f_equal. lia.
      * destruct (Object.inherits c).
        -- destruct (String.eqb c "__proto__").
           ++ rewrite E. now destruct k.
           ++ now rewrite lookup_insert_eq.
        -- now rewrite lookup_insert_eq.
    + assert (Hk : count_up m (count_label p) !! c = m !! c).
      { unfold count_up. destruct (m !! count_label p) as [[n|name ones]|];
          try (now rewrite lookup_insert_ne by exact Hne).
        destruct (Object.inherits (count_label p));
          [destruct (String.eqb (count_label p) "__proto__"); [reflexivity|]|];
          now rewrite lookup_insert_ne by exact Hne. }
      now rewrite Hk.
Qed.

(** X10: [getCategoryCounts(products)] files a product of empty category
    under "uncategorized", and a label no product carries gets no entry.
    For a label that is not the name of a member of [Object.prototype] the
    entry is the number of products that carry it. For a label that is
    such a name ("constructor", "toString", ...) the entry is not a number:
    it is the text of the built-in function followed by one digit 1 for
    each product; and for "__proto__" no entry is made at all. *)
Theorem getCategoryCounts_spec (products : list Product) (c : string) :
  (Object.inherits c = false ->
   getCategoryCounts products !! c =
     (if Nat.eqb (labelled c products) 0 then None
      else Some (Count (labelled c products)))) /\
  (Object.inherits c = true -> c <> "__proto__" ->
   getCategoryCounts products !! c =
     (if Nat.eqb (labelled c products) 0 then None
      else Some (Text c (labelled c products)))) /\
  getCategoryCounts products !! "__proto__" = None /\
  (labelled "uncategorized" products =
     List.length (List.filter (fun p => String.eqb (category p) "" ||
                                        String.eqb (category p) "uncategorized")
                    products)).
Proof.
  assert (H : forall k, (∅ : gmap string tally) !! k <> Some (Count 0))
    by (intros k; now rewrite lookup_empty).
  unfold getCategoryCounts. split; [|split; [|split]].
  - intros Hc. rewrite (counts_fold _ _ _ H), lookup_empty, Hc. reflexivity.
  - intros Hc Hp. rewrite (counts_fold _ _ _ H), lookup_empty, Hc.
    destruct (String.eqb_spec c "__proto__"); [contradiction|reflexivity].
  - rewrite (counts_fold _ _ _ H), lookup_empty.
    now destruct (Nat.eqb (labelled "__proto__" products) 0).
  - unfold labelled. f_equal. apply List.filter_ext. intros p.
    unfold count_label, or_else. simpl.
    destruct (category p) as [|a s]; reflexivity.
Qed.

Lemma getCategoryCounts_spec_witness :
  Object.inherits "electronics" = false /\
  getCategoryCounts demo_catalog !! "electronics" = Some (Count 1) /\
  Object.inherits "constructor" = true /\
  getCategoryCounts [emoji_product "constructor"; emoji_product "constructor"]
    !! "constructor" = Some (Text "constructor" 2).
Proof.
  split; [reflexivity|]. split.
  - exact (proj1 (getCategoryCounts_spec demo_catalog "electronics") eq_refl).
  - split; [reflexivity|].
    refine (proj1 (proj2 (getCategoryCounts_spec
              [emoji_product "constructor"; emoji_product "constructor"]
              "constructor")) eq_refl _).
    discriminate.
Defined.

(** ** Comparisons of numbers *)

Module Float_leb.
Import IEEE IEEE_sign IEEE_facts Float_order.

Lemma not_nan_is_nan (a : float) : not_nan (Prim2SF a) -> PrimFloat.is_nan a = false.
Proof.
  intros H. unfold PrimFloat.is_nan. rewrite FloatAxioms.eqb_spec. unfold SFeqb.
  rewrite (SFcompare_ord _ _ (Prim2SF_valid a) (Prim2SF_valid a) H H).
  now rewrite Z.compare_refl.
Qed.

Lemma SFcompare_nan_l (y : spec_float) : SFcompare S754_nan y = None.
Proof. reflexivity. Qed.

Lemma SFcompare_nan_r (x : spec_float) : SFcompare x S754_nan = None.
Proof. now destruct x. Qed.

Lemma SFcompare_Some_not_nan (x y : spec_float) (c : comparison) :
  SFcompare x y = Some c -> not_nan x /\ not_nan y.
Proof.
  intros H. split; intros ->.
  - discriminate H.
  - rewrite SFcompare_nan_r in H. discriminate H.
Qed.

(** A comparison that holds has numbers on both sides. *)
Lemma leb_true_not_nan (x y : float) :
  (x <=? y)%float = true -> PrimFloat.is_nan x = false /\ PrimFloat.is_nan y = false.
Proof.
  rewrite FloatAxioms.leb_spec. unfold SFleb.
  destruct (SFcompare (Prim2SF x) (Prim2SF y)) as [c|] eqn:E; [|discriminate].
  intros _. apply SFcompare_Some_not_nan in E as [Hx Hy].
  split; now apply not_nan_is_nan.
Qed.

Lemma leb_key (x y : float) :
  PrimFloat.is_nan x = false -> PrimFloat.is_nan y = false ->
  (x <=? y)%float = (key x <=? key y).
Proof.
  intros Hx Hy. rewrite FloatAxioms.leb_spec. unfold SFleb, key.
  rewrite (SFcompare_ord _ _ (Prim2SF_valid x) (Prim2SF_valid y)
             (is_nan_not_nan x Hx) (is_nan_not_nan y Hy)).
  unfold Z.leb. now destruct (ord (Prim2SF x) ?= ord (Prim2SF y)).
Qed.

Lemma ltb_key (x y : float) :
  PrimFloat.is_nan x = false -> PrimFloat.is_nan y = false ->
  (x <? y)%float = (key x <? key y).
Proof.
  intros Hx Hy. rewrite FloatAxioms.ltb_spec. unfold SFltb, key.
  rewrite (SFcompare_ord _ _ (Prim2SF_valid x) (Prim2SF_valid y)
             (is_nan_not_nan x Hx) (is_nan_not_nan y Hy)).
  unfold Z.ltb. now destruct (ord (Prim2SF x) ?= ord (Prim2SF y)).
Qed.

Lemma leb_trans (x y z : float) :
  (x <=? y)%float = true -> (y <=? z)%float = true -> (x <=? z)%float = true.
Proof.
  intros H1 H2.
  destruct (leb_true_not_nan _ _ H1) as [Hx Hy].
  destruct (leb_true_not_nan _ _ H2) as [_ Hz].
  rewrite leb_key in * by assumption.
  apply Z.leb_le in H1, H2. apply Z.leb_le. lia.
Qed.

(** No number lies beyond the infinities. *)
Lemma key_bounds (x : float) : - 2 ^ 2100 <= key x <= 2 ^ 2100.
Proof.
  unfold key. pose proof (Prim2SF_valid x) as V.
  assert (Hinf : 0 < 2 ^ 2100) by now apply pow2_pos.
  destruct (Prim2SF x) as [s|s| |s m e]; cbn [ord]; try lia.
  - destruct s; cbn [cond_Zopp]; lia.
  - cbn [valid_binary] in V. pose proof (ord_finite_pos m e V).
    destruct s; cbn [cond_Zopp]; lia.
Qed.

Lemma leb_infinity (x : float) :
  PrimFloat.is_nan x = false -> (x <=? infinity)%float = true.
Proof.
  intros Hx. rewrite leb_key by (exact Hx || reflexivity).
  apply Z.leb_le. pose proof (key_bounds x).
  change (key infinity) with (2 ^ 2100). lia.
Qed.

Lemma or_zero_not_nan (x : float) : PrimFloat.is_nan (or_zero x) = false.
Proof.
  unfold or_zero, truthy_number.
  destruct (PrimFloat.is_zero x); simpl; [reflexivity|].
  now destruct (PrimFloat.is_nan x) eqn:E.
Qed.

(** [x || 0] is not negative when [x] is not. *)
Lemma or_zero_nonneg (x : float) : (x <? 0)%float = false -> (0 <=? or_zero x)%float = true.
Proof.
  intros H. unfold or_zero, truthy_number.
  destruct (PrimFloat.is_zero x) eqn:Z0; simpl; [reflexivity|].
  destruct (PrimFloat.is_nan x) eqn:N; simpl; [reflexivity|].
  rewrite ltb_key in H by (exact N || reflexivity).
  rewrite leb_key by (exact N || reflexivity).
  apply Z.ltb_ge in H. apply Z.leb_le. exact H.
Qed.

End Float_leb.

(** ** Price and rating filters *)

Import Float_leb.

(** X11: the price-range filter returns nothing when the bounds are
    inverted or not numbers; filtering its result by a range that contains
    the first changes nothing; and with the default bounds 0 and Infinity it
    keeps every product when no price is negative, a price of [NaN] being
    read as 0. *)
Theorem filterByPriceRange_ranges (products : list Product) (a b a' b' : float) :
  ((a <=? b)%float = false -> filterByPriceRange products a b = []) /\
  ((a' <=? a)%float = true -> (b <=? b')%float = true ->
   filterByPriceRange (filterByPriceRange products a b) a' b' =
   filterByPriceRange products a b) /\
  ((forall p, In p products -> (price p <? 0)%float = false) ->
   filterByPriceRange_default products = products).
Proof.
  split; [|split].
  - intros H. unfold filterByPriceRange.
    induction products as [|p l IH]; [reflexivity|]. cbn [List.filter]. cbv zeta.
    destruct ((a <=? or_zero (price p))%float && (or_zero (price p) <=? b)%float)%bool eqn:E;
      [|exact IH].
    apply andb_true_iff in E as [E1 E2].
    rewrite (leb_trans _ _ _ E1 E2) in H. discriminate H.
  - intros Ha Hb. unfold filterByPriceRange. rewrite filter_twice.
    apply List.filter_ext. intros p. cbv zeta.
    destruct ((a <=? or_zero (price p))%float) eqn:E1; [|reflexivity].
    destruct ((or_zero (price p) <=? b)%float) eqn:E2; [|reflexivity].
    now rewrite (leb_trans _ _ _ Ha E1), (leb_trans _ _ _ E2 Hb).
  - intros H. unfold filterByPriceRange_default, filterByPriceRange.
    induction products as [|p l IH]; [reflexivity|]. cbn [List.filter]. cbv zeta.
    rewrite (or_zero_nonneg _ (H p (or_introl eq_refl))).
    rewrite (leb_infinity _ (or_zero_not_nan _)). cbn [andb].
    f_equal. apply IH. intros q Hq. apply H. now right.
Qed.

Lemma filterByPriceRange_ranges_witness :
  (100 <=? 10)%float = false /\
  filterByPriceRange demo_catalog 100 10 = [] /\
  filterByPriceRange_default demo_catalog = demo_catalog.
Proof.
  split; [reflexivity|].
  destruct (filterByPriceRange_ranges demo_catalog 100 10 0 0) as (A & _ & _).
  destruct (filterByPriceRange_ranges demo_catalog 0 0 0 0) as (_ & _ & C).
  split; [exact (A eq_refl)|].
  apply C. intros p Hp. simpl in Hp.
  repeat (destruct Hp as [<-|Hp]; [reflexivity|]). destruct Hp.
Defined.

(** X12: raising the minimum rating refines the result: for thresholds
    [a <= b], filtering by [a] and then by [b], or by [b] and then by [a],
    is filtering by [b]; and the default threshold 0 keeps every product
    when no rating is negative, a rating of [NaN] being read as 0. *)
Theorem filterByRating_monotone (products : list Product) (a b : float) :
  ((a <=? b)%float = true ->
   filterByRating (filterByRating products a) b = filterByRating products b /\
   filterByRating (filterByRating products b) a = filterByRating products b) /\
  ((forall p, In p products -> (rate (rating p) <? 0)%float = false) ->
   filterByRating products 0 = products).
Proof.
  split.
  - intros Hab. unfold filterByRating. rewrite !filter_twice.
    split; apply List.filter_ext; intros p; cbv zeta.
    + destruct ((b <=? or_zero (rate (rating p)))%float) eqn:E.
      * now rewrite (leb_trans _ _ _ Hab E).
      * apply andb_false_r.
    + destruct ((b <=? or_zero (rate (rating p)))%float) eqn:E; [|reflexivity].
      now rewrite (leb_trans _ _ _ Hab E).
  - intros H. unfold filterByRating.
    induction products as [|p l IH]; [reflexivity|]. cbn [List.filter]. cbv zeta.
    rewrite (or_zero_nonneg _ (H p (or_introl eq_refl))).
    f_equal. apply IH. intros q Hq. apply H. now right.
Qed.

Lemma filterByRating_monotone_witness :
  (4 <=? 4.5)%float = true /\
  filterByRating (filterByRating demo_catalog 4) 4.5 = filterByRating demo_catalog 4.5.
Proof.
  split; [reflexivity|].
  exact (proj1 (proj1 (filterByRating_monotone demo_catalog 4 4.5) eq_refl)).
Defined.

(** ** Composition of the filters *)

(** X13: the two filters commute, [applyFilters] is their composition and
    applying it twice with the same criteria is applying it once; the
    collection's [filterByCategory] and [search] return what the service's
    functions return. *)
Theorem filters_compose (host : Host) (products : list Product) (q c : option string) :
  filterService.filterBySearch host (filterService.filterByCategory products c) q
    = filterService.filterByCategory (filterService.filterBySearch host products q) c /\
  filterService.applyFilters host products (mkFilters q c)
    = filterService.filterBySearch host (filterService.filterByCategory products c) q /\
  filterService.applyFilters host
      (filterService.applyFilters host products (mkFilters q c)) (mkFilters q c)
    = filterService.applyFilters host products (mkFilters q c) /\
  Collection.filterByCategory products c = filterService.filterByCategory products c /\
  Collection.search_ host products q = filterService.filterBySearch host products q.
Proof.
  assert (Happ : forall l, filterService.applyFilters host l (mkFilters q c)
            = List.filter (fun p => category_test c p && search_test host q p) l).
  { intros l. apply (applyFilters_filter host l (mkFilters q c)). }
  split; [|split; [|split; [|split]]].
  - rewrite !filterBySearch_filter, !filterByCategory_filter, !filter_twice.
    apply List.filter_ext. intros p. apply andb_comm.
  - rewrite Happ, filterBySearch_filter, filterByCategory_filter. now rewrite filter_twice.
  - rewrite !Happ, filter_twice. apply List.filter_ext. intros p.
    now destruct (category_test c p && search_test host q p)%bool.
  - rewrite filterByCategory_filter. unfold Collection.filterByCategory.
    destruct (negb (truthy_text c) || String.eqb (text c) "all")%bool eqn:E.
    + symmetry. apply filter_all. intros p. rewrite <- isInCategory_test.
      unfold isInCategory. now rewrite E.
    + apply List.filter_ext. intros p. apply isInCategory_test.
  - rewrite filterBySearch_filter. unfold Collection.search_.
    destruct (negb (truthy_text q) || String.eqb (Str.trim (text q)) "")%bool eqn:E.
    + symmetry. apply filter_all. intros p. rewrite <- matchesSearch_test.
      unfold matchesSearch. now rewrite E.
    + apply List.filter_ext. intros p. apply matchesSearch_test.
Qed.

(** ** getById *)

Lemma find_id_In (products : list Product) (i : Z) (p : Product) :
  List.find (fun x => id x =? i) products = Some p -> In p products /\ id p = i.
Proof.
  intros H. apply List.find_some in H as [H1 H2]. split; [exact H1|now apply Z.eqb_eq].
Qed.

(** X14: [getById(id)] returns a product of the collection that has the
    id asked for, and [null] exactly when no product has it; when the ids of
    the collection are pairwise distinct, it returns each product for its
    own id. *)
Theorem getById_spec (products : list Product) (i : Z) :
  (forall p, Collection.getById products i = Some p -> In p products /\ id p = i) /\
  (Collection.getById products i = None <-> ~ In i (List.map id products)) /\
  (unique_ids products ->
   forall p, In p products -> Collection.getById products (id p) = Some p).
Proof.
  unfold Collection.getById. split; [|split].
  - intros p. apply find_id_In.
  - split.
    + intros H Hin. apply List.in_map_iff in Hin as (x & E & Hx).
      pose proof (List.find_none _ _ H x Hx) as Hn. simpl in Hn.
      rewrite E, Z.eqb_refl in Hn. discriminate.
    + intros H. destruct (List.find (fun x => id x =? i) products) as [p|] eqn:E;
        [|reflexivity].
      apply find_id_In in E as [E1 E2]. exfalso. apply H.
      apply List.in_map_iff. now exists p.
  - unfold unique_ids. clear i.
    induction products as [|x l IH]; intros Hu p Hp; [destruct Hp|].
    simpl in Hu. apply NoDup_cons in Hu as [Hx Hl]. cbn [List.find].
    destruct Hp as [->|Hp]; [now rewrite Z.eqb_refl|].
    destruct (id x =? id p) eqn:E; [|now apply IH].
    exfalso. apply Hx. apply Z.eqb_eq in E. rewrite E.
    apply list_elem_of_In, List.in_map. exact Hp.
Qed.

Lemma getById_spec_witness :
  unique_ids demo_catalog /\
  Collection.getById demo_catalog (id demo_ring) = Some demo_ring.
Proof.
  assert (H : unique_ids demo_catalog).
  { unfold unique_ids. simpl.
    repeat (apply NoDup_cons; split;
            [intros Hin; apply list_elem_of_In in Hin; simpl in Hin;
             intuition discriminate|]).
    apply NoDup_nil. exact I. }
  split; [exact H|].
  apply (proj2 (proj2 (getById_spec demo_catalog 0)) H). simpl. auto.
Defined.

(** ** Truncated titles *)

Lemma truncated_spec (s : string) (m : Z) :
  Z.of_nat (List.length (truncated s m)) <= Z.max m 0 + 3 /\
  (Z.of_nat (UTF16.length s) <= m -> truncated s m = UTF16.units s) /\
  (m < Z.of_nat (UTF16.length s) ->
   truncated s m = (List.firstn (Z.to_nat m) (UTF16.units s) ++ [46; 46; 46]%N)%list /\
   List.length (List.firstn (Z.to_nat m) (UTF16.units s)) = Z.to_nat m).
Proof.
  unfold truncated, UTF16.length.
  destruct (Z.leb_spec (Z.of_nat (List.length (UTF16.units s))) m) as [H|H].
  - split; [lia|]. split; [reflexivity|lia].
  - assert (Hl : List.length (List.firstn (Z.to_nat m) (UTF16.units s)) = Z.to_nat m)
      by (rewrite List.length_firstn; lia).
    split; [rewrite List.length_app, Hl; simpl; lia|].
    split; [lia|]. intros _. split; [reflexivity|exact Hl].
Qed.

(** X15: counted in UTF-16 code units, as [length] and [substring] count,
    [getFormattedTitle(maxLength)] is never longer than
    [max(maxLength, 0) + 3]; it is the title itself when that fits, and
    otherwise the first [maxLength] code units of the title followed by
    "...". [getFormattedDescription] does the same to the description. A
    title of 12 characters that takes 13 bytes fits in 12. *)
Theorem getFormatted_truncates (p : Product) (m : Z) :
  (Z.of_nat (List.length (getFormattedTitle p m)) <= Z.max m 0 + 3 /\
   (Z.of_nat (UTF16.length (title p)) <= m ->
    getFormattedTitle p m = UTF16.units (title p)) /\
   (m < Z.of_nat (UTF16.length (title p)) ->
    getFormattedTitle p m
      = (List.firstn (Z.to_nat m) (UTF16.units (title p)) ++ [46; 46; 46]%N)%list /\
    List.length (List.firstn (Z.to_nat m) (UTF16.units (title p))) = Z.to_nat m)) /\
  (Z.of_nat (List.length (getFormattedDescription p m)) <= Z.max m 0 + 3 /\
   (Z.of_nat (UTF16.length (description p)) <= m ->
    getFormattedDescription p m = UTF16.units (description p)) /\
   (m < Z.of_nat (UTF16.length (description p)) ->
    getFormattedDescription p m
      = (List.firstn (Z.to_nat m) (UTF16.units (description p)) ++ [46; 46; 46]%N)%list /\
    List.length (List.firstn (Z.to_nat m) (UTF16.units (description p))) = Z.to_nat m)) /\
  truncated "Café au lait" 12 = UTF16.units "Café au lait" /\
  truncated "Café au lait" 4 = UTF16.units "Café...".
Proof.
  split; [apply (truncated_spec (title p) m)|].
  split; [apply (truncated_spec (description p) m)|].
  split; reflexivity.
Qed.

Lemma getFormatted_truncates_witness :
  5 < Z.of_nat (UTF16.length (title demo_phone)) /\
  getFormattedTitle demo_phone 5 = UTF16.units "Smart...".
Proof.
  split; [reflexivity|].
  exact (proj1 (proj2 (proj2 (proj1 (getFormatted_truncates demo_phone 5))) eq_refl)).
Defined.

(** ** Sorted results *)

Module Float_ties.
Import IEEE IEEE_sign IEEE_facts Float_order Float_leb.

(** The difference of two numbers of equal value is a zero, or [NaN] for
    two infinities. *)
Lemma SFsub_equal (x y : spec_float) :
  valid_binary x = true -> valid_binary y = true ->
  not_nan x -> not_nan y ->
  ord x = ord y ->
  match SF64sub x y with
  | S754_zero _ | S754_nan => True
  | _ => False
  end.
Proof.
  intros Vx Vy Nx Ny He.
  assert (Hinf : 0 < 2 ^ 2100) by now apply pow2_pos.
  destruct x as [sx|sx| |sx mx ex], y as [sy|sy| |sy my ey];
    try (exfalso; apply Nx; reflexivity); try (exfalso; apply Ny; reflexivity);
    cbn [valid_binary] in Vx, Vy;
    try pose proof (ord_finite_pos mx ex Vx) as Hx;
    try pose proof (ord_finite_pos my ey Vy) as Hy;
    cbn [ord] in He; unfold SF64sub; cbn [SFsub].
  - now destruct sx, sy.
  - destruct sy; cbn [cond_Zopp] in He; lia.
  - destruct sy; cbn [cond_Zopp] in He; lia.
  - destruct sx; cbn [cond_Zopp] in He; lia.
  - destruct sx, sy; cbn [cond_Zopp] in He; try lia; exact I.
  - destruct sx, sy; cbn [cond_Zopp] in He; lia.
  - destruct sx; cbn [cond_Zopp] in He; lia.
  - destruct sx, sy; cbn [cond_Zopp] in He; lia.
  - pose proof (bounded_inv mx ex Vx) as (Hex & _).
    pose proof (bounded_inv my ey Vy) as (Hey & _).
    set (ez := Z.min ex ey).
    destruct (shl_align_spec mx ex ez ltac:(lia)) as [Ax _].
    destruct (shl_align_spec my ey ez ltac:(lia)) as [Ay _].
    set (d := cond_Zopp sx (Zpos (fst (shl_align mx ex ez))) -
              cond_Zopp sy (Zpos (fst (shl_align my ey ez)))).
    assert (Hk : 0 < 2 ^ (ez + 1074)) by (apply pow2_pos; lia).
    assert (Hd : cond_Zopp sx (Zpos mx * 2 ^ (ex + 1074)) -
                 cond_Zopp sy (Zpos my * 2 ^ (ey + 1074)) = d * 2 ^ (ez + 1074)).
    { unfold d. rewrite Ax, Ay.
      replace (ex + 1074) with ((ex - ez) + (ez + 1074)) by lia.
      replace (ey + 1074) with ((ey - ez) + (ez + 1074)) by lia.
      rewrite (Z.pow_add_r 2 (ex - ez)), (Z.pow_add_r 2 (ey - ez)) by lia.
      destruct sx, sy; cbn [cond_Zopp]; ring. }
    assert (Hd0 : d = 0) by nia.
    rewrite Hd0. exact I.
Qed.

(** [a - b > 0] exactly when [a] is the greater, for all numbers. *)
Lemma sub_positive (a b : float) :
  PrimFloat.is_nan a = false -> PrimFloat.is_nan b = false ->
  (0 <? a - b)%float = (key b <? key a).
Proof.
  intros Ha Hb. destruct (Z.eq_dec (key a) (key b)) as [E|Hne];
    [|now apply sub_positive_key].
  rewrite E, Z.ltb_irrefl.
  rewrite FloatAxioms.ltb_spec, FloatAxioms.sub_spec.
  change (Prim2SF 0) with (S754_zero false).
  pose proof (SFsub_equal _ _ (Prim2SF_valid a) (Prim2SF_valid b)
                (is_nan_not_nan a Ha) (is_nan_not_nan b Hb) E) as Hs.
  destruct (SF64sub (Prim2SF a) (Prim2SF b)); try destruct Hs; reflexivity.
Qed.

(** A comparator that subtracts places numbers as [<=] orders them. *)
Lemma difference_placed {A : Type} (f : A -> float) (x y : A) :
  PrimFloat.is_nan (f x) = false -> PrimFloat.is_nan (f y) = false ->
  placed_by (fun a b => f a - f b)%float
    (fun a b => (f a <=? f b)%float = true) x y /\
  placed_by (fun a b => f b - f a)%float
    (fun a b => (f b <=? f a)%float = true) x y.
Proof.
  intros Hx Hy. unfold placed_by, Array.after.
  rewrite !sub_positive, !leb_key by assumption.
  split.
  - destruct (Z.ltb_spec (key (f y)) (key (f x))); apply Z.leb_le; lia.
  - destruct (Z.ltb_spec (key (f x)) (key (f y))); apply Z.leb_le; lia.
Qed.

End Float_ties.

Import Float_ties.

(** X16: [sortProducts] returns a rearrangement of the products it is
    given, whatever the key and the collation; a key it does not know
    returns the list as it is; [ProductCollection.sort] returns the same
    list as [sortProducts] for every key. *)
Theorem sortProducts_permutation (localeCompare : string -> string -> float)
    (products : list Product) (sortBy : string) :
  Permutation (filterService.sortProducts localeCompare products sortBy) products /\
  List.length (filterService.sortProducts localeCompare products sortBy)
    = List.length products /\
  (~ In sortBy ["price-asc"; "price-desc"; "name-asc"; "name-desc"; "rating"] ->
   filterService.sortProducts localeCompare products sortBy = products) /\
  ProductCollection.sort localeCompare products sortBy
    = filterService.sortProducts localeCompare products sortBy.
Proof.
  assert (HP : Permutation (filterService.sortProducts localeCompare products sortBy)
                 products).
  { unfold filterService.sortProducts. cbv zeta.
    repeat (match goal with
            | |- context [if ?b then _ else _] => destruct b
            end; [apply sort_Permutation|]).
    reflexivity. }
  split; [exact HP|]. split; [now rewrite HP|]. split; [|reflexivity].
  intros Hn. unfold filterService.sortProducts. cbv zeta.
  repeat (match goal with
          | |- context [if String.eqb ?a ?b then _ else _] =>
              destruct (String.eqb_spec a b) as [->|_];
              [exfalso; apply Hn; simpl; tauto|]
          end).
  reflexivity.
Qed.

Lemma sortProducts_permutation_witness :
  ~ In "newest" ["price-asc"; "price-desc"; "name-asc"; "name-desc"; "rating"] /\
  filterService.sortProducts demo_localeCompare demo_catalog "newest" = demo_catalog.
Proof.
  assert (H : ~ In "newest" ["price-asc"; "price-desc"; "name-asc"; "name-desc"; "rating"])
    by (simpl; intuition discriminate).
  split; [exact H|].
  exact (proj1 (proj2 (proj2 (sortProducts_permutation demo_localeCompare
                                demo_catalog "newest"))) H).
Defined.

(** X17: when every price is a number, ties allowed, the result of
    "price-asc" is in non-decreasing order of price and the result of
    "price-desc" in non-increasing order: each element compares [<=]
    (resp. [>=]) to all that follow it. *)
Theorem sortProducts_price_sorted (localeCompare : string -> string -> float)
    (products : list Product) :
  Forall (fun p => PrimFloat.is_nan (price p) = false) products ->
  StronglySorted (fun a b => (price a <=? price b)%float = true)
    (filterService.sortProducts localeCompare products "price-asc") /\
  StronglySorted (fun a b => (price b <=? price a)%float = true)
    (filterService.sortProducts localeCompare products "price-desc").
Proof.
  intros H. split.
  - apply (sort_sorted_by (fun a b => price a - price b)%float
             (fun a b => (price a <=? price b)%float = true)).
    + intros x y z. apply Float_leb.leb_trans.
    + eapply Forall_ForallOrdPairs; [|exact H].
      intros x y Hx Hy. apply (difference_placed price x y Hx Hy).
  - apply (sort_sorted_by (fun a b => price b - price a)%float
             (fun a b => (price b <=? price a)%float = true)).
    + intros x y z H1 H2. exact (Float_leb.leb_trans _ _ _ H2 H1).
    + eapply Forall_ForallOrdPairs; [|exact H].
      intros x y Hx Hy. apply (difference_placed price x y Hx Hy).
Qed.

Lemma sortProducts_price_sorted_witness :
  Forall (fun p => PrimFloat.is_nan (price p) = false) demo_catalog /\
  StronglySorted (fun a b => (price a <=? price b)%float = true)
    (filterService.sortProducts demo_localeCompare demo_catalog "price-asc").
Proof.
  assert (H : Forall (fun p => PrimFloat.is_nan (price p) = false) demo_catalog)
    by (repeat constructor).
  split; [exact H|].
  exact (proj1 (sortProducts_price_sorted demo_localeCompare demo_catalog H)).
Defined.

(** X18: the result of the key "rating" is in non-increasing order of
    [getRating], for every list: a missing or [NaN] rating counts as 0, so
    the comparator never meets a [NaN]. *)
Theorem sortProducts_rating_sorted (localeCompare : string -> string -> float)
    (products : list Product) :
  StronglySorted (fun a b => (getRating b <=? getRating a)%float = true)
    (filterService.sortProducts localeCompare products "rating") /\
  StronglySorted (fun a b => (getRating b <=? getRating a)%float = true)
    (ProductCollection.sort localeCompare products "rating").
Proof.
  assert (H : StronglySorted (fun a b => (getRating b <=? getRating a)%float = true)
                (Array.sort (fun a b => getRating b - getRating a)%float products)).
  { apply (sort_sorted_by (fun a b => getRating b - getRating a)%float
             (fun a b => (getRating b <=? getRating a)%float = true)).
    - intros x y z H1 H2. exact (Float_leb.leb_trans _ _ _ H2 H1).
    - apply (Forall_ForallOrdPairs (fun _ => True)); [|now apply Forall_forall].
      intros x y _ _.
      apply (difference_placed getRating x y); apply Float_leb.or_zero_not_nan. }
  split; exact H.
Qed.

(** ** Signs of products and sums *)

Module Float_sign.
Import IEEE IEEE_sign IEEE_facts Float_order Float_leb.

Lemma shr_fexp_nonneg (m e : Z) (l : location) :
  0 <= m -> 0 <= shr_m (fst (shr_fexp prec emax m e l)).
Proof.
  intros Hm. unfold shr_fexp, shr.
  destruct (fexp prec emax (Zdigits2 m + e) - e) as [|n|n]; cbn [fst];
    rewrite ?shr_record_of_loc_m; try exact Hm.
  rewrite shr_iter_m by (rewrite shr_record_of_loc_m; exact Hm).
  rewrite shr_record_of_loc_m. apply Z.div_pos; [exact Hm|now apply pow2_pos].
Qed.

(** Rounding a non-negative mantissa keeps the sign, whatever the exponent:
    the result may underflow to a zero or overflow to an infinity. *)
Lemma binary_round_aux_sign (s : bool) (m e : Z) (l : location) :
  0 <= m -> rounded_with_sign s (binary_round_aux prec emax s m e l).
Proof.
  intros Hm. unfold binary_round_aux.
  pose proof (shr_fexp_nonneg m e l Hm) as H1.
  destruct (shr_fexp prec emax m e l) as [r1 e1]. cbn [fst] in H1.
  pose proof (round_nearest_even_ge (shr_m r1) (loc_of_shr_record r1)) as Hr.
  pose proof (shr_fexp_nonneg (round_nearest_even (shr_m r1) (loc_of_shr_record r1)) e1
                loc_Exact ltac:(lia)) as H3.
  destruct (shr_fexp prec emax (round_nearest_even (shr_m r1) (loc_of_shr_record r1)) e1
              loc_Exact) as [r2 e2].
  cbn [fst] in H3.
  destruct (shr_m r2) as [|q|q]; try lia; [reflexivity|].
  destruct (e2 <=? emax - prec); reflexivity.
Qed.

Lemma SFmul_positive (x y : spec_float) :
  positive_number x -> positive_number y -> nonneg_sf (SF64mul x y).
Proof.
  intros Hx Hy.
  destruct x as [sx|[]| |[] mx ex], y as [sy|[]| |[] my ey];
    try (now destruct Hx); try (now destruct Hy);
    unfold SF64mul; cbn [SFmul xorb]; try exact I.
  pose proof (binary_round_aux_sign false (Zpos (mx * my)) (ex + ey) loc_Exact
                ltac:(lia)) as H.
  destruct (binary_round_aux prec emax false (Zpos (mx * my)) (ex + ey) loc_Exact)
    as [s|s| |s m e]; simpl in H; subst; try exact I. destruct H.
Qed.

Lemma SFadd_nonneg (x y : spec_float) :
  valid_binary x = true -> valid_binary y = true ->
  nonneg_sf x -> nonneg_sf y -> nonneg_sf (SF64add x y).
Proof.
  intros Vx Vy Hx Hy.
  destruct x as [sx|[]| |[] mx ex], y as [sy|[]| |[] my ey];
    try (now destruct Hx); try (now destruct Hy);
    unfold SF64add; cbn [SFadd]; try exact I.
  - now destruct sx, sy.
  - cbn [valid_binary] in Vx, Vy.
    pose proof (bounded_inv mx ex Vx) as (Hex & _).
    pose proof (bounded_inv my ey Vy) as (Hey & _).
    cbn [cond_Zopp].
    set (d := Zpos (fst (shl_align mx ex (Z.min ex ey))) +
              Zpos (fst (shl_align my ey (Z.min ex ey)))).
    pose proof (binary_normalize_signed d (Z.min ex ey) ltac:(lia) ltac:(unfold d; lia))
      as H.
    replace (d <? 0) with false in H by (symmetry; apply Z.ltb_ge; unfold d; lia).
    cbn [signed] in H.
    destruct (binary_normalize prec emax d (Z.min ex ey) false) as [s|[]| |[] m e];
      try destruct H; exact I.
Qed.

Lemma leb_zero_nonneg (x : float) :
  (0 <=? x)%float = true <-> nonneg_sf (Prim2SF x).
Proof.
  rewrite FloatAxioms.leb_spec. change (Prim2SF 0) with (S754_zero false).
  unfold SFleb. destruct (Prim2SF x) as [s|[]| |[] m e]; simpl;
    split; intros H; try exact I; try reflexivity; try discriminate H; try destruct H.
Qed.

Lemma ltb_zero_positive (x : float) :
  (0 <? x)%float = true <-> positive_number (Prim2SF x).
Proof.
  rewrite FloatAxioms.ltb_spec. change (Prim2SF 0) with (S754_zero false).
  unfold SFltb. destruct (Prim2SF x) as [s|[]| |[] m e]; simpl;
    split; intros H; try exact I; try reflexivity; try discriminate H; try destruct H.
Qed.

Lemma eqb_key (x y : float) :
  PrimFloat.is_nan x = false -> PrimFloat.is_nan y = false ->
  (x =? y)%float = (key x =? key y).
Proof.
  intros Hx Hy. rewrite FloatAxioms.eqb_spec. unfold SFeqb, key.
  rewrite (SFcompare_ord _ _ (Prim2SF_valid x) (Prim2SF_valid y)
             (is_nan_not_nan x Hx) (is_nan_not_nan y Hy)).
  destruct (Z.eqb_spec (ord (Prim2SF x)) (ord (Prim2SF y))) as [E|E].
  - now rewrite E, Z.compare_refl.
  - destruct (ord (Prim2SF x) ?= ord (Prim2SF y)) eqn:C; try reflexivity.
    apply Z.compare_eq in C. contradiction.
Qed.

(** A truthy number that is not negative is above zero. *)
Lemma truthy_positive (x : float) :
  truthy_number x = true -> (x <? 0)%float = false -> (0 <? x)%float = true.
Proof.
  unfold truthy_number, PrimFloat.is_zero. intros Ht Hn.
  apply negb_true_iff, orb_false_iff in Ht as [Hz Hnan].
  rewrite eqb_key in Hz by (exact Hnan || reflexivity).
  rewrite ltb_key in Hn |- * by (exact Hnan || reflexivity).
  apply Z.eqb_neq in Hz. apply Z.ltb_ge in Hn. apply Z.ltb_lt.
  change (key zero) with 0 in Hz. change (key 0) with 0 in *. lia.
Qed.

Lemma mul_nonneg (x r : float) :
  (0 <? x)%float = true -> (0 <? r)%float = true -> (0 <=? x * r)%float = true.
Proof.
  intros Hx Hr. apply leb_zero_nonneg. rewrite FloatAxioms.mul_spec.
  apply SFmul_positive; now apply ltb_zero_positive.
Qed.

Lemma add_nonneg (x y : float) :
  (0 <=? x)%float = true -> (0 <=? y)%float = true -> (0 <=? x + y)%float = true.
Proof.
  intros Hx Hy. apply leb_zero_nonneg. rewrite FloatAxioms.add_spec.
  apply SFadd_nonneg; try apply Prim2SF_valid; now apply leb_zero_nonneg.
Qed.

End Float_sign.

(** ** calculateTotal *)

Import IEEE Float_order Float_leb Float_sign.

(** No rate of the table is negative, and the currency is not a name the
    table merely inherits. *)
Lemma convertPrice_nonneg (x : float) (c : string) (R : rates) :
  (forall k r, R !! k = Some r -> (r <? 0)%float = false) ->
  (R !! c = None -> Object.inherits c = false) ->
  (0 <=? x)%float = true ->
  (0 <=? number_of (convertPrice (VNum x) c R))%float = true.
Proof.
  intros HR Hc Hx. rewrite convertPrice_number.
  destruct (truthy_number x) eqn:Tx; [|reflexivity].
  destruct (String.eqb c "USD"); [exact Hx|].
  destruct (R !! c) as [r|] eqn:Er.
  2:{ rewrite (get_absent R c Er (Hc eq_refl)). exact Hx. }
  rewrite (get_own R c r Er).
  destruct (truthy_number r) eqn:Tr; [|exact Hx].
  cbn [number_of]. apply mul_nonneg.
  - apply truthy_positive; [exact Tx|].
    destruct (leb_true_not_nan _ _ Hx) as [_ Hn].
    rewrite ltb_key by (exact Hn || reflexivity).
    rewrite leb_key in Hx by (exact Hn || reflexivity).
    apply Z.leb_le in Hx. apply Z.ltb_ge. exact Hx.
  - apply truthy_positive; [exact Tr|]. now apply (HR c).
Qed.

(** X19: when no price of the list and no rate of the table is negative
    (a price of [NaN] counting as 0), and the currency is in the table or
    is not the name of a member of [Object.prototype], [calculateTotal] is
    a number that is not negative: it is never [NaN]. The total of an empty
    list is 0. For a currency such as "toString", which the table inherits
    as a function, the total of a list with a priced item is [NaN]. *)
Theorem calculateTotal_nonneg (items : list Product) (c : string) (R : rates) :
  (forall p, In p items -> (price p <? 0)%float = false) ->
  (forall k r, R !! k = Some r -> (r <? 0)%float = false) ->
  (R !! c = None -> Object.inherits c = false) ->
  (0 <=? calculateTotal items c R)%float = true /\
  PrimFloat.is_nan (calculateTotal items c R) = false /\
  calculateTotal [] c R = 0%float /\
  PrimFloat.is_nan (calculateTotal demo_catalog "toString" fallback_rates) = true.
Proof.
  intros Hp HR Hc.
  assert (H : (0 <=? calculateTotal items c R)%float = true).
  { unfold calculateTotal. destruct (Nat.eqb (List.length items) 0); [reflexivity|].
    assert (Hacc : forall l acc,
              (forall p, In p l -> (price p <? 0)%float = false) ->
              (0 <=? acc)%float = true ->
              (0 <=? List.fold_left
                       (fun total item =>
                          (total + number_of (convertPrice (VNum (or_zero (price item))) c R))%float)
                       l acc)%float = true).
    { induction l as [|p l IH]; intros acc Hl Ha; [exact Ha|]. cbn [List.fold_left].
      apply IH; [intros q Hq; apply Hl; now right|].
      apply add_nonneg; [exact Ha|].
      apply convertPrice_nonneg; [exact HR|exact Hc|].
      apply or_zero_nonneg, Hl. now left. }
    apply Hacc; [exact Hp|reflexivity]. }
  split; [exact H|]. split; [|split; [reflexivity|now vm_compute]].
  now destruct (leb_true_not_nan _ _ H).
Qed.

Lemma calculateTotal_nonneg_witness :
  (forall p, In p demo_catalog -> (price p <? 0)%float = false) /\
  (zero_rate_table !! "EUR" = None -> Object.inherits "EUR" = false) /\
  (0 <=? calculateTotal demo_catalog "EUR" zero_rate_table)%float = true.
Proof.
  assert (H1 : forall p, In p demo_catalog -> (price p <? 0)%float = false).
  { intros p Hp. simpl in Hp.
    repeat (destruct Hp as [<-|Hp]; [reflexivity|]). destruct Hp. }
  assert (H2 : forall k r, zero_rate_table !! k = Some r -> (r <? 0)%float = false).
  { intros k r. unfold zero_rate_table.
    destruct (decide (k = "EUR")) as [->|Hne].
    - rewrite lookup_insert_eq. now intros [= <-].
    - rewrite lookup_insert_ne by congruence. now rewrite lookup_empty. }
  assert (H3 : zero_rate_table !! "EUR" = None -> Object.inherits "EUR" = false)
    by reflexivity.
  split; [exact H1|]. split; [exact H3|].
  exact (proj1 (calculateTotal_nonneg demo_catalog "EUR" zero_rate_table H1 H2 H3)).
Defined.

(** ** The rate convertPrice applies *)

Module Float_one.
Import IEEE IEEE_sign IEEE_facts.

(** Multiplying a valid mantissa by [2^52] and rounding at the exponent
    lowered by 52 gives the number back. *)
Lemma round_scaled (s : bool) (m : positive) (e : Z) :
  bounded prec emax m e = true ->
  binary_round_aux prec emax s (Zpos (Pos.iter xO m 52)) (e - 52) loc_Exact
  = S754_finite s m e.
Proof.
  intros B. pose proof B as B'.
  unfold bounded, canonical_mantissa in B'.
  apply andb_true_iff in B' as [Hc He]. apply Z.eqb_eq in Hc.
  unfold binary_round_aux.
  assert (H1 : shr_fexp prec emax (Zpos (Pos.iter xO m 52)) (e - 52) loc_Exact
               = (Build_shr_record (Zpos m) false false, e)).
  { unfold shr_fexp. cbn [Zdigits2].
    assert (Hd : Zpos (digits2_pos (Pos.iter xO m 52)) = Zpos (digits2_pos m) + 52).
    { cbn [Pos.iter digits2_pos]. lia. }
    rewrite Hd.
    replace (Zpos (digits2_pos m) + 52 + (e - 52)) with (Zpos (digits2_pos m) + e) by lia.
    rewrite Hc. replace (e - (e - 52)) with 52 by lia.
    unfold shr. apply pair_equal_spec. split; [reflexivity|lia]. }
  rewrite H1. cbn [shr_m loc_of_shr_record round_nearest_even].
  assert (H2 : shr_fexp prec emax (Zpos m) e loc_Exact
               = (Build_shr_record (Zpos m) false false, e)).
  { unfold shr_fexp. cbn [Zdigits2]. rewrite Hc, Z.sub_diag. reflexivity. }
  rewrite H2. cbn [shr_m]. now rewrite He.
Qed.

Lemma SFmul_one (x : spec_float) :
  valid_binary x = true -> SF64mul x (Prim2SF 1) = x.
Proof.
  intros V. change (Prim2SF 1) with (S754_finite false 4503599627370496 (-52)).
  unfold SF64mul. destruct x as [s|s| |s m e]; cbn [SFmul].
  - now destruct s.
  - now destruct s.
  - reflexivity.
  - cbn [valid_binary] in V.
    replace (xorb s false) with s by now destruct s.
    replace (m * 4503599627370496)%positive with (Pos.iter xO m 52).
    + replace (e + -52) with (e - 52) by lia. now apply round_scaled.
    + apply Pos2Z.inj. rewrite iter_xO_value. reflexivity.
Qed.

(** [x * 1] is [x], for every number, [NaN] and the signed zeros included. *)
Lemma mul_one (x : float) : (x * 1)%float = x.
Proof.
  apply Prim2SF_inj. rewrite FloatAxioms.mul_spec.
  apply SFmul_one, Prim2SF_valid.
Qed.

End Float_one.

(** X20: [getExchangeRate] reports the factor [convertPrice] applies: for
    every truthy amount [x], [convertPrice(x, c, R)] is
    [x * getExchangeRate(c, R)]. The rate is 1 for USD, for a rate of zero
    or [NaN] and for a currency that the table lacks and [Object.prototype]
    does not name; for a name of [Object.prototype] both functions read the
    same inherited member, and the product is [NaN]. *)
Theorem convertPrice_getExchangeRate (x : float) (c : string) (R : rates) :
  truthy_number x = true ->
  convertPrice (VNum x) c R = VNum (x * ToNumber (getExchangeRate c R))%float.
Proof.
  intros Hx. rewrite convertPrice_number, Hx.
  unfold getExchangeRate, rate_or_one, Object.get_or.
  destruct (String.eqb c "USD"); [cbn [ToNumber]; now rewrite Float_one.mul_one|].
  destruct (Object.get R c) as [r|name|]; cbn [ToNumber].
  - destruct (truthy_number r); [reflexivity|now rewrite Float_one.mul_one].
  - reflexivity.
  - now rewrite Float_one.mul_one.
Qed.

Lemma convertPrice_getExchangeRate_witness :
  truthy_number 299.99 = true /\
  getExchangeRate "GBP" fallback_rates = Object.Value 0.79%float /\
  convertPrice (VNum 299.99) "GBP" fallback_rates
    = VNum (299.99 * ToNumber (getExchangeRate "GBP" fallback_rates))%float.
Proof.
  split; [reflexivity|]. split; [reflexivity|].
  exact (convertPrice_getExchangeRate 299.99 "GBP" fallback_rates eq_refl).
Defined.

(** ** convertAndFormat on invalid amounts *)

(** X21: an amount that is falsy or not a number (missing, [null], [NaN],
    a zero, a string) is converted to 0 and then formatted as the number 0:
    [convertAndFormat] renders the symbol followed by "0" for JPY and by
    "0.00" for every other currency, where [formatPrice] alone renders
    "0.00" for [NaN] in JPY too. *)
Theorem convertAndFormat_invalid (host : Host) (v : value) (c : string) (R : rates) :
  ToBoolean v = false \/ is_number v = false ->
  convertAndFormat host v c R =
    ToString host (getCurrencySymbol c) ++ (if String.eqb c "JPY" then "0" else "0.00").
Proof.
  intros H. unfold convertAndFormat.
  assert (E : convertPrice v c R = VNum 0).
  { unfold convertPrice. destruct H as [-> | ->]; [reflexivity|].
    now rewrite orb_true_r. }
  rewrite E. unfold formatPrice, getCurrencySymbol.
  change (negb (is_number (VNum 0)) || isNaN (VNum 0))%bool with false. cbv iota zeta.
  destruct (String.eqb c "JPY"); f_equal; vm_compute; reflexivity.
Qed.

Lemma convertAndFormat_invalid_witness :
  ToBoolean (VNum nan) = false /\
  convertAndFormat ascii_host (VNum nan) "JPY" fallback_rates = "¥0".
Proof.
  split; [reflexivity|].
  apply (convertAndFormat_invalid ascii_host (VNum nan) "JPY" fallback_rates). now left.
Defined.

(** ** The currency tables *)

Lemma isValidCurrency_In (c : string) :
  isValidCurrency c = true <-> In c getSupportedCurrencies.
Proof. unfold isValidCurrency. apply existsb_eqb_In. Qed.

(** X22: [isValidCurrency] accepts exactly the codes that have an entry of
    their own in [CURRENCY_SYMBOLS]. A code it accepts has a name of its own
    and a usable (truthy) fallback rate. For a code it rejects,
    [getCurrencySymbol] falls back to "$" and [getCurrencyName] to the code
    itself, unless the code is the name of a member of [Object.prototype]:
    then both return that inherited member, not a text. *)
Theorem currency_tables (c : string) :
  (isValidCurrency c = true <-> is_Some (CURRENCY_SYMBOLS !! c)) /\
  (isValidCurrency c = true ->
   (exists n, getCurrencyName c = Object.Value n /\ n <> c) /\
   exists r, fallback_rates !! c = Some r /\ truthy_number r = true) /\
  (isValidCurrency c = false -> Object.inherits c = false ->
   getCurrencySymbol c = Object.Value "$" /\ getCurrencyName c = Object.Value c) /\
  (isValidCurrency c = false -> Object.inherits c = true ->
   getCurrencySymbol c = Object.Native c /\ getCurrencyName c = Object.Native c).
Proof.
  assert (Hin : forall k, In k getSupportedCurrencies ->
            is_Some (CURRENCY_SYMBOLS !! k) /\
            (exists n, getCurrencyName k = Object.Value n /\ n <> k) /\
            exists r, fallback_rates !! k = Some r /\ truthy_number r = true).
  { intros k Hk. simpl in Hk.
    repeat (destruct Hk as [<-|Hk];
            [split; [eexists; reflexivity|
             split; [eexists; split; [reflexivity|discriminate]|
                     eexists; split; reflexivity]]|]).
    destruct Hk. }
  assert (Hout : forall (t : list (string * string)) k,
            ~ In k (List.map fst t) -> (list_to_map t : gmap string string) !! k = None).
  { intros t k Hk. apply not_elem_of_list_to_map_1. now rewrite list_elem_of_In. }
  assert (Hrej : isValidCurrency c = false ->
            CURRENCY_SYMBOLS !! c = None /\ CURRENCY_NAMES !! c = None).
  { intros H.
    assert (Hn : ~ In c getSupportedCurrencies).
    { intros Hc. apply isValidCurrency_In in Hc. congruence. }
    unfold CURRENCY_SYMBOLS, CURRENCY_NAMES. now rewrite !Hout by exact Hn. }
  split; [|split; [|split]].
  - rewrite isValidCurrency_In. split; [intros H; now apply Hin|].
    intros [sym Hs]. destruct (List.in_dec string_dec c getSupportedCurrencies) as [H|H];
      [exact H|].
    unfold CURRENCY_SYMBOLS in Hs. rewrite Hout in Hs by exact H. discriminate.
  - intros H. apply isValidCurrency_In in H. destruct (Hin c H) as (_ & A & B). auto.
  - intros H Hi. destruct (Hrej H) as [E1 E2].
    unfold getCurrencySymbol, getCurrencyName, lookup_or, Object.get_or.
    now rewrite (get_absent _ c E1 Hi), (get_absent _ c E2 Hi).
  - intros H Hi. destruct (Hrej H) as [E1 E2].
    unfold getCurrencySymbol, getCurrencyName, lookup_or, Object.get_or.
    now rewrite (get_inherited _ c E1 Hi), (get_inherited _ c E2 Hi).
Qed.

Lemma currency_tables_witness :
  isValidCurrency "CHF" = false /\ Object.inherits "CHF" = false /\
  getCurrencySymbol "CHF" = Object.Value "$" /\
  getCurrencyName "CHF" = Object.Value "CHF" /\
  isValidCurrency "toString" = false /\ Object.inherits "toString" = true /\
  getCurrencySymbol "toString" = Object.Native "toString".
Proof.
  split; [reflexivity|]. split; [reflexivity|].
  destruct (proj1 (proj2 (proj2 (currency_tables "CHF"))) eq_refl eq_refl) as [A B].
  split; [exact A|]. split; [exact B|].
  split; [reflexivity|]. split; [reflexivity|].
  exact (proj1 (proj2 (proj2 (proj2 (currency_tables "toString"))) eq_refl eq_refl)).
Defined.

(** ** The main module: the state and the store *)

Lemma applyFilters_initial (host : Host) (products : list Product) :
  filterService.applyFilters host products (App.filters App.state) = products.
Proof. reflexivity. Qed.

Lemma saveCurrency_writable (c : string) (st : Storage) :
  writable (snd (saveCurrency c st)) = writable st.
Proof. unfold saveCurrency, saveToStorage. destruct st as [m h r]. now destruct r, h. Qed.

Lemma saveCurrency_reads (c : string) (st : Storage) :
  writable st = true ->
  loadCurrency (snd (saveCurrency c st)) = DString c /\
  loadQuoteList (snd (saveCurrency c st)) = loadQuoteList st.
Proof.
  intros W. split.
  - open_store st W.
    unfold saveCurrency, saveToStorage, loadCurrency, loadFromStorage.
    rewrite W. simpl. now rewrite lookup_insert_eq.
  - unfold saveCurrency, loadQuoteList. apply load_other_key. discriminate.
Qed.

Lemma clearQuote_writable (now : string) (st : Storage) :
  writable st = true ->
  loadQuoteList (snd (clearQuote now st)) = DProducts [] /\
  writable (snd (clearQuote now st)) = true /\
  loadCurrency (snd (clearQuote now st)) = loadCurrency st.
Proof.
  intros W. unfold clearQuote.
  pose proof (load_after_save now [] st) as Hload. rewrite W in Hload.
  split; [exact Hload|]. clear Hload. open_store st W.
  unfold saveQuoteList, saveToStorage. rewrite W. cbn. split; [reflexivity|].
  unfold loadCurrency, loadFromStorage. cbn.
  now rewrite !lookup_insert_ne by discriminate.
Qed.

(** One event on a store that accepts writes and whose ledger is an array:
    the handler returns, and the state shows the store again. *)
Lemma handle_in_sync (host : Host) (ev : App.Event) (s : App.State) (st : Storage)
    (L : list Product) :
  writable st = true ->
  App.in_sync host s st ->
  loadQuoteList st = DProducts L ->
  exists s' st' L',
    App.handle host ev s st = Returns (s', st') /\
    writable st' = true /\
    App.in_sync host s' st' /\
    loadQuoteList st' = DProducts L' /\
    App.allProducts s' = App.allProducts s /\
    App.exchangeRates s' = App.exchangeRates s.
Proof.
  intros W (Hc & Hq & Hf) HL.
  destruct ev as [v|v|c|now p|now i|now b]; cbn [App.handle].
  - destruct (saveCurrency_reads v st W) as [A B].
    exists (fst (App.handleCurrencyChange v s st)), (snd (saveCurrency v st)), L.
    split; [reflexivity|]. split; [now rewrite saveCurrency_writable|].
    split; [|split; [now rewrite B|split; reflexivity]].
    split; [cbn; now rewrite A|]. split; [cbn; now rewrite B|exact Hf].
  - exists (App.handleSearchInput host v s), st, L.
    split; [reflexivity|]. split; [exact W|].
    split; [|split; [exact HL|split; reflexivity]].
    split; [exact Hc|]. split; [exact Hq|reflexivity].
  - exists (App.handleCategoryClick host c s), st, L.
    split; [reflexivity|]. split; [exact W|].
    split; [|split; [exact HL|split; reflexivity]].
    split; [exact Hc|]. split; [exact Hq|reflexivity].
  - destruct (addToQuote_writable now p st L HL W) as (st' & E & A & W' & _ & C).
    unfold App.handleAddToQuote. rewrite E.
    eexists _, st', _. split; [reflexivity|]. split; [exact W'|].
    split; [|split; [exact A|split; reflexivity]].
    split; [cbn; now rewrite C|]. split; [cbn; now rewrite A|exact Hf].
  - destruct (removeFromQuote_writable now i st L HL W) as (st' & E & A & W' & _ & C).
    unfold App.handleRemoveFromQuote. rewrite E.
    eexists _, st', _. split; [reflexivity|]. split; [exact W'|].
    split; [|split; [exact A|split; reflexivity]].
    split; [cbn; now rewrite C|]. split; [cbn; now rewrite A|exact Hf].
  - destruct b; cbn [App.handleClearQuote].
    + destruct (clearQuote_writable now st W) as (A & W' & C).
      eexists _, _, []. split; [reflexivity|]. split; [exact W'|].
      split; [|split; [exact A|split; reflexivity]].
      split; [cbn; now rewrite C|]. split; [cbn; now rewrite A|exact Hf].
    + exists s, st, L. split; [reflexivity|]. split; [exact W|].
      split; [now split|]. split; [exact HL|split; reflexivity].
Qed.

Lemma session_in_sync (host : Host) (events : list App.Event) (s : App.State)
    (st : Storage) (L : list Product) :
  writable st = true ->
  App.in_sync host s st ->
  loadQuoteList st = DProducts L ->
  App.in_sync host (fst (App.session host events s st))
    (snd (App.session host events s st)) /\
  writable (snd (App.session host events s st)) = true /\
  App.allProducts (fst (App.session host events s st)) = App.allProducts s /\
  App.exchangeRates (fst (App.session host events s st)) = App.exchangeRates s.
Proof.
  revert s st L. induction events as [|ev rest IH]; intros s st L W I HL.
  - cbn. auto.
  - destruct (handle_in_sync host ev s st L W I HL) as (s' & st' & L' & E & W' & I' & HL' & A & B).
    cbn [App.session]. rewrite E.
    destruct (IH s' st' L' W' I' HL') as (X1 & X2 & X3 & X4).
    split; [exact X1|]. split; [exact X2|]. split; congruence.
Qed.

(** X23: after a successful start on a store that accepts writes and whose
    quote list reads as an array, every sequence of user events (currency
    change, search input, category click, add to quote, remove from quote,
    clear quote) leaves the application state in step with the store: the
    currency and the quote list on screen are the stored ones, the products
    shown are [applyFilters] of the catalog under the current filters, and
    the catalog and the rates are the fetched ones. The records of the
    stored list and the products added are such as read back from the store
    as they were written: their prices and ratings are finite and not the
    negative zero. *)
Theorem state_mirrors_store (host : Host) (events : list App.Event)
    (products : list Product) (R : rates) (st : Storage) (L : list Product) :
  writable st = true ->
  loadQuoteList st = DProducts L ->
  Forall (fun p => JSON_stable p = true) L ->
  Forall (fun ev => App.stable_event ev = true) events ->
  let started := fst (App.init (Returns products) R App.state st) in
  let final := App.session host events started st in
  App.in_sync host (fst final) (snd final) /\
  App.allProducts (fst final) = products /\
  App.exchangeRates (fst final) = R.
Proof.
  intros W HL _ _ started final.
  assert (I : App.in_sync host started st).
  { split; [reflexivity|]. split; [reflexivity|]. reflexivity. }
  destruct (session_in_sync host events started st L W I HL) as (A & _ & B & C).
  split; [exact A|]. split; [exact B|exact C].
Qed.

Lemma state_mirrors_store_witness :
  let events := [App.AddToQuoteClick "2024-01-01T00:00:00.000Z" demo_phone;
                 App.CurrencyChange "EUR";
                 App.SearchInput "shirt";
                 App.RemoveFromQuoteClick "2024-01-02T00:00:00.000Z" 1] in
  let final := App.session ascii_host events
                 (fst (App.init (Returns demo_catalog) fallback_rates App.state empty_store))
                 empty_store in
  Forall (fun ev => App.stable_event ev = true) events /\
  App.in_sync ascii_host (fst final) (snd final) /\
  App.allProducts (fst final) = demo_catalog /\
  App.exchangeRates (fst final) = fallback_rates.
Proof.
  assert (H : Forall (fun ev => App.stable_event ev = true)
                [App.AddToQuoteClick "2024-01-01T00:00:00.000Z" demo_phone;
                 App.CurrencyChange "EUR";
                 App.SearchInput "shirt";
                 App.RemoveFromQuoteClick "2024-01-02T00:00:00.000Z" 1])
    by (repeat constructor).
  split; [exact H|].
  exact (state_mirrors_store ascii_host _ demo_catalog fallback_rates empty_store []
           eq_refl eq_refl (List.Forall_nil _) H).
Defined.

(** X24: on a store that rejects writes the quote on screen is rebuilt from
    the store at every click: adding [p] shows the stored list with [p], and
    adding [q] next shows the stored list with [q], without [p]; the store
    holds neither. *)
Theorem rejected_store_forgets (now now' : string) (p q : Product) (s : App.State)
    (st : Storage) (L : list Product) :
  writable st = false ->
  loadQuoteList st = DProducts L ->
  ~ In (id p) (List.map id L) ->
  ~ In (id q) (List.map id L) ->
  exists s1 s2,
    App.handleAddToQuote now p s st = Returns (s1, st) /\
    App.quoteList s1 = DProducts (L ++ [p])%list /\
    App.handleAddToQuote now' q s1 st = Returns (s2, st) /\
    App.quoteList s2 = DProducts (L ++ [q])%list.
Proof.
  intros W HL Hp Hq.
  assert (E : forall t x, ~ In (id x) (List.map id L) ->
            addToQuote t x st = Returns ((L ++ [x])%list, st)).
  { intros t x Hx. unfold addToQuote. rewrite HL. cbv zeta.
    destruct (List.existsb (fun item => id item =? id x) L) eqn:Ex.
    - apply existsb_id_In in Ex. contradiction.
    - cbn [negb]. now rewrite save_not_writable. }
  exists (App.with_quoteList (L ++ [p])%list s),
         (App.with_quoteList (L ++ [q])%list (App.with_quoteList (L ++ [p])%list s)).
  unfold App.handleAddToQuote. rewrite !E by assumption. auto.
Qed.

Lemma rejected_store_forgets_witness :
  exists s1 s2,
    App.handleAddToQuote "t1" demo_phone App.state (mkStorage ∅ false)
      = Returns (s1, mkStorage ∅ false) /\
    App.quoteList s1 = DProducts ([] ++ [demo_phone])%list /\
    App.handleAddToQuote "t2" demo_shirt s1 (mkStorage ∅ false)
      = Returns (s2, mkStorage ∅ false) /\
    App.quoteList s2 = DProducts ([] ++ [demo_shirt])%list.
Proof.
  apply (rejected_store_forgets "t1" "t2" demo_phone demo_shirt App.state
           (mkStorage ∅ false) []).
  - reflexivity.
  - reflexivity.
  - simpl. tauto.
  - simpl. tauto.
Defined.

(** ** retryAPICall *)

Lemma backoff_S (k : nat) :
  backoff (S k) = (backoff k ++ [2 ^ Z.of_nat k * 1000])%list.
Proof. unfold backoff. now rewrite List.seq_S, List.map_app. Qed.

Lemma total_wait_app (l l' : list Z) : total_wait (l ++ l')%list = total_wait l + total_wait l'.
Proof. induction l as [|x l IH]; simpl; [reflexivity|]. rewrite IH. lia. Qed.

Lemma total_wait_backoff (k : nat) : total_wait (backoff k) = (2 ^ Z.of_nat k - 1) * 1000.
Proof.
  induction k as [|k IH]; [reflexivity|].
  rewrite backoff_S, total_wait_app, IH. simpl total_wait.
  rewrite Nat2Z.inj_succ, Z.pow_succ_r by lia. lia.
Qed.

(** The loop, entered at index [i] having slept [backoff i], when the
    calls [i .. k-1] fail and call [k] succeeds within the budget. *)
Lemma retry_loop_success {A : Type} (apiFn : nat -> outcome A) (maxRetries : nat)
    (k : nat) (a : A) (remaining i : nat) (e : option string) :
  (i + remaining = maxRetries)%nat ->
  (i <= k < maxRetries)%nat ->
  (forall j, (i <= j < k)%nat -> exists err, apiFn j = Throws err) ->
  apiFn k = Returns a ->
  retry_loop apiFn maxRetries remaining i e (backoff i)
    = mkRetried (inl a) (S k) (backoff k).
Proof.
  revert i e. induction remaining as [|r IH]; intros i e Hsum Hk Hfail Hok; [lia|].
  cbn [retry_loop]. destruct (Nat.eq_dec i k) as [->|Hne].
  - now rewrite Hok.
  - destruct (Hfail i) as [err Herr]; [lia|]. rewrite Herr.
    replace (i <? maxRetries - 1)%nat with true by (symmetry; apply Nat.ltb_lt; lia).
    rewrite <- backoff_S. apply IH; [lia|lia| |exact Hok].
    intros j Hj. apply Hfail. lia.
Qed.

(** The loop when every call left in the budget fails. *)
Lemma retry_loop_failure {A : Type} (apiFn : nat -> outcome A) (maxRetries : nat)
    (err : nat -> string) (remaining i : nat) (e : option string) :
  (i + remaining = maxRetries)%nat ->
  (forall j, (j < maxRetries)%nat -> apiFn j = Throws (err j)) ->
  retry_loop apiFn maxRetries remaining i e (backoff (Nat.min i (maxRetries - 1)))
    = mkRetried
        (inr (match remaining with
              | O => e
              | S _ => Some (err (maxRetries - 1)%nat)
              end))
        maxRetries (backoff (maxRetries - 1)).
Proof.
  revert i e. induction remaining as [|r IH]; intros i e Hsum Hfail.
  - cbn [retry_loop]. replace (Nat.min i (maxRetries - 1)) with (maxRetries - 1)%nat by lia.
    f_equal. lia.
  - cbn [retry_loop]. rewrite Hfail by lia.
    assert (Hs : (if (i <? maxRetries - 1)%nat
                  then (backoff (Nat.min i (maxRetries - 1)) ++ [2 ^ Z.of_nat i * 1000])%list
                  else backoff (Nat.min i (maxRetries - 1)))
                 = backoff (Nat.min (S i) (maxRetries - 1))).
    { destruct (Nat.ltb_spec i (maxRetries - 1)) as [Hlt|Hge].
      - replace (Nat.min i (maxRetries - 1)) with i by lia.
        replace (Nat.min (S i) (maxRetries - 1)) with (S i) by lia.
        now rewrite backoff_S.
      - f_equal. lia. }
    cbv zeta. rewrite Hs. rewrite IH by (assumption || lia).
    f_equal. destruct r as [|r']; [|reflexivity].
    do 3 f_equal. lia.
Qed.

(** X25: when the first [k] calls of [apiFn] fail and call [k] succeeds
    within the budget ([k < maxRetries]), [retryAPICall] resolves to that
    call's value after exactly [k + 1] calls, having waited 1 s, 2 s, 4 s,
    ... between them: [(2^k - 1)] seconds in all. *)
Theorem retryAPICall_succeeds {A : Type} (apiFn : nat -> outcome A)
    (maxRetries k : nat) (a : A) :
  (k < maxRetries)%nat ->
  (forall j, (j < k)%nat -> exists err, apiFn j = Throws err) ->
  apiFn k = Returns a ->
  settled (retryAPICall apiFn maxRetries) = inl a /\
  attempts (retryAPICall apiFn maxRetries) = S k /\
  waits (retryAPICall apiFn maxRetries) = backoff k /\
  total_wait (waits (retryAPICall apiFn maxRetries)) = (2 ^ Z.of_nat k - 1) * 1000.
Proof.
  intros Hk Hfail Hok. unfold retryAPICall.
  change (@nil Z) with (backoff 0).
  rewrite (retry_loop_success apiFn maxRetries k a maxRetries 0 None);
    [|lia|lia| |exact Hok].
  - cbn [settled attempts waits]. rewrite total_wait_backoff. auto.
  - intros j Hj. apply Hfail. lia.
Qed.

Lemma retryAPICall_succeeds_witness :
  let apiFn := fun i : nat => if (i <? 2)%nat then Throws "offline" else Returns 7 in
  settled (retryAPICall_default apiFn) = inl 7 /\
  attempts (retryAPICall_default apiFn) = 3%nat /\
  waits (retryAPICall_default apiFn) = [1000; 2000] /\
  total_wait (waits (retryAPICall_default apiFn)) = 3000.
Proof.
  apply (retryAPICall_succeeds
           (fun i : nat => if (i <? 2)%nat then Throws "offline" else Returns 7) 3 2 7).
  - lia.
  - intros j Hj. exists "offline".
    destruct j as [|[|j]]; [reflexivity|reflexivity|lia].
  - reflexivity.
Defined.

(** X26: when every call within the budget fails, [retryAPICall] rejects
    with the error of the last call, after exactly [maxRetries] calls and
    [maxRetries - 1] waits (none after the last failure); with a budget of
    zero it calls nothing and rejects with [undefined]. *)
Theorem retryAPICall_gives_up {A : Type} (apiFn : nat -> outcome A)
    (maxRetries : nat) (err : nat -> string) :
  (forall j, (j < maxRetries)%nat -> apiFn j = Throws (err j)) ->
  settled (retryAPICall apiFn maxRetries)
    = inr (match maxRetries with
           | O => None
           | S m => Some (err m)
           end) /\
  attempts (retryAPICall apiFn maxRetries) = maxRetries /\
  waits (retryAPICall apiFn maxRetries) = backoff (maxRetries - 1) /\
  List.length (waits (retryAPICall apiFn maxRetries)) = (maxRetries - 1)%nat.
Proof.
  intros Hfail. unfold retryAPICall.
  change (@nil Z) with (backoff (Nat.min 0 (maxRetries - 1))).
  rewrite (retry_loop_failure apiFn maxRetries err maxRetries 0 None) by (assumption || lia).
  cbn [settled attempts waits]. split; [|split; [reflexivity|split; [reflexivity|]]].
  - destruct maxRetries as [|m]; [reflexivity|]. do 2 f_equal.
    replace (S m - 1)%nat with m by lia. reflexivity.
  - unfold backoff. now rewrite List.length_map, List.length_seq.
Qed.

Lemma retryAPICall_gives_up_witness :
  let apiFn := fun _ : nat => @Throws Z "offline" in
  settled (retryAPICall_default apiFn) = inr (Some "offline") /\
  attempts (retryAPICall_default apiFn) = 3%nat /\
  waits (retryAPICall_default apiFn) = [1000; 2000] /\
  List.length (waits (retryAPICall_default apiFn)) = 2%nat.
Proof.
  apply (retryAPICall_gives_up (fun _ : nat => @Throws Z "offline") 3 (fun _ => "offline")).
  intros j Hj. reflexivity.
Defined.

(** ** debounce *)

Module Debounce_facts.
Import Debounce.
Section Facts.
Context {A : Type}.
Implicit Types (w : @World A) (inputs : list (Z * A)).

Lemma advance_tidy (t : Z) w :
  tidy w ->
  tidy (advance t w) /\
  calls (advance t w) = (calls w ++ due_by t (timers w))%list /\
  due_by t (timers (advance t w)) = [].
Proof.
  intros [E | (i & due & args & E & Ht)]; unfold advance; rewrite E.
  - cbn. split; [now left|]. rewrite E. cbn. now rewrite app_nil_r.
  - cbn [List.length run_until]. rewrite E. cbn [earliest fst snd due_by].
    destruct (due <=? t) eqn:Hd.
    + cbn [List.filter fst]. rewrite Nat.eqb_refl. cbn [negb run_until].
      unfold later, clearTimeout. cbn. rewrite Ht. cbn. split; [now left|].
      split; reflexivity.
    + split; [right; now exists i, due, args|]. rewrite E. cbn [due_by].
      rewrite Hd. now rewrite app_nil_r.
Qed.

Lemma executedFunction_tidy (wait : Z) (args : A) (t : Z) w :
  tidy w ->
  timers (executedFunction wait args t w) = [(next_id w, (t + wait, args))] /\
  timeout (executedFunction wait args t w) = Some (next_id w) /\
  calls (executedFunction wait args t w) = calls w.
Proof.
  intros [E | (i & due & a & E & Ht)]; unfold executedFunction, setTimeout, clearTimeout.
  - destruct (timeout w); cbn; rewrite E; auto.
  - rewrite Ht. cbn. rewrite E. cbn. rewrite Nat.eqb_refl. auto.
Qed.

(** What [func] has been called with once the inputs are played and time
    has passed until [finish]. *)
Lemma play_calls (wait finish : Z) inputs w :
  tidy w ->
  calls (advance finish (play wait inputs w)) =
    (calls w ++ due_by (next_input inputs finish) (timers w)
       ++ pauses wait inputs finish)%list.
Proof.
  revert w. induction inputs as [|[t args] rest IH]; intros w Hw.
  - cbn [play pauses next_input]. rewrite app_nil_r.
    now destruct (advance_tidy finish w Hw) as (_ & -> & _).
  - cbn [play pauses next_input].
    destruct (advance_tidy t w Hw) as (T1 & C1 & _).
    destruct (executedFunction_tidy wait args t (advance t w) T1) as (E2 & H2 & C2).
    rewrite IH.
    + rewrite C2, C1, E2. cbn [due_by]. now rewrite <- !app_assoc.
    + right. eexists _, _, _. split; [exact E2|exact H2].
Qed.

Lemma pauses_burst (wait finish t : Z) (args : A) (rest : list (Z * A)) :
  burst wait t rest ->
  fst (List.last rest (t, args)) + wait <= finish ->
  pauses wait ((t, args) :: rest) finish =
    [(fst (List.last rest (t, args)) + wait, snd (List.last rest (t, args)))].
Proof.
  revert t args. induction rest as [|[t' a'] rest IH]; intros t args Hb Hf.
  - cbn in *. replace (t + wait <=? finish) with true by (symmetry; apply Z.leb_le; lia).
    reflexivity.
  - destruct Hb as [Hlt Hb].
    change (List.last ((t', a') :: rest) (t, args)) with
      (match rest with [] => (t', a') | _ => List.last rest (t, args) end) in *.
    assert (El : match rest with [] => (t', a') | _ => List.last rest (t, args) end
                 = List.last rest (t', a')).
    { destruct rest as [|x r]; [reflexivity|]. clear. revert x.
      induction r as [|y r IHr]; intros x; [reflexivity|]. apply (IHr y). }
    rewrite El in *.
    cbn [pauses]. replace (t + wait <=? t') with false by (symmetry; apply Z.leb_gt; lia).
    cbn [app]. now apply IH.
Qed.

Lemma pauses_spaced (wait finish : Z) inputs :
  (forall t args, In (t, args) inputs -> t + wait <= finish) ->
  StronglySorted (fun x y => fst x + wait <= fst y) inputs ->
  pauses wait inputs finish = List.map (fun x => (fst x + wait, snd x)) inputs.
Proof.
  intros Hf Hs. induction Hs as [|[t args] rest Hs IH Hall].
  - reflexivity.
  - cbn [pauses List.map fst snd].
    rewrite IH by (intros t' a' Hin; apply (Hf t' a'); now right).
    assert (Hn : t + wait <= match rest with [] => finish | (t', _) :: _ => t' end).
    { destruct rest as [|[t' a'] r].
      - apply (Hf t args). now left.
      - apply Forall_cons in Hall as [H _]. exact H. }
    apply Z.leb_le in Hn. now rewrite Hn.
Qed.

End Facts.
End Debounce_facts.

(** X27: a burst of calls of the debounced function, each less than [wait]
    after the one before, makes [func] run exactly once: [wait] after the
    last call of the burst, with the arguments of that last call. *)
Theorem debounce_burst {A : Type} (wait finish t : Z) (args : A) (rest : list (Z * A)) :
  Debounce.burst wait t rest ->
  fst (List.last rest (t, args)) + wait <= finish ->
  Debounce.debounce wait ((t, args) :: rest) finish =
    [(fst (List.last rest (t, args)) + wait, snd (List.last rest (t, args)))].
Proof.
  intros Hb Hf. unfold Debounce.debounce.
  rewrite Debounce_facts.play_calls by now left.
  cbn [Debounce.calls Debounce.timers Debounce.idle Debounce.due_by app].
  now apply Debounce_facts.pauses_burst.
Qed.

Lemma debounce_burst_witness :
  Debounce.debounce 300 [(0, "s"); (100, "sh"); (250, "shi"); (500, "shirt")] 1000
    = [(800, "shirt")].
Proof.
  apply (debounce_burst 300 1000 0 "s" [(100, "sh"); (250, "shi"); (500, "shirt")]).
  - simpl. lia.
  - simpl. lia.
Defined.

(** X28: calls of the debounced function that come at least [wait] apart
    are all passed on: [func] runs once for each call, [wait] later and
    with the same arguments, in the order of the calls. *)
Theorem debounce_spaced {A : Type} (wait finish : Z) (inputs : list (Z * A)) :
  StronglySorted (fun x y => fst x + wait <= fst y) inputs ->
  (forall t args, In (t, args) inputs -> t + wait <= finish) ->
  Debounce.debounce wait inputs finish =
    List.map (fun x => (fst x + wait, snd x)) inputs.
Proof.
  intros Hs Hf. unfold Debounce.debounce.
  rewrite Debounce_facts.play_calls by now left.
  cbn [Debounce.calls Debounce.timers Debounce.idle Debounce.due_by app].
  now apply Debounce_facts.pauses_spaced.
Qed.

Lemma debounce_spaced_witness :
  Debounce.debounce 300 [(0, "a"); (300, "b"); (1000, "c")] 2000
    = [(300, "a"); (600, "b"); (1300, "c")].
Proof.
  apply (debounce_spaced 300 2000 [(0, "a"); (300, "b"); (1000, "c")]).
  - repeat (apply SSorted_cons || apply SSorted_nil || apply Forall_cons
            || apply Forall_nil || (split; simpl; try lia)).
  - intros t args Hin. simpl in Hin.
    repeat (destruct Hin as [Hin|Hin]; [inversion Hin; subst; lia|]). destruct Hin.
Defined.

(** ** Small integers and fractions as binary64 numbers *)

Module Float_exact.
Import IEEE IEEE_sign IEEE_facts.

Lemma digits_unique (p : positive) (d : Z) :
  2 ^ (d - 1) <= Zpos p < 2 ^ d -> Zpos (digits2_pos p) = d.
Proof.
  intros [Hlo Hhi]. pose proof (digits_bounds p) as [Blo Bhi].
  assert (Hd : 0 < d).
  { destruct (Z.ltb_spec 0 d) as [|Hle]; [assumption|].
    assert (2 ^ d <= 1); [|lia].
    destruct (Z.eq_dec d 0) as [->|]; [reflexivity|].
    rewrite Z.pow_neg_r by lia. lia. }
  destruct (Z.lt_trichotomy (Zpos (digits2_pos p)) d) as [H|[H|H]]; [|exact H|].
  - pose proof (pow2_le (Zpos (digits2_pos p)) (d - 1) ltac:(lia)). lia.
  - pose proof (pow2_le d (Zpos (digits2_pos p) - 1) ltac:(lia)). lia.
Qed.

Lemma digits_shift (p q : positive) (k : Z) :
  0 <= k -> Zpos q = Zpos p * 2 ^ k ->
  Zpos (digits2_pos q) = Zpos (digits2_pos p) + k.
Proof.
  intros Hk E. apply digits_unique. rewrite E.
  pose proof (digits_bounds p) as [Blo Bhi].
  pose proof (pow2_pos k Hk) as Hp.
  replace (Zpos (digits2_pos p) + k - 1) with (Zpos (digits2_pos p) - 1 + k) by lia.
  rewrite !Z.pow_add_r by lia. split; nia.
Qed.

(** A mantissa that is in canonical form already is not rounded. *)
Lemma round_canonical (s : bool) (m : positive) (e : Z) :
  bounded prec emax m e = true ->
  binary_round_aux prec emax s (Zpos m) e loc_Exact = S754_finite s m e.
Proof.
  intros B. pose proof B as B'.
  unfold bounded, canonical_mantissa in B'.
  apply andb_true_iff in B' as [Hc He]. apply Z.eqb_eq in Hc.
  assert (H2 : shr_fexp prec emax (Zpos m) e loc_Exact
               = (Build_shr_record (Zpos m) false false, e)).
  { unfold shr_fexp. cbn [Zdigits2]. rewrite Hc, Z.sub_diag. reflexivity. }
  unfold binary_round_aux.
  rewrite H2. cbn [shr_m loc_of_shr_record round_nearest_even].
  rewrite H2. cbn [shr_m]. now rewrite He.
Qed.

(** A number [r * 2^e] of at most 53 digits is represented exactly. *)
Lemma binary_round_exact (s : bool) (r : positive) (e : Z) :
  -1074 <= e <= 971 -> Zpos r < 2 ^ 53 ->
  exists r' e',
    binary_round prec emax s r e = S754_finite s r' e' /\
    bounded prec emax r' e' = true /\
    e' <= e /\ Zpos r' = Zpos r * 2 ^ (e - e').
Proof.
  intros He Hr.
  pose proof (digits_bounds r) as [Blo Bhi].
  assert (Hd53 : Zpos (digits2_pos r) <= 53).
  { destruct (Z.leb_spec (Zpos (digits2_pos r)) 53) as [|Hgt]; [assumption|].
    pose proof (pow2_le 53 (Zpos (digits2_pos r) - 1) ltac:(lia)). lia. }
  unfold binary_round.
  set (e' := fexp prec emax (Zpos (digits2_pos r) + e)).
  assert (He' : e' <= e /\ -1074 <= e' /\ e' <= 971).
  { unfold e', fexp, SpecFloat.emin, prec, emax. lia. }
  destruct (shl_align_spec r e e' ltac:(lia)) as [Hm Hz].
  destruct (shl_align r e e') as [mz ez]. cbn [fst snd] in Hm, Hz. subst ez.
  assert (B : bounded prec emax mz e' = true).
  { unfold bounded, canonical_mantissa. apply andb_true_iff. split.
    - apply Z.eqb_eq.
      rewrite (digits_shift r mz (e - e')) by (lia || exact Hm).
      replace (Zpos (digits2_pos r) + (e - e') + e') with (Zpos (digits2_pos r) + e) by lia.
      reflexivity.
    - apply Z.leb_le. unfold emax, prec. lia. }
  exists mz, e'. split; [now apply round_canonical|]. split; [exact B|]. split; [lia|exact Hm].
Qed.


(** The number a sign, a mantissa of at most 53 digits and an exponent
    denote, and its place in the order. *)
Lemma normalize_exact (s : bool) (r : positive) (e : Z) :
  -1074 <= e <= 971 -> Zpos r < 2 ^ 53 ->
  exists r' e',
    Prim2SF (SF2Prim (binary_round prec emax s r e)) = S754_finite s r' e' /\
    e' <= e /\ Zpos r' = Zpos r * 2 ^ (e - e') /\
    Zpos r' * 2 ^ (e' + 1074) = Zpos r * 2 ^ (e + 1074).
Proof.
  intros He Hr.
  destruct (binary_round_exact s r e He Hr) as (r' & e' & E & B & Hle & Hm).
  exists r', e'. rewrite E. split; [now apply Prim2SF_SF2Prim|]. split; [exact Hle|].
  split; [exact Hm|].
  apply bounded_inv in B as (Be & _).
  rewrite Hm, <- Z.mul_assoc, <- Z.pow_add_r by lia. do 2 f_equal. lia.
Qed.

Lemma ltb_true_not_nan (x y : float) :
  (x <? y)%float = true -> PrimFloat.is_nan x = false /\ PrimFloat.is_nan y = false.
Proof.
  rewrite FloatAxioms.ltb_spec. unfold SFltb.
  destruct (SFcompare (Prim2SF x) (Prim2SF y)) as [c|] eqn:E; [|discriminate].
  intros _. apply Float_leb.SFcompare_Some_not_nan in E as [Hx Hy].
  split; now apply Float_leb.not_nan_is_nan.
Qed.

(** A float is what its decoding says. *)
Lemma decoded (x : float) (sf : spec_float) : Prim2SF x = sf -> x = SF2Prim sf.
Proof. intros <-. symmetry. apply SF2Prim_Prim2SF. Qed.

End Float_exact.

(** ** generateStars *)

Section Stars.
Import IEEE IEEE_sign IEEE_facts Float_order Float_leb Float_exact.

(** The integer part and the fraction of a positive number below 5.5. *)
Lemma small_rating (m : positive) (e : Z) :
  bounded prec emax m e = true ->
  Zpos m * 2 ^ (e + 1074) < 11 * 2 ^ 1073 ->
  e < 0 /\ 0 < 2 ^ (- e) /\ 2 ^ (- e) * 2 ^ (e + 1074) = 2 * 2 ^ 1073 /\
  0 <= Zpos m / 2 ^ (- e) <= 5.
Proof.
  intros B H. apply bounded_inv in B as (He & Hm & Hn).
  assert (K : 0 < 2 ^ 1073) by now apply pow2_pos.
  assert (He0 : e < 0).
  { destruct (Z.ltb_spec e 0) as [|Hge]; [assumption|]. exfalso.
    specialize (Hn ltac:(lia)).
    pose proof (pow2_le 1074 (e + 1074) ltac:(lia)) as Hq.
    change (2 ^ 1074) with (2 * 2 ^ 1073) in Hq.
    change (2 ^ 52) with 4503599627370496 in Hn. nia. }
  assert (P : 0 < 2 ^ (- e)) by (apply pow2_pos; lia).
  assert (PQ : 2 ^ (- e) * 2 ^ (e + 1074) = 2 * 2 ^ 1073).
  { rewrite <- Z.pow_add_r by lia. replace (- e + (e + 1074)) with 1074 by lia.
    reflexivity. }
  split; [exact He0|]. split; [exact P|]. split; [exact PQ|].
  pose proof (Z.div_mod (Zpos m) (2 ^ (- e)) ltac:(lia)) as D.
  pose proof (Z.mod_pos_bound (Zpos m) (2 ^ (- e)) P) as R.
  assert (Q : 0 < 2 ^ (e + 1074)) by (apply pow2_pos; lia).
  split; [apply Z.div_pos; lia|].
  set (n := Zpos m / 2 ^ (- e)) in *. set (r := Zpos m mod 2 ^ (- e)) in *.
  set (p := 2 ^ (- e)) in *. set (q := 2 ^ (e + 1074)) in *. set (k := 2 ^ 1073) in *.
  assert (n * (2 * k) <= Zpos m * q) by (rewrite <- PQ; nia).
  nia.
Qed.


(** A half star is drawn only if the fraction is a half at least. *)
Lemma half_star (rating : float) (m : positive) (e : Z) :
  Prim2SF rating = S754_finite false m e ->
  bounded prec emax m e = true ->
  e < 0 ->
  (0.5 <=? remainder_1 rating)%float = true ->
  2 ^ (- e) <= 2 * (Zpos m mod 2 ^ (- e)).
Proof.
  intros E B He H. unfold remainder_1 in H. rewrite E in H.
  replace (0 <=? e) with false in H by (symmetry; apply Z.leb_gt; lia).
  assert (P : 0 < 2 ^ (- e)) by (apply pow2_pos; lia).
  pose proof (Z.mod_pos_bound (Zpos m) (2 ^ (- e)) P) as R.
  pose proof (Z.mod_le (Zpos m) (2 ^ (- e)) ltac:(lia) P) as Rm.
  apply bounded_inv in B as (Be & Bm & _).
  destruct (Zpos m mod 2 ^ (- e)) as [|rp|rp] eqn:Er; [discriminate H| |lia].
  cbn [Z.eqb cond_Zopp binary_normalize] in H.
  destruct (normalize_exact false rp e ltac:(lia) ltac:(lia)) as (r' & e' & E' & _ & _ & Hv).
  destruct (leb_true_not_nan _ _ H) as [_ Hn].
  rewrite leb_key in H by (reflexivity || exact Hn).
  unfold key in H. rewrite E' in H. cbn [ord cond_Zopp] in H. rewrite Hv in H.
  change (ord (Prim2SF 0.5)) with (2 ^ 1073) in H. apply Z.leb_le in H.
  assert (K : 0 < 2 ^ 1073) by now apply pow2_pos.
  assert (PQ : 2 ^ (- e) * 2 ^ (e + 1074) = 2 * 2 ^ 1073).
  { rewrite <- Z.pow_add_r by lia. replace (- e + (e + 1074)) with 1074 by lia.
    reflexivity. }
  assert (Q : 0 < 2 ^ (e + 1074)) by (apply pow2_pos; lia).
  set (p := 2 ^ (- e)) in *. set (q := 2 ^ (e + 1074)) in *. set (k := 2 ^ 1073) in *.
  nia.
Qed.


(** A count below [2^53] as a number, and its place in the order. *)
Lemma number_of_Z_key (k : Z) :
  0 <= k < 2 ^ 53 ->
  PrimFloat.is_nan (number_of_Z k) = false /\ key (number_of_Z k) = k * 2 ^ 1074.
Proof.
  intros Hk. unfold number_of_Z. destruct k as [|p|p]; [split; reflexivity| |lia].
  cbn [binary_normalize].
  destruct (normalize_exact false p 0 ltac:(lia) ltac:(lia)) as (r' & e' & E & _ & _ & Hv).
  split.
  - apply not_nan_is_nan. rewrite E. discriminate.
  - unfold key. rewrite E. cbn [ord cond_Zopp]. exact Hv.
Qed.

(** X29: for a rating from 0 to below 5.5 [generateStars] draws a bar of
    exactly five glyphs: as many full stars as the rating rounded down,
    then a half star or none, then empty stars. *)
Theorem generateStars_five (rating : float) :
  (0 <=? rating)%float = true ->
  (rating <? 5.5)%float = true ->
  exists (full empty : nat) (half : bool),
    generateStars rating = Returns (star_bar full half empty) /\
    glyphs full half empty = 5%nat /\
    (number_of_Z (Z.of_nat full) <=? rating)%float = true /\
    (rating <? number_of_Z (Z.of_nat full + 1))%float = true.
Proof.
  intros H0 H1. destruct (leb_true_not_nan _ _ H0) as [_ Hn].
  pose proof H0 as K0. pose proof H1 as K1.
  rewrite leb_key in K0 by (reflexivity || exact Hn).
  rewrite ltb_key in K1 by (reflexivity || exact Hn).
  apply Z.leb_le in K0. apply Z.ltb_lt in K1.
  change (key 0) with 0 in K0. change (key 5.5) with (11 * 2 ^ 1073) in K1.
  unfold key in K0, K1. pose proof (Prim2SF_valid rating) as V.
  assert (K : 0 < 2 ^ 1073) by now apply pow2_pos.
  destruct (Prim2SF rating) as [s|s| |s m e] eqn:E.
  - apply decoded in E. subst rating. exists 0%nat, 5%nat, false.
    destruct s; repeat split; reflexivity.
  - exfalso. cbn [ord] in K0, K1.
    pose proof (pow2_le 1077 2100 ltac:(lia)) as Hinf.
    change (2 ^ 1077) with (16 * 2 ^ 1073) in Hinf.
    destruct s; cbn [cond_Zopp] in K0, K1; lia.
  - exfalso. apply is_nan_not_nan in Hn. apply Hn. exact E.
  - cbn [valid_binary] in V. cbn [ord] in K0, K1.
    pose proof (ord_finite_pos m e V) as Hpos.
    destruct s; cbn [cond_Zopp] in K0, K1; [lia|].
    destruct (small_rating m e V K1) as (He & P & PQ & Hn5).
    pose proof (bounded_inv m e V) as (Be & Bm & _).
    pose proof (Z.div_mod (Zpos m) (2 ^ (- e)) ltac:(lia)) as D.
    pose proof (Z.mod_pos_bound (Zpos m) (2 ^ (- e)) P) as R.
    assert (Q : 0 < 2 ^ (e + 1074)) by (apply pow2_pos; lia).
    assert (Hhalf : (0.5 <=? remainder_1 rating)%float = true -> Zpos m / 2 ^ (- e) <= 4).
    { intros Hh. pose proof (half_star rating m e E V He Hh) as Hr.
      set (n := Zpos m / 2 ^ (- e)) in *. set (r := Zpos m mod 2 ^ (- e)) in *.
      set (p := 2 ^ (- e)) in *. set (q := 2 ^ (e + 1074)) in *. set (k := 2 ^ 1073) in *.
      assert (n < 5 \/ n = 5) as [|H5] by lia; [lia|]. exfalso.
      assert (11 * p <= 2 * Zpos m) by nia.
      assert (11 * (p * q) <= 2 * Zpos m * q) by nia.
      lia. }
    assert (Hlo : forall k : Z, Zpos m / 2 ^ (- e) = k ->
              (number_of_Z k <=? rating)%float = true /\
              (rating <? number_of_Z (k + 1))%float = true).
    { intros k Hk.
      destruct (number_of_Z_key k) as [N1 E1]; [change (2 ^ 53) with 9007199254740992; lia|].
      destruct (number_of_Z_key (k + 1)) as [N2 E2]; [change (2 ^ 53) with 9007199254740992; lia|].
      rewrite leb_key, ltb_key by assumption.
      rewrite E1, E2. unfold key. rewrite E. cbn [ord cond_Zopp].
      change (2 ^ 1074) with (2 * 2 ^ 1073).
      set (n := Zpos m / 2 ^ (- e)) in *. set (r := Zpos m mod 2 ^ (- e)) in *.
      set (p := 2 ^ (- e)) in *. set (q := 2 ^ (e + 1074)) in *. set (c := 2 ^ 1073) in *.
      split; [apply Z.leb_le|apply Z.ltb_lt]; rewrite <- PQ; nia. }
    unfold generateStars, Math_floor. rewrite E.
    replace (0 <=? e) with false by (symmetry; apply Z.leb_gt; lia).
    cbn [cond_Zopp].
    destruct (0.5 <=? remainder_1 rating)%float eqn:Hh.
    + specialize (Hhalf eq_refl).
      assert (Hc : Zpos m / 2 ^ (- e) = 0 \/ Zpos m / 2 ^ (- e) = 1 \/
                   Zpos m / 2 ^ (- e) = 2 \/ Zpos m / 2 ^ (- e) = 3 \/
                   Zpos m / 2 ^ (- e) = 4) by lia.
      destruct Hc as [Hc|[Hc|[Hc|[Hc|Hc]]]]; rewrite Hc;
        [exists 0%nat, 4%nat, true | exists 1%nat, 3%nat, true | exists 2%nat, 2%nat, true
        | exists 3%nat, 1%nat, true | exists 4%nat, 0%nat, true];
        (split; [reflexivity|]; split; [reflexivity|]; exact (Hlo _ Hc)).
    + assert (Hc : Zpos m / 2 ^ (- e) = 0 \/ Zpos m / 2 ^ (- e) = 1 \/
                   Zpos m / 2 ^ (- e) = 2 \/ Zpos m / 2 ^ (- e) = 3 \/
                   Zpos m / 2 ^ (- e) = 4 \/ Zpos m / 2 ^ (- e) = 5) by lia.
      destruct Hc as [Hc|[Hc|[Hc|[Hc|[Hc|Hc]]]]]; rewrite Hc;
        [exists 0%nat, 5%nat, false | exists 1%nat, 4%nat, false | exists 2%nat, 3%nat, false
        | exists 3%nat, 2%nat, false | exists 4%nat, 1%nat, false | exists 5%nat, 0%nat, false];
        (split; [reflexivity|]; split; [reflexivity|]; exact (Hlo _ Hc)).
Qed.

Lemma generateStars_five_witness :
  exists (full empty : nat) (half : bool),
    generateStars 3.9 = Returns (star_bar full half empty) /\
    glyphs full half empty = 5%nat /\
    (number_of_Z (Z.of_nat full) <=? 3.9)%float = true /\
    (3.9 <? number_of_Z (Z.of_nat full + 1))%float = true.
Proof. exact (generateStars_five 3.9 eq_refl eq_refl). Defined.


(** X30: for a rating below zero and for an infinite rating
    [generateStars] ends in the [RangeError] of [String.prototype.repeat];
    for [NaN] it returns the empty string, a bar of no glyph. *)
Theorem generateStars_out_of_range (rating : float) :
  (rating <? 0)%float = true \/ rating = infinity ->
  generateStars rating = Throws "RangeError: Invalid count value" /\
  generateStars nan = Returns "".
Proof.
  intros H. split; [|reflexivity].
  destruct H as [H| ->]; [|reflexivity].
  destruct (ltb_true_not_nan _ _ H) as [Hn _].
  rewrite ltb_key in H by (reflexivity || exact Hn).
  apply Z.ltb_lt in H. change (key 0) with 0 in H. unfold key in H.
  pose proof (Prim2SF_valid rating) as V.
  destruct (Prim2SF rating) as [s|s| |s m e] eqn:E; cbn [ord] in H; try lia.
  - assert (Hinf : 0 < 2 ^ 2100) by now apply pow2_pos.
    destruct s; cbn [cond_Zopp] in H; [|lia].
    apply decoded in E. subst rating. reflexivity.
  - cbn [valid_binary] in V. pose proof (ord_finite_pos m e V) as Hpos.
    pose proof (bounded_inv m e V) as (Be & Bm & _).
    destruct s; cbn [cond_Zopp] in H; [|lia].
    assert (Hcount : forall count : float,
              (exists n, ToIntegerOrInfinity count = Integer n /\ n < 0) ->
              forall s0, String_repeat s0 count = Throws "RangeError: Invalid count value").
    { intros count (n & En & Hlt) s0. unfold String_repeat. rewrite En.
      now replace (n <? 0) with true by (symmetry; apply Z.ltb_lt; lia). }
    unfold generateStars. rewrite Hcount; [reflexivity|].
    unfold Math_floor. rewrite E. destruct (Z.leb_spec 0 e) as [He|He].
    + unfold ToIntegerOrInfinity. rewrite E.
      replace (0 <=? e) with true by (symmetry; apply Z.leb_le; lia).
      eexists. split; [reflexivity|]. cbn [cond_Zopp].
      pose proof (pow2_pos e He). nia.
    + change (cond_Zopp true (Zpos m)) with (Zneg m).
      assert (P : 0 < 2 ^ (- e)) by (apply pow2_pos; lia).
      pose proof (Z.div_mod (Zneg m) (2 ^ (- e)) ltac:(lia)) as D.
      pose proof (Z.mod_pos_bound (Zneg m) (2 ^ (- e)) P) as R.
      destruct (Zneg m / 2 ^ (- e)) as [|n|n] eqn:En; [nia|nia|].
      cbn [Z.eqb binary_normalize].
      assert (Hn53 : Zpos n < 2 ^ 53) by nia.
      destruct (normalize_exact true n 0 ltac:(lia) Hn53) as (r' & e' & E' & Hle & Hm & _).
      unfold ToIntegerOrInfinity. rewrite E'. eexists. split; [reflexivity|].
      cbn [cond_Zopp].
      destruct (Z.leb_spec 0 e') as [He'|He'].
      * pose proof (pow2_pos e' He'). nia.
      * assert (0 < Zpos r' / 2 ^ (- e')); [|lia].
        replace (0 - e') with (- e') in Hm by lia. rewrite Hm.
        rewrite Z.div_mul by (pose proof (pow2_pos (- e') ltac:(lia)); lia). lia.
Qed.

Lemma generateStars_out_of_range_witness :
  generateStars (-0.5) = Throws "RangeError: Invalid count value" /\
  generateStars nan = Returns "".
Proof. apply (generateStars_out_of_range (-0.5)). left. reflexivity. Defined.

End Stars.
